(** * MSL achievement and CSV reconciliation: a shallow embedding

    The dashboard keeps its algorithmic content inside React components:
    [MSLCsvUpload], [ProductCsvUpload], [StoreCsvUpload] (CSV parsing and
    bulk commit), [MSLManagement] (CSV export) and the two achievement
    computations of [Overview] and [DailyRecap].  Each
    is embedded below as a Rocq function that follows the TypeScript
    text statement by statement.

    Conventions of the embedding:
    - a JavaScript string is a [string]; the embedding is exact on ASCII
      text, where white space is [Ascii.is_space] (TAB, LF, VT, FF, CR, SP)
      and the letters with an upper case are a-z; any other code unit is
      an ordinary character;
    - [undefined] read from an array is [None]; [x || ''] is [orEmpty];
    - a JavaScript number that holds an integer is a [Z], [NaN] is [None];
      a number that holds a ratio is an exact rational [Q];
    - a JavaScript object used as a dictionary is the [gmap] of its own
      keys, a [Set] is a [gset];
    - the hosted data store is a state threaded through the requests. *)

From Stdlib Require Import String Ascii ZArith NArith QArith Lia List.
From Stdlib Require Import DecimalString DecimalN Sorted.
From Stdlib Require Floats Uint63.
From stdpp Require Import list gmap strings.

Local Open Scope string_scope.
Local Open Scope list_scope.

(** ** JavaScript string and array primitives *)

(** A string of the program is a string of code units; the [string] of
    this development is exact for the texts whose code units are all
    below 128 (ASCII), where [trim], [toUpperCase] and comparison are
    those of the engine.  [Spec.asciiText] names these texts. *)

Module Js.

Definition LF : ascii := "010"%char.
Definition COMMA : ascii := ","%char.
Definition QUOTE : ascii := "034"%char.

(** [String.prototype.trimStart] *)
Fixpoint trimStart (s : string) : string :=
  match s with
  | EmptyString => EmptyString
  | String c s' => if Ascii.is_space c then trimStart s' else s
  end.

(** [String.prototype.trimEnd] *)
Fixpoint trimEnd (s : string) : string :=
  match s with
  | EmptyString => EmptyString
  | String c s' =>
      match trimEnd s' with
      | EmptyString => if Ascii.is_space c then EmptyString else String c EmptyString
      | r => String c r
      end
  end.

(** [String.prototype.trim].  On ASCII text the white space of the
    engine is TAB, LF, VT, FF, CR and SP, that of [Ascii.is_space]; the
    engine also strips white space above 127 (U+00A0, U+FEFF, ...). *)
Definition trim (s : string) : string := trimEnd (trimStart s).

(** [s.split(sep)] for a one-character separator: never the empty array. *)
Fixpoint split (sep : ascii) (s : string) : list string :=
  match s with
  | EmptyString => [EmptyString]
  | String c s' =>
      if Ascii.eqb c sep then EmptyString :: split sep s'
      else match split sep s' with
           | [] => [String c EmptyString]
           | h :: t => String c h :: t
           end
  end.

(** [arr.join(sep)] *)
Definition join (sep : string) (l : list string) : string := String.concat sep l.

Definition upperChar (c : ascii) : ascii :=
  let n := nat_of_ascii c in
  if (97 <=? n)%nat && (n <=? 122)%nat then ascii_of_nat (n - 32) else c.

(** [String.prototype.toUpperCase] on the ASCII letters. *)
Fixpoint toUpperCase (s : string) : string :=
  match s with
  | EmptyString => EmptyString
  | String c s' => String (upperChar c) (toUpperCase s')
  end.

(** The first alternative of [/^"|"$/g]: a double quote at the start. *)
Definition dropLeadingQuote (s : string) : string :=
  match s with
  | String c s' => if Ascii.eqb c QUOTE then s' else s
  | EmptyString => EmptyString
  end.

(** The second alternative of [/^"|"$/g]: a double quote at the end. *)
Fixpoint dropTrailingQuote (s : string) : string :=
  match s with
  | EmptyString => EmptyString
  | String c EmptyString => if Ascii.eqb c QUOTE then EmptyString else s
  | String c s' => String c (dropTrailingQuote s')
  end.

(** [v.replace(/^"|"$/g, '')]: the global flag lets both alternatives
    match, the first at index 0 and the second at the last index. *)
Definition stripQuotes (s : string) : string :=
  dropTrailingQuote (dropLeadingQuote s).

(** [arr.indexOf(x)], [-1] when absent. *)
Fixpoint indexOf (x : string) (l : list string) : Z :=
  match l with
  | [] => (-1)%Z
  | y :: l' =>
      if String.eqb y x then 0%Z
      else let r := indexOf x l' in if (r <? 0)%Z then (-1)%Z else (r + 1)%Z
  end.

(** [arr.includes(x)] *)
Definition includes (x : string) (l : list string) : bool :=
  existsb (String.eqb x) l.

(** [arr[i]]: [undefined] for a negative or out-of-range index. *)
Definition at_ (l : list string) (i : Z) : option string :=
  if (i <? 0)%Z then None else l !! Z.to_nat i.

(** [x || ''] for [x : string | undefined]. *)
Definition orEmpty (o : option string) : string := default EmptyString o.

(** [x || d]: the empty string is falsy. *)
Definition orElse (o : option string) (d : string) : string :=
  match o with
  | Some (String c s) => String c s
  | _ => d
  end.

(** [!s] for a string. *)
Definition falsy (s : string) : bool :=
  match s with EmptyString => true | _ => false end.

(** The longest prefix of decimal digits. *)
Fixpoint decPrefix (s : string) : Decimal.uint :=
  match s with
  | EmptyString => Decimal.Nil
  | String c s' =>
      match c with
      | "0" => Decimal.D0 (decPrefix s') | "1" => Decimal.D1 (decPrefix s')
      | "2" => Decimal.D2 (decPrefix s') | "3" => Decimal.D3 (decPrefix s')
      | "4" => Decimal.D4 (decPrefix s') | "5" => Decimal.D5 (decPrefix s')
      | "6" => Decimal.D6 (decPrefix s') | "7" => Decimal.D7 (decPrefix s')
      | "8" => Decimal.D8 (decPrefix s') | "9" => Decimal.D9 (decPrefix s')
      | _ => Decimal.Nil
      end%char
  end.

(** The longest prefix of hexadecimal digits, either case. *)
Fixpoint hexPrefix (s : string) : Hexadecimal.uint :=
  match s with
  | EmptyString => Hexadecimal.Nil
  | String c s' =>
      match c with
      | "0" => Hexadecimal.D0 (hexPrefix s') | "1" => Hexadecimal.D1 (hexPrefix s')
      | "2" => Hexadecimal.D2 (hexPrefix s') | "3" => Hexadecimal.D3 (hexPrefix s')
      | "4" => Hexadecimal.D4 (hexPrefix s') | "5" => Hexadecimal.D5 (hexPrefix s')
      | "6" => Hexadecimal.D6 (hexPrefix s') | "7" => Hexadecimal.D7 (hexPrefix s')
      | "8" => Hexadecimal.D8 (hexPrefix s') | "9" => Hexadecimal.D9 (hexPrefix s')
      | "a" | "A" => Hexadecimal.Da (hexPrefix s')
      | "b" | "B" => Hexadecimal.Db (hexPrefix s')
      | "c" | "C" => Hexadecimal.Dc (hexPrefix s')
      | "d" | "D" => Hexadecimal.Dd (hexPrefix s')
      | "e" | "E" => Hexadecimal.De (hexPrefix s')
      | "f" | "F" => Hexadecimal.Df (hexPrefix s')
      | _ => Hexadecimal.Nil
      end%char
  end.

(** The magnitude read by [parseInt] once the sign is gone: a [0x]/[0X]
    prefix selects radix 16, otherwise radix 10; no digit gives [NaN]. *)
Definition parseMagnitude (s : string) : option Z :=
  match s with
  | String "0" (String ("x" | "X") h) =>
      match hexPrefix h with
      | Hexadecimal.Nil => None
      | d => Some (Z.of_N (N.of_hex_uint d))
      end
  | _ =>
      match decPrefix s with
      | Decimal.Nil => None
      | d => Some (Z.of_N (N.of_uint d))
      end
  end.

(** [parseInt(s)] with no radix: leading white space is skipped, an
    optional sign is read, then the digits; [None] is [NaN].  The value
    is the exact integer of the digits, which is the number of the engine
    up to 2^53 in absolute value ([Spec.safeInteger]); beyond that the
    engine rounds to a double. *)
Definition parseInt (s : string) : option Z :=
  match trimStart s with
  | String "-" r => Z.opp <$> parseMagnitude r
  | String "+" r => parseMagnitude r
  | r => parseMagnitude r
  end.

(** [String(n)] for a natural number. *)
Definition showN (n : N) : string :=
  DecimalString.NilEmpty.string_of_uint (N.to_uint n).

(** [String(z)] for an integer. *)
Definition showZ (z : Z) : string :=
  match z with
  | Zneg p => String "-" (showN (Npos p))
  | _ => showN (Z.to_N z)
  end.

(** The names that every object literal inherits from [Object.prototype]:
    [obj[name]] is a function, or the prototype itself for [__proto__],
    also when [obj] has no own key of that name. *)
Definition inheritedKeys : list string :=
  ["constructor"; "__proto__"; "hasOwnProperty"; "isPrototypeOf";
   "propertyIsEnumerable"; "toLocaleString"; "toString"; "valueOf";
   "__defineGetter__"; "__defineSetter__"; "__lookupGetter__"; "__lookupSetter__"].

(** [[...new Set(l)]]: the distinct elements, in order of first occurrence. *)
Fixpoint uniq (l : list string) : list string :=
  match l with
  | [] => []
  | x :: l' => x :: filter (fun y => y ≠ x) (uniq l')
  end.

End Js.

(** ** The hosted store, as far as [msl_items] goes

    The table is declared in [20250717140849_silent_salad.sql]:
    [category], [sku_code], [product_name] are [text NOT NULL], [priority]
    is [integer NOT NULL], [notes] is nullable and
    [UNIQUE(category, sku_code)] holds.  The generated columns ([id],
    [created_at], [updated_at]) are not represented.  Every request may
    also fail for a reason outside the table (transport, row-level
    security): the world carries the schedule of such faults, one flag per
    request, and the log of the requests issued. *)

Module Supabase.

Record MSLItem := mkMSLItem {
  category : string;
  sku_code : string;
  product_name : string;
  priority : Z;
  notes : option string
}.

(** The object literal built for [insert]: [priority] is any number. *)
Record MSLInsert := mkMSLInsert {
  ins_category : string;
  ins_sku_code : string;
  ins_product_name : string;
  ins_priority : option Z;
  ins_notes : option string
}.

Inductive Request :=
| DeleteEqCategory (category : string)
| InsertRows (rows : list MSLInsert).

Record World := mkWorld {
  msl_items : list MSLItem;
  faults : list bool;
  log : list Request
}.

(** [{ error }] of a response: [None] is [error: null]. *)
Definition Response := option string.

Inductive Outcome (A : Type) :=
| Done (a : A)
| Thrown (e : string).
Global Arguments Done {A} a.
Global Arguments Thrown {A} e.

(** An [async] computation against the store. *)
Definition Task (A : Type) : Type := World -> Outcome A * World.

Definition ret {A} (a : A) : Task A := fun w => (Done a, w).
Definition bind {A B} (m : Task A) (k : A -> Task B) : Task B :=
  fun w => match m w with
           | (Done a, w') => k a w'
           | (Thrown e, w') => (Thrown e, w')
           end.
Definition throw {A} (e : string) : Task A := fun w => (Thrown e, w).
(** [try { m } catch (error) { h error }] *)
Definition tryCatch {A} (m : Task A) (h : string -> Task A) : Task A :=
  fun w => match m w with
           | (Thrown e, w') => h e w'
           | r => r
           end.

(** [for (const x of l) { body x }] *)
Fixpoint forOf {A} (l : list A) (body : A -> Task unit) : Task unit :=
  match l with
  | [] => ret tt
  | x :: l' => bind (body x) (fun _ => forOf l' body)
  end.

Definition key (r : MSLItem) : string * string := (category r, sku_code r).

Definition int4 (z : Z) : bool := ((-2147483648 <=? z) && (z <=? 2147483647))%Z.

(** A row as the table stores it, when the column types accept it. *)
Definition accept (r : MSLInsert) : option MSLItem :=
  match ins_priority r with
  | Some p =>
      if int4 p
      then Some (mkMSLItem (ins_category r) (ins_sku_code r) (ins_product_name r)
                   p (ins_notes r))
      else None
  | None => None
  end.

(** The rows of one [INSERT] statement, all accepted or none. *)
Definition acceptAll (rows : list MSLInsert) : option (list MSLItem) :=
  mapM accept rows.

(** [UNIQUE(category, sku_code)] on the table extended by [new]. *)
Definition uniqueWith (table new : list MSLItem) : bool :=
  bool_decide (NoDup (map key new)) &&
  forallb (fun r => bool_decide (key r ∉ map key table)) new.

(** Record the request and read the next flag of the fault schedule. *)
Definition issue (q : Request) (w : World) : bool * World :=
  match faults w with
  | [] => (false, mkWorld (msl_items w) [] (log w ++ [q]))
  | f :: fs => (f, mkWorld (msl_items w) fs (log w ++ [q]))
  end.

Definition setTable (t : list MSLItem) (w : World) : World :=
  mkWorld t (faults w) (log w).

(** [supabase.from('msl_items').delete().eq('category', c)] *)
Definition deleteEqCategory (c : string) : Task Response :=
  fun w =>
    let '(fault, w1) := issue (DeleteEqCategory c) w in
    if fault then (Done (Some "request failed"), w1)
    else (Done None,
          setTable (List.filter (fun r => negb (String.eqb (category r) c)) (msl_items w1)) w1).

(** [supabase.from('msl_items').insert(rows)] *)
Definition insert (rows : list MSLInsert) : Task Response :=
  fun w =>
    let '(fault, w1) := issue (InsertRows rows) w in
    if fault then (Done (Some "request failed"), w1)
    else match acceptAll rows with
         | None => (Done (Some "invalid input value"), w1)
         | Some new =>
             if uniqueWith (msl_items w1) new
             then (Done None, setTable (msl_items w1 ++ new) w1)
             else (Done (Some "duplicate key value violates unique constraint"), w1)
         end.

End Supabase.

(** ** The MSL CSV upload ([MSLCsvUpload.tsx]) *)

Module MSLCsvUpload.

(** [interface CsvMSLItem]; [priority] is a number, [None] standing for [NaN]. *)
Record CsvMSLItem := mkCsvMSLItem {
  category : string;
  sku_code : string;
  product_name : string;
  priority : option Z;
  notes : string;
  isValid : bool;
  error : string
}.

Definition requiredHeaders : list string :=
  ["CATEGORY"; "SKU_CODE"; "PRODUCT_NAME"; "PRIORITY"].

(** What [parseCsv] leaves behind: one of its two alerts, or the preview
    ([setParsedItems] then [setShowPreview(true)]). *)
Inductive ParseOutcome :=
| AlertNoDataRow
| AlertMissingColumns (missingHeaders : list string)
| Preview (parsed : list CsvMSLItem).

(** The text passed to [alert]. *)
Definition alertText (o : ParseOutcome) : option string :=
  match o with
  | AlertNoDataRow =>
      Some "CSV file must have at least a header row and one data row"
  | AlertMissingColumns missingHeaders =>
      Some ("Missing required columns: " +:+ Js.join ", " missingHeaders)
  | Preview _ => None
  end.

(** [lines[i].split(',').map(v => v.trim().replace(/^"|"$/g, ''))] *)
Definition rowValues (line : string) : list string :=
  map (fun v => Js.stripQuotes (Js.trim v)) (Js.split Js.COMMA line).

Definition rowLabel (i : nat) : string := "Row " +:+ Js.showN (N.of_nat (i + 1)).

(** [`${category}-${sku}`] *)
Definition dupKey (category sku : string) : string := category +:+ "-" +:+ sku.

(** [isNaN(priority) || priority < 1] *)
Definition badPriority (priority : option Z) : bool :=
  match priority with
  | None => true
  | Some p => (p <? 1)%Z
  end.

(** One turn of the [for] loop over the data lines: the item pushed to
    [parsed] and the new content of [seenSkus]. *)
Definition parseRow (headers : list string) (i : nat) (line : string)
    (seenSkus : gset string) : CsvMSLItem * gset string :=
  let categoryIndex := Js.indexOf "CATEGORY" headers in
  let skuIndex := Js.indexOf "SKU_CODE" headers in
  let nameIndex := Js.indexOf "PRODUCT_NAME" headers in
  let priorityIndex := Js.indexOf "PRIORITY" headers in
  let notesIndex := Js.indexOf "NOTES" headers in
  let values := rowValues line in
  let category := Js.orEmpty (Js.at_ values categoryIndex) in
  let sku := Js.orEmpty (Js.at_ values skuIndex) in
  let name := Js.orEmpty (Js.at_ values nameIndex) in
  let priorityStr := Js.orEmpty (Js.at_ values priorityIndex) in
  let notes :=
    if (0 <=? notesIndex)%Z then Js.orEmpty (Js.at_ values notesIndex)
    else EmptyString in
  let '(isValid, error, seenSkus') :=
    if Js.falsy category || Js.falsy sku || Js.falsy name || Js.falsy priorityStr
    then (false,
          rowLabel i +:+
            ": Missing required fields (CATEGORY, SKU_CODE, PRODUCT_NAME, PRIORITY)",
          seenSkus)
    else if bool_decide (dupKey category sku ∈ seenSkus)
    then (false, rowLabel i +:+ ": Duplicate SKU in same category", seenSkus)
    else (true, EmptyString, {[dupKey category sku]} ∪ seenSkus) in
  let priority := Js.parseInt priorityStr in
  let '(isValid, error) :=
    if isValid && badPriority priority
    then (false, rowLabel i +:+ ": Invalid priority (must be positive integer)")
    else (isValid, error) in
  (mkCsvMSLItem category sku name priority notes isValid error, seenSkus').

(** [for (let i = 1; i < lines.length; i++)], on the lines from index [i]. *)
Fixpoint parseRows (headers : list string) (i : nat) (rest : list string)
    (seenSkus : gset string) : list CsvMSLItem :=
  match rest with
  | [] => []
  | line :: rest' =>
      let '(item, seenSkus') := parseRow headers i line seenSkus in
      item :: parseRows headers (S i) rest' seenSkus'
  end.

(** [parseCsv], from the text of the chosen file. *)
Definition parseCsv (text : string) : ParseOutcome :=
  let lines := Js.split Js.LF (Js.trim text) in
  if (length lines <? 2)%nat then AlertNoDataRow
  else
    let headers :=
      map (fun h => Js.toUpperCase (Js.trim h)) (Js.split Js.COMMA (hd EmptyString lines)) in
    let missingHeaders :=
      List.filter (fun header => negb (Js.includes header headers)) requiredHeaders in
    if (0 <? length missingHeaders)%nat then AlertMissingColumns missingHeaders
    else Preview (parseRows headers 1 (tl lines) ∅).

(** [parsedItems.filter(item => item.isValid)] *)
Definition validItems (parsedItems : list CsvMSLItem) : list CsvMSLItem :=
  List.filter isValid parsedItems.

(** The two counters of the preview. *)
Definition validCount (parsedItems : list CsvMSLItem) : nat :=
  length (List.filter isValid parsedItems).
Definition invalidCount (parsedItems : list CsvMSLItem) : nat :=
  length (List.filter (fun item => negb (isValid item)) parsedItems).

(** [interface CategorySummary] *)
Record CategorySummary := mkCategorySummary {
  cs_category : string;
  cs_count : nat;
  cs_items : list CsvMSLItem
}.

(** [if (!categoryMap.has(item.category)) categoryMap.set(item.category, []);
    categoryMap.get(item.category)!.push(item)], on the entries of the
    [Map] in insertion order. *)
Fixpoint pushItem (item : CsvMSLItem) (categoryMap : list (string * list CsvMSLItem))
    : list (string * list CsvMSLItem) :=
  match categoryMap with
  | [] => [(category item, [item])]
  | (c, items) :: rest =>
      if String.eqb c (category item) then (c, items ++ [item]) :: rest
      else (c, items) :: pushItem item rest
  end.

(** [a.priority - b.priority < 0]; a difference with [NaN] is [NaN]. *)
Definition sortsBefore (a b : CsvMSLItem) : bool :=
  match priority a, priority b with
  | Some x, Some y => (x <? y)%Z
  | _, _ => false
  end.

(** [items.sort((a, b) => a.priority - b.priority)].  [Array.prototype.sort]
    is stable and the items sorted here are valid ones, whose priorities
    are numbers: the result is the one of any stable sort, here insertion. *)
Fixpoint insertSorted (a : CsvMSLItem) (sorted : list CsvMSLItem) : list CsvMSLItem :=
  match sorted with
  | [] => [a]
  | b :: rest => if sortsBefore b a then b :: insertSorted a rest else a :: sorted
  end.

Definition sortByPriority (items : list CsvMSLItem) : list CsvMSLItem :=
  fold_right insertSorted [] items.

(** [categoryMap] after [validItems.forEach(...)]. *)
Definition categoryMap (validItems : list CsvMSLItem) : list (string * list CsvMSLItem) :=
  fold_left (fun m item => pushItem item m) validItems [].

(** [summary], the value given to [setCategorySummary]. *)
Definition categorySummary (parsed : list CsvMSLItem) : list CategorySummary :=
  map (fun entry => mkCategorySummary entry.1 (length entry.2) (sortByPriority entry.2))
    (categoryMap (validItems parsed)).

(** [result] of [uploadMSL], the value given to [setUploadResult]:
    [categorySummary.forEach(cat => { result[cat.category] = cat.count })],
    as the own keys of the object.  The assignment of a number to the key
    [__proto__] of an object literal goes to the inherited setter, which
    ignores it, and creates no key. *)
Definition uploadResult (summary : list CategorySummary) : gmap string nat :=
  fold_left
    (fun result cat =>
       if String.eqb (cs_category cat) "__proto__" then result
       else <[cs_category cat := cs_count cat]> result)
    summary ∅.

(** "Delete existing MSL items only for categories being updated":
    the first loop of [uploadMSL], with its [if (deleteError) throw]. *)
Definition deleteExisting (categoriesToUpdate : list string) : Supabase.Task unit :=
  Supabase.forOf categoriesToUpdate (fun category =>
    Supabase.bind (Supabase.deleteEqCategory category) (fun deleteError =>
      match deleteError with
      | Some e => Supabase.throw e
      | None => Supabase.ret tt
      end)).

(** [insertData] *)
Definition insertData (validItems : list CsvMSLItem) : list Supabase.MSLInsert :=
  map (fun item =>
         Supabase.mkMSLInsert (category item) (sku_code item) (product_name item)
           (priority item)
           (if Js.falsy (notes item) then None else Some (notes item)))
    validItems.

(** "Insert new MSL items", with its [if (insertError) throw]. *)
Definition insertNew (validItems : list CsvMSLItem) : Supabase.Task bool :=
  Supabase.bind (Supabase.insert (insertData validItems)) (fun insertError =>
    match insertError with
    | Some e => Supabase.throw e
    | None => Supabase.ret true
    end).

(** [categoriesToUpdate] *)
Definition categoriesToUpdate (validItems : list CsvMSLItem) : list string :=
  Js.uniq (map category validItems).

(** [uploadMSL]: [true] when [setUploadResult] is reached, [false] when
    the [catch] block raises its alert.  The button that starts it is
    disabled while there is no valid item. *)
Definition uploadMSL (parsedItems : list CsvMSLItem) : Supabase.Task bool :=
  let validItems := validItems parsedItems in
  Supabase.tryCatch
    (Supabase.bind (deleteExisting (categoriesToUpdate validItems))
       (fun _ => insertNew validItems))
    (fun _ => Supabase.ret false).

End MSLCsvUpload.

(** ** The MSL export ([MSLManagement.exportMSL]) *)

Module MSLManagement.

(** ["${s}"] inside a template literal. *)
Definition quoted (s : string) : string :=
  String Js.QUOTE (s +:+ String Js.QUOTE EmptyString).

(** One line of the export, the template literal with the fields
    [category], [sku_code], quoted [product_name], [priority] and quoted
    [notes || ''], separated by commas. *)
Definition exportLine (item : Supabase.MSLItem) : string :=
  Supabase.category item +:+ "," +:+ Supabase.sku_code item +:+ "," +:+
  quoted (Supabase.product_name item) +:+ "," +:+
  Js.showZ (Supabase.priority item) +:+ "," +:+
  quoted (Js.orEmpty (Supabase.notes item)).

(** [csvContent] of [exportMSL], the text of the downloaded file. *)
Definition exportMSL (mslItems : list Supabase.MSLItem) : string :=
  Js.join (String Js.LF EmptyString)
    ("CATEGORY,SKU_CODE,PRODUCT_NAME,PRIORITY,NOTES" :: map exportLine mslItems).

End MSLManagement.

(** ** The generic client of the product and store uploads

    [supabase.from(t).update(patch).eq(...)] and [supabase.from(t).insert(row)]
    send an object literal; the reply either carries [error: null], carries
    an error, or the promise is rejected and the surrounding [try] catches. *)

Module Rest.

(** A JavaScript number that may be [NaN] ([None]). *)
Definition Number := option Q.

Inductive Value :=
| VStr (s : string)
| VNum (n : Number)
| VBool (b : bool)
| VNull.

(** An object literal: its own keys and their values. *)
Abbreviation Payload := (gmap string Value).

Inductive Request :=
| Update (table : string) (patch : Payload) (eqs : list (string * Value))
| Insert (table : string) (row : Payload).

Inductive Reply :=
| Ok
| Error (e : string)
| Rejected (e : string).

Definition isOk (r : Reply) : bool :=
  match r with Ok => true | _ => false end.

(** [{ added, updated, failed }] *)
Record UploadResult := mkUploadResult {
  added : nat;
  updated : nat;
  failed : nat
}.

Inductive Action := INSERT | UPDATE.

(** [!x] for [x : string | undefined]. *)
Definition falsy (o : option string) : bool :=
  match o with
  | Some (String _ _) => false
  | _ => true
  end.

(** [x || null] for a string. *)
Definition orNull (s : string) : Value :=
  if Js.falsy s then VNull else VStr s.

End Rest.

(** ** The product CSV upload ([ProductCsvUpload]) *)

Module ProductCsvUpload.
Import Rest.

Record CsvProduct := mkCsvProduct {
  sku_code : string;
  product_name : string;
  brand : string;
  category : string;
  price : Number;
  discount : Number;
  isValid : bool;
  error : string;
  action : option Action
}.

Definition requiredHeaders : list string :=
  ["SKU_CODE"; "PRODUCT_NAME"; "BRAND"; "CATEGORY"; "PRICE"].

Inductive ParseOutcome :=
| AlertNoDataRow
| AlertMissingColumns (missingHeaders : list string)
| Preview (parsed : list CsvProduct).

Definition alertText (o : ParseOutcome) : option string :=
  match o with
  | AlertNoDataRow =>
      Some "CSV file must have at least a header row and one data row"
  | AlertMissingColumns missingHeaders =>
      Some ("Missing required columns: " +:+ Js.join ", " missingHeaders)
  | Preview _ => None
  end.

(** [lines[i].split(',').map(v => v.trim())] *)
Definition rowValues (line : string) : list string :=
  map Js.trim (Js.split Js.COMMA line).

Definition rowLabel (i : nat) : string := "Row " +:+ Js.showN (N.of_nat (i + 1)).

Section Parse.

(** The global [parseFloat], [None] for [NaN]. *)
Variable parseFloat : string -> Number.

(** [parseFloat(x)] for [x : string | undefined]. *)
Definition parseFloatU (o : option string) : Number :=
  match o with
  | Some s => parseFloat s
  | None => None
  end.

(** [n || 0] for a number: [NaN] and [0] are falsy. *)
Definition orZero (n : Number) : Number :=
  match n with
  | None => Some 0%Q
  | Some q => if Qeq_bool q 0 then Some 0%Q else Some q
  end.

(** [isNaN(price) || price <= 0] *)
Definition badPrice (price : Number) : bool :=
  match price with
  | None => true
  | Some q => Qle_bool q 0
  end.

(** [isNaN(discount) || discount < 0 || discount > 100] *)
Definition badDiscount (discount : Number) : bool :=
  match discount with
  | None => true
  | Some q => negb (Qle_bool 0 q) || negb (Qle_bool q 100)
  end.

(** [set.has(x)] for [x : string | undefined] and a set of strings. *)
Definition has (set : gset string) (o : option string) : bool :=
  match o with
  | Some s => bool_decide (s ∈ set)
  | None => false
  end.

(** One turn of the loop.  A cell read as [undefined] is falsy like
    the empty string and is kept as [''] in the record. *)
Definition parseRow (headers : list string) (existingSkus : gset string)
    (i : nat) (line : string) (seenSkus : gset string)
    : CsvProduct * gset string :=
  let skuIndex := Js.indexOf "SKU_CODE" headers in
  let nameIndex := Js.indexOf "PRODUCT_NAME" headers in
  let brandIndex := Js.indexOf "BRAND" headers in
  let categoryIndex := Js.indexOf "CATEGORY" headers in
  let priceIndex := Js.indexOf "PRICE" headers in
  let discountIndex := Js.indexOf "DISCOUNT" headers in
  let values := rowValues line in
  if (length values <? length requiredHeaders)%nat
  then (mkCsvProduct
          (Js.orEmpty (Js.at_ values skuIndex))
          (Js.orEmpty (Js.at_ values nameIndex))
          (Js.orEmpty (Js.at_ values brandIndex))
          (Js.orEmpty (Js.at_ values categoryIndex))
          (Some 0%Q) (Some 0%Q) false
          (rowLabel i +:+ ": Insufficient columns") None,
        seenSkus)
  else
    let sku := Js.at_ values skuIndex in
    let name := Js.at_ values nameIndex in
    let brand := Js.at_ values brandIndex in
    let category := Js.at_ values categoryIndex in
    let priceStr := Js.at_ values priceIndex in
    let discountStr :=
      if (0 <=? discountIndex)%Z then Js.at_ values discountIndex else Some "0" in
    let '(isValid, error, seenSkus') :=
      if falsy sku || falsy name || falsy brand || falsy category || falsy priceStr
      then (false, rowLabel i +:+ ": Missing required fields", seenSkus)
      else if has seenSkus sku
      then (false, rowLabel i +:+ ": Duplicate SKU in file", seenSkus)
      else (true, EmptyString, {[Js.orEmpty sku]} ∪ seenSkus) in
    let price := parseFloatU priceStr in
    let discount := orZero (parseFloatU discountStr) in
    let '(isValid, error) :=
      if isValid && badPrice price
      then (false, rowLabel i +:+ ": Invalid price")
      else (isValid, error) in
    let '(isValid, error) :=
      if isValid && badDiscount discount
      then (false, rowLabel i +:+ ": Invalid discount (must be 0-100)")
      else (isValid, error) in
    (mkCsvProduct (Js.orEmpty sku) (Js.orEmpty name) (Js.orEmpty brand)
       (Js.orEmpty category) price discount isValid error
       (Some (if has existingSkus sku then UPDATE else INSERT)),
     seenSkus').

Fixpoint parseRows (headers : list string) (existingSkus : gset string)
    (i : nat) (rest : list string) (seenSkus : gset string) : list CsvProduct :=
  match rest with
  | [] => []
  | line :: rest' =>
      let '(item, seenSkus') := parseRow headers existingSkus i line seenSkus in
      item :: parseRows headers existingSkus (S i) rest' seenSkus'
  end.

(** [parseCsv]; [existingSkus] is the answer to
    [supabase.from('products').select('sku_code')]. *)
Definition parseCsv (existingSkus : gset string) (text : string) : ParseOutcome :=
  let lines := Js.split Js.LF (Js.trim text) in
  if (length lines <? 2)%nat then AlertNoDataRow
  else
    let headers :=
      map (fun h => Js.toUpperCase (Js.trim h))
        (Js.split Js.COMMA (hd EmptyString lines)) in
    let missingHeaders :=
      List.filter (fun header => negb (Js.includes header headers)) requiredHeaders in
    if (0 <? length missingHeaders)%nat then AlertMissingColumns missingHeaders
    else Preview (parseRows headers existingSkus 1 (tl lines) ∅).

End Parse.

Section Upload.

(** The store behind the client: any state, any behaviour. *)
Variable World : Type.
Variable send : Request -> World -> Reply * World.
(** [new Date().toISOString()] *)
Variable now : World -> string.

(** The object given to [update]. *)
Definition updatePatch (product : CsvProduct) (w : World) : Payload :=
  list_to_map
    [("product_name", VStr (product_name product));
     ("category", VStr (category product));
     ("unit_price", VNum (price product));
     ("updated_at", VStr (now w))].

(** The object given to [insert]. *)
Definition insertRow (product : CsvProduct) : Payload :=
  list_to_map
    [("sku_code", VStr (sku_code product));
     ("product_name", VStr (product_name product));
     ("category", VStr (category product));
     ("unit_price", VNum (price product));
     ("is_active", VBool true)].

(** The request of one turn of the loop. *)
Definition requestFor (product : CsvProduct) (w : World) : Request :=
  match action product with
  | Some UPDATE =>
      Update "products" (updatePatch product w)
        [("sku_code", VStr (sku_code product))]
  | _ => Insert "products" (insertRow product)
  end.

(** The body of [for (const product of validProducts)]: both the
    [if (error)] branch and the [catch] block run [failedCount++]. *)
Definition uploadStep (product : CsvProduct) (acc : UploadResult) (w : World)
    : UploadResult * World :=
  match action product with
  | Some UPDATE =>
      let '(reply, w') := send (requestFor product w) w in
      match reply with
      | Ok => (mkUploadResult (added acc) (S (updated acc)) (failed acc), w')
      | Error _ => (mkUploadResult (added acc) (updated acc) (S (failed acc)), w')
      | Rejected _ => (mkUploadResult (added acc) (updated acc) (S (failed acc)), w')
      end
  | _ =>
      let '(reply, w') := send (requestFor product w) w in
      match reply with
      | Ok => (mkUploadResult (S (added acc)) (updated acc) (failed acc), w')
      | Error _ => (mkUploadResult (added acc) (updated acc) (S (failed acc)), w')
      | Rejected _ => (mkUploadResult (added acc) (updated acc) (S (failed acc)), w')
      end
  end.

Fixpoint uploadLoop (validProducts : list CsvProduct) (acc : UploadResult)
    (w : World) : UploadResult * World :=
  match validProducts with
  | [] => (acc, w)
  | product :: rest =>
      let '(acc', w') := uploadStep product acc w in
      uploadLoop rest acc' w'
  end.

(** [uploadProducts]: the value given to [setUploadResult]. *)
Definition uploadProducts (parsedProducts : list CsvProduct) (w : World)
    : UploadResult * World :=
  let validProducts := List.filter isValid parsedProducts in
  uploadLoop validProducts (mkUploadResult 0 0 0) w.

End Upload.

End ProductCsvUpload.

(** ** The store CSV upload ([StoreCsvUpload]) *)

Module StoreCsvUpload.
Import Rest.

Record CsvStore := mkCsvStore {
  kode_toko : string;
  nama_toko : string;
  kategori : string;
  alamat : string;
  google_maps : string;
  route : string;
  telepon : string;
  avg_order_value : string;
  frekuensi_order : string;
  kontak_utama : string;
  catatan : string;
  isValid : bool;
  error : string;
  action : option Action
}.

Definition requiredHeaders : list string := ["KODE_TOKO"; "NAMA_TOKO"; "KATEGORI"].

Inductive ParseOutcome :=
| AlertNoDataRow
| AlertMissingColumns (missingHeaders : list string)
| Preview (parsed : list CsvStore).

Definition alertText (o : ParseOutcome) : option string :=
  match o with
  | AlertNoDataRow =>
      Some "CSV file must have at least a header row and one data row"
  | AlertMissingColumns missingHeaders =>
      Some ("Missing required columns: " +:+ Js.join ", " missingHeaders)
  | Preview _ => None
  end.

(** [lines[i].split(',').map(v => v.trim().replace(/^"|"$/g, ''))] *)
Definition rowValues (line : string) : list string :=
  map (fun v => Js.stripQuotes (Js.trim v)) (Js.split Js.COMMA line).

Definition rowLabel (i : nat) : string := "Row " +:+ Js.showN (N.of_nat (i + 1)).

Section Parse.

Variable parseFloat : string -> Number.

(** [isNaN(avgOrderNum) || avgOrderNum < 0] *)
Definition badAverage (n : Number) : bool :=
  match n with
  | None => true
  | Some q => negb (Qle_bool 0 q)
  end.

Definition parseRow (headers : list string) (existingCodes : gset string)
    (i : nat) (line : string) (seenCodes : gset string)
    : CsvStore * gset string :=
  let kodeIndex := Js.indexOf "KODE_TOKO" headers in
  let namaIndex := Js.indexOf "NAMA_TOKO" headers in
  let kategoriIndex := Js.indexOf "KATEGORI" headers in
  let alamatIndex := Js.indexOf "ALAMAT" headers in
  let gmapsIndex := Js.indexOf "GOOGLE_MAPS" headers in
  let routeIndex := Js.indexOf "ROUTE" headers in
  let teleponIndex := Js.indexOf "TELEPON" headers in
  let avgOrderIndex := Js.indexOf "AVG_ORDER_VALUE" headers in
  let frekuensiIndex := Js.indexOf "FREKUENSI_ORDER" headers in
  let kontakIndex := Js.indexOf "KONTAK_UTAMA" headers in
  let catatanIndex := Js.indexOf "CATATAN" headers in
  let values := rowValues line in
  let kode := Js.orEmpty (Js.at_ values kodeIndex) in
  let nama := Js.orEmpty (Js.at_ values namaIndex) in
  let kategori := Js.orEmpty (Js.at_ values kategoriIndex) in
  let alamat := Js.orEmpty (Js.at_ values alamatIndex) in
  let gmaps := Js.orEmpty (Js.at_ values gmapsIndex) in
  let route := Js.orElse (Js.at_ values routeIndex) "A" in
  let telepon := Js.orEmpty (Js.at_ values teleponIndex) in
  let avgOrder := Js.orElse (Js.at_ values avgOrderIndex) "0" in
  let frekuensi := Js.orEmpty (Js.at_ values frekuensiIndex) in
  let kontak := Js.orEmpty (Js.at_ values kontakIndex) in
  let catatan := Js.orEmpty (Js.at_ values catatanIndex) in
  let '(isValid, error, seenCodes') :=
    if Js.falsy kode || Js.falsy nama || Js.falsy kategori
    then (false,
          rowLabel i +:+ ": Missing required fields (KODE_TOKO, NAMA_TOKO, KATEGORI)",
          seenCodes)
    else if bool_decide (kode ∈ seenCodes)
    then (false, rowLabel i +:+ ": Duplicate store code in file", seenCodes)
    else (true, EmptyString, {[kode]} ∪ seenCodes) in
  let '(isValid, error) :=
    if isValid && negb (Js.falsy avgOrder) && negb (String.eqb avgOrder "0")
    then if badAverage (parseFloat avgOrder)
         then (false, rowLabel i +:+ ": Invalid average order value")
         else (isValid, error)
    else (isValid, error) in
  (mkCsvStore kode nama kategori alamat gmaps route telepon avgOrder frekuensi
     kontak catatan isValid error
     (Some (if bool_decide (kode ∈ existingCodes) then UPDATE else INSERT)),
   seenCodes').

Fixpoint parseRows (headers : list string) (existingCodes : gset string)
    (i : nat) (rest : list string) (seenCodes : gset string) : list CsvStore :=
  match rest with
  | [] => []
  | line :: rest' =>
      let '(item, seenCodes') := parseRow headers existingCodes i line seenCodes in
      item :: parseRows headers existingCodes (S i) rest' seenCodes'
  end.

(** [parseCsv]; [existingCodes] is the answer to
    [supabase.from('stores').select('store_code').eq('created_by', user.id)]. *)
Definition parseCsv (existingCodes : gset string) (text : string) : ParseOutcome :=
  let lines := Js.split Js.LF (Js.trim text) in
  if (length lines <? 2)%nat then AlertNoDataRow
  else
    let headers :=
      map (fun h => Js.toUpperCase (Js.trim h))
        (Js.split Js.COMMA (hd EmptyString lines)) in
    let missingHeaders :=
      List.filter (fun header => negb (Js.includes header headers)) requiredHeaders in
    if (0 <? length missingHeaders)%nat then AlertMissingColumns missingHeaders
    else Preview (parseRows headers existingCodes 1 (tl lines) ∅).

Section Upload.

Variable World : Type.
Variable send : Request -> World -> Reply * World.
(** [user.id] *)
Variable userId : string.

(** The fields of [storeData]. *)
Definition sd_address (store : CsvStore) : Value :=
  VStr (if Js.falsy (alamat store) then EmptyString else alamat store).
Definition sd_route (store : CsvStore) : Value :=
  VStr (if Js.falsy (route store) then "A" else route store).
Definition sd_average_order_value (store : CsvStore) : Value :=
  VNum (if Js.falsy (avg_order_value store) then Some 0%Q
        else parseFloat (avg_order_value store)).

(** [storeData], the object given to [insert]. *)
Definition storeData (store : CsvStore) : Payload :=
  list_to_map
    [("store_code", VStr (kode_toko store));
     ("store_name", VStr (nama_toko store));
     ("category", VStr (kategori store));
     ("address", sd_address store);
     ("gmaps_link", orNull (google_maps store));
     ("route", sd_route store);
     ("phone", orNull (telepon store));
     ("average_order_value", sd_average_order_value store);
     ("order_frequency", orNull (frekuensi_order store));
     ("key_contact", orNull (kontak_utama store));
     ("notes", orNull (catatan store));
     ("created_by", VStr userId)].

(** The object given to [update], field by field from [storeData]. *)
Definition updatePatch (store : CsvStore) : Payload :=
  list_to_map
    [("store_name", VStr (nama_toko store));
     ("category", VStr (kategori store));
     ("address", sd_address store);
     ("gmaps_link", orNull (google_maps store));
     ("route", sd_route store);
     ("phone", orNull (telepon store));
     ("average_order_value", sd_average_order_value store);
     ("order_frequency", orNull (frekuensi_order store));
     ("key_contact", orNull (kontak_utama store));
     ("notes", orNull (catatan store))].

Definition requestFor (store : CsvStore) : Request :=
  match action store with
  | Some UPDATE =>
      Update "stores" (updatePatch store)
        [("store_code", VStr (kode_toko store)); ("created_by", VStr userId)]
  | _ => Insert "stores" (storeData store)
  end.

Definition uploadStep (store : CsvStore) (acc : UploadResult) (w : World)
    : UploadResult * World :=
  match action store with
  | Some UPDATE =>
      let '(reply, w') := send (requestFor store) w in
      match reply with
      | Ok => (mkUploadResult (added acc) (S (updated acc)) (failed acc), w')
      | Error _ => (mkUploadResult (added acc) (updated acc) (S (failed acc)), w')
      | Rejected _ => (mkUploadResult (added acc) (updated acc) (S (failed acc)), w')
      end
  | _ =>
      let '(reply, w') := send (requestFor store) w in
      match reply with
      | Ok => (mkUploadResult (S (added acc)) (updated acc) (failed acc), w')
      | Error _ => (mkUploadResult (added acc) (updated acc) (S (failed acc)), w')
      | Rejected _ => (mkUploadResult (added acc) (updated acc) (S (failed acc)), w')
      end
  end.

Fixpoint uploadLoop (validStores : list CsvStore) (acc : UploadResult)
    (w : World) : UploadResult * World :=
  match validStores with
  | [] => (acc, w)
  | store :: rest =>
      let '(acc', w') := uploadStep store acc w in
      uploadLoop rest acc' w'
  end.

(** [uploadStores]: the value given to [setUploadResult]. *)
Definition uploadStores (parsedStores : list CsvStore) (w : World)
    : UploadResult * World :=
  let validStores := List.filter isValid parsedStores in
  uploadLoop validStores (mkUploadResult 0 0 0) w.

End Upload.

End Parse.

End StoreCsvUpload.

(** ** The MSL achievement of [Overview] and [DailyRecap] *)

Module Achievement.

(** The arithmetic of JavaScript numbers used by the computation. *)
Class Arith (num : Type) := {
  zero : num;
  ofNat : nat -> num;
  add : num -> num -> num;
  mul : num -> num -> num;
  div : num -> num -> num
}.

(** Exact rational arithmetic, for what is stated of exact arithmetic; the
    engine computes in [F64_Arith] below. *)
#[global] Instance Q_Arith : Arith Q := {|
  zero := 0%Q;
  ofNat n := inject_Z (Z.of_nat n);
  add := Qplus;
  mul := Qmult;
  div := Qdiv
|}.

(** A store of the period: its category and the [sku_code] of every
    order line fetched for it. *)
Record StoreFacts := mkStoreFacts {
  category : string;
  orderSkus : list string
}.

(** [(mslData || []).reduce((acc, item) => { if (!acc[item.category])
    acc[item.category] = new Set(); acc[item.category].add(item.sku_code);
    return acc }, {})], on the pairs [(category, sku_code)]. *)
Definition mslByCategory (mslData : list (string * string))
    : gmap string (gset string) :=
  fold_left
    (fun acc item =>
       let acc1 :=
         match acc !! item.1 with
         | None => <[item.1 := ∅]> acc
         | Some _ => acc
         end in
       <[item.1 := {[item.2]} ∪ default ∅ (acc1 !! item.1)]> acc1)
    mslData ∅.

(** [boughtSkus]: a [Set] that receives every truthy [sku_code]. *)
Definition boughtSkus (skus : list string) : gset string :=
  fold_left (fun acc sku => if Js.falsy sku then acc else {[sku]} ∪ acc) skus ∅.

(** [Array.from(boughtSkus).filter(sku => categoryMSL.has(sku)).length] *)
Definition mslSkusBought (bought categoryMSL : gset string) : nat :=
  length (List.filter (fun sku => bool_decide (sku ∈ categoryMSL)) (elements bought)).

Section Loop.

Context {num : Type} `{Arith num}.

(** [(mslSkusBought / categoryMSL.size) * 100] *)
Definition storeAchievement (bought categoryMSL : gset string) : num :=
  mul (div (ofNat (mslSkusBought bought categoryMSL)) (ofNat (size categoryMSL)))
    (ofNat 100).

End Loop.

(** [Number(undefined)], the [NaN] of the arithmetic. *)
Class NotANumber (num : Type) := nan : num.

(** The numbers of the engine: IEEE 754 binary64, [ofNat] being exact
    on the counts of a run. *)
#[global] Instance F64_Arith : Arith PrimFloat.float := {|
  zero := PrimFloat.zero;
  ofNat n := PrimFloat.of_uint63 (Uint63.of_Z (Z.of_nat n));
  add := PrimFloat.add;
  mul := PrimFloat.mul;
  div := PrimFloat.div
|}.

#[global] Instance F64_NotANumber : NotANumber PrimFloat.float := PrimFloat.nan.

(** What [mslByCategory[category]] gives on the object literal: the set
    under an own key, else one of the values every object inherits, else
    [undefined]. *)
Inductive Slot :=
| Own (categoryMSL : gset string)
| Inherited
| Undefined.

Definition categorySlot (msl : gmap string (gset string)) (category : string) : Slot :=
  match msl !! category with
  | Some categoryMSL => Own categoryMSL
  | None => if bool_decide (category ∈ Js.inheritedKeys) then Inherited else Undefined
  end.

(** How the computation of a page ends: [mslAchievement] is computed, or
    an exception reaches the [catch] block, which shows 0 for every
    figure of the page. *)
Inductive Outcome (num : Type) :=
| Computed (mslAchievement : num)
| Caught.
Global Arguments Computed {num} mslAchievement.
Global Arguments Caught {num}.

Section Fetch.

Context {num : Type} {A : Arith num} {N : NotANumber num}.

(** [(mslSkusBought / categoryMSL.size) * 100] for an inherited value and
    no bought SKU: the filter of the empty array calls nothing and gives
    length 0, and [categoryMSL.size] is [undefined]. *)
Definition inheritedAchievement : num := mul (div (ofNat 0) nan) (ofNat 100).

(** One turn of the loop over the stores, on
    [(totalAchievement, storeCount)].  The guard
    [if (!categoryMSL || categoryMSL.size === 0) continue] skips
    [undefined] and the empty set; an inherited value is truthy and its
    [size] is not 0.  [None]: [categoryMSL.has] is called on an inherited
    value and throws a [TypeError]. *)
Definition storeStep (msl : gmap string (gset string)) (acc : num * nat)
    (store : StoreFacts) : option (num * nat) :=
  match categorySlot msl (category store) with
  | Undefined => Some acc
  | Own categoryMSL =>
      if (size categoryMSL =? 0)%nat then Some acc
      else Some (add acc.1 (storeAchievement (boughtSkus (orderSkus store)) categoryMSL),
                 S acc.2)
  | Inherited =>
      match elements (boughtSkus (orderSkus store)) with
      | [] => Some (add acc.1 inheritedAchievement, S acc.2)
      | _ :: _ => None
      end
  end.

(** The loop, until its end or until a turn throws. *)
Fixpoint loop (msl : gmap string (gset string)) (stores : list StoreFacts)
    (acc : num * nat) : option (num * nat) :=
  match stores with
  | [] => Some acc
  | store :: rest =>
      match storeStep msl acc store with
      | Some acc' => loop msl rest acc'
      | None => None
      end
  end.

Definition loopResult (msl : gmap string (gset string)) (stores : list StoreFacts)
    : option (num * nat) :=
  loop msl stores (zero, 0%nat).

(** [storeCount > 0 ? totalAchievement / storeCount : 0] *)
Definition average (acc : num * nat) : num :=
  if (0 <? acc.2)%nat then div acc.1 (ofNat acc.2) else zero.

Definition finish (r : option (num * nat)) : Outcome num :=
  match r with
  | Some acc => Computed (average acc)
  | None => Caught
  end.

(** [mslAchievement] of [Overview.fetchDashboardStats]; [storesData]
    carries, for each store, the answer to its order query. *)
Definition fetchDashboardStats (msl : gmap string (gset string))
    (storesData : list StoreFacts) : Outcome num :=
  if (0 <? size msl)%nat
  then if (0 <? length storesData)%nat
       then finish (loopResult msl storesData)
       else Computed zero
  else Computed zero.

End Fetch.

(** A processed visit of [DailyRecap]: the store it belongs to and the
    [sku_code] of its order items. *)
Record Visit := mkVisit {
  store_name : string;
  store_code : string;
  store_category : string;
  order_items : list string
}.

(** [acc[key].orderItems.push(...visit.order_items)] on the entries of
    [storeVisits], kept in insertion order. *)
Fixpoint pushItems (key : string) (visit : Visit)
    (entries : list (string * StoreFacts)) : list (string * StoreFacts) :=
  match entries with
  | [] => [(key, mkStoreFacts (store_category visit) (order_items visit))]
  | (k, d) :: rest =>
      if String.eqb k key
      then (k, mkStoreFacts (category d) (orderSkus d ++ order_items visit)) :: rest
      else (k, d) :: pushItems key visit rest
  end.

(** [visits.reduce(...)]: group the visits by [`${store_name}-${store_code}`]. *)
Definition storeVisits (visits : list Visit) : list (string * StoreFacts) :=
  fold_left
    (fun acc visit => pushItems (store_name visit +:+ "-" +:+ store_code visit) visit acc)
    visits [].

(** [mslAchievement] of [DailyRecap.fetchDailyData]. *)
Definition fetchDailyData {num : Type} {A : Arith num} {N : NotANumber num}
    (msl : gmap string (gset string)) (visits : list Visit) : Outcome num :=
  if (0 <? size msl)%nat && (0 <? length visits)%nat
  then finish (loopResult msl (map snd (storeVisits visits)))
  else Computed zero.

End Achievement.

(** ** A table behind the generic client

    The effect of a request that the store accepts, on a table whose rows
    are objects: [update(patch).eq(k, v)...] overwrites the columns of
    [patch] in every row that passes all the filters and keeps the other
    columns; [insert(row)] adds the row as sent. *)

Module Table.
Import Rest.

Definition valueEqb (a b : Value) : bool :=
  match a, b with
  | VStr x, VStr y => String.eqb x y
  | VNum (Some x), VNum (Some y) => Qeq_bool x y
  | VBool x, VBool y => Bool.eqb x y
  | _, _ => false
  end.

(** [.eq(k, v)] on a row; [NULL] and [NaN] never compare equal. *)
Definition passes (eqs : list (string * Value)) (row : Payload) : bool :=
  forallb (fun kv => match row !! kv.1 with
                     | Some v => valueEqb v kv.2
                     | None => false
                     end) eqs.

Definition apply (q : Request) (table : list Payload) : list Payload :=
  match q with
  | Update _ patch eqs =>
      map (fun row => if passes eqs row then patch ∪ row else row) table
  | Insert _ row => table ++ [row]
  end.

(** A store that holds one table and answers the requests in turn: a
    request whose flag in the fault schedule is set is refused and changes
    nothing, any other is applied. *)
Record World := mkWorld {
  rows : list Payload;
  faults : list bool
}.

Definition send (q : Request) (w : World) : Reply * World :=
  match faults w with
  | true :: fs => (Error "request failed", mkWorld (rows w) fs)
  | false :: fs => (Ok, mkWorld (apply q (rows w)) fs)
  | [] => (Ok, mkWorld (apply q (rows w)) [])
  end.

End Table.

(** ** Reordering by drag and drop ([MSLManagement.handleDrop]) *)

Module MSLDragDrop.
Import Rest.

(** [interface MSLItem] of the component. *)
Record MSLItem := mkMSLItem {
  id : string;
  category : string;
  sku_code : string;
  product_name : string;
  priority : Z;
  notes : option string
}.

(** How [handleDrop] ends: the guard returned at once, [fetchMSLData] was
    reached, or the [catch] block logged the error. *)
Inductive DropOutcome := Ignored | Refreshed | Failed.

(** [{ priority: p }] *)
Definition priorityPatch (p : Z) : Payload :=
  {[ "priority" := VNum (Some (inject_Z p)) ]}.

Section Drop.

Variable World : Type.
Variable send : Request -> World -> Reply * World.

(** [handleDrop]; [draggedItem] is the state set by [handleDragStart]. *)
Definition handleDrop (draggedItem : option MSLItem) (targetItem : MSLItem) (w : World)
    : DropOutcome * World :=
  match draggedItem with
  | None => (Ignored, w)
  | Some dragged =>
      if String.eqb (id dragged) (id targetItem)
         || negb (String.eqb (category dragged) (category targetItem))
      then (Ignored, w)
      else
        let '(reply, w1) :=
          send (Update "msl_items" (priorityPatch (priority targetItem))
                  [("id", VStr (id dragged))]) w in
        match reply with
        | Ok =>
            let '(reply2, w2) :=
              send (Update "msl_items" (priorityPatch (priority dragged))
                      [("id", VStr (id targetItem))]) w1 in
            match reply2 with
            | Ok => (Refreshed, w2)
            | _ => (Failed, w2)
            end
        | _ => (Failed, w1)
        end
  end.

End Drop.

End MSLDragDrop.

(** ** The counts per category ([MSLManagement.fetchCategoryStats]) *)

Module CategoryStats.

(** [interface CategoryStats] *)
Record CategoryStats := mkCategoryStats {
  category : string;
  itemCount : nat;
  storeCount : nat
}.

(** [rows.reduce((acc, row) => { acc[row.category] = (acc[row.category] || 0) + 1;
    return acc }, {})], on the categories of the rows. *)
Definition countBy (categories : list string) : gmap string nat :=
  fold_left (fun acc c => <[c := S (default 0%nat (acc !! c))]> acc) categories ∅.

Section Stats.

(** [Object.keys]: the own keys of an object, in the order of the engine. *)
Variable keys : gmap string nat -> list string.

(** [stats] of [fetchCategoryStats], the value given to
    [setCategoryStats]; the two arguments are the [category] columns of
    [msl_items] and of [stores]. *)
Definition fetchCategoryStats (mslData storeData : list string)
    : list CategoryStats :=
  let mslCounts := countBy mslData in
  let storeCounts := countBy storeData in
  let allCategories := Js.uniq (keys mslCounts ++ keys storeCounts) in
  map (fun category =>
         mkCategoryStats category
           (default 0%nat (mslCounts !! category))
           (default 0%nat (storeCounts !! category)))
    allCategories.

End Stats.

(** [getCategoryStats]: [categoryStats.find(stat => stat.category === category)]. *)
Definition getCategoryStats (categoryStats : list CategoryStats) (c : string)
    : option CategoryStats :=
  List.find (fun stat => String.eqb (category stat) c) categoryStats.

End CategoryStats.

(** ** The pasted product list ([ProductImport.tsx]) *)

Module ProductImport.
Import Rest.

(** [interface ParsedProduct]; [error] is absent on a valid product. *)
Record ParsedProduct := mkParsedProduct {
  sku_code : string;
  product_name : string;
  category : string;
  unit_price : Number;
  isValid : bool;
  error : option string
}.


(** [productText.trim().split('\n').filter(line => line.trim())] *)
Definition lines (productText : string) : list string :=
  List.filter (fun line => negb (Js.falsy (Js.trim line)))
    (Js.split Js.LF (Js.trim productText)).

Section Parse.

Variable parseFloat : string -> Number.

(** [isNaN(price) || price <= 0] *)
Definition badPrice (price : Number) : bool :=
  match price with
  | None => true
  | Some q => Qle_bool q 0
  end.



End Parse.

Section Commit.

Variable World : Type.
Variable send : Request -> World -> Reply * World.

(** The object given to [insert]. *)
Definition insertRow (product : ParsedProduct) : Payload :=
  list_to_map
    [("sku_code", VStr (sku_code product));
     ("product_name", VStr (product_name product));
     ("category", VStr (category product));
     ("unit_price", VNum (unit_price product));
     ("is_active", VBool true)].

(** The body of [for (const product of validProducts)] on
    [(successCount, failedCount)]: the [if (error)] branch and the [catch]
    block both run [failedCount++]. *)
Definition importStep (product : ParsedProduct) (acc : nat * nat) (w : World)
    : (nat * nat) * World :=
  let '(reply, w') := send (Insert "products" (insertRow product)) w in
  match reply with
  | Ok => ((S acc.1, acc.2), w')
  | Error _ => ((acc.1, S acc.2), w')
  | Rejected _ => ((acc.1, S acc.2), w')
  end.

Fixpoint importLoop (validProducts : list ParsedProduct) (acc : nat * nat)
    (w : World) : (nat * nat) * World :=
  match validProducts with
  | [] => (acc, w)
  | product :: rest =>
      let '(acc', w') := importStep product acc w in
      importLoop rest acc' w'
  end.

(** [importProducts]: the [(success, failed)] given to [setImportResult]. *)
Definition importProducts (parsedProducts : list ParsedProduct) (w : World)
    : (nat * nat) * World :=
  importLoop (List.filter isValid parsedProducts) (0%nat, 0%nat) w.

End Commit.

End ProductImport.

(** ** Vocabulary of the statements *)

Module Spec.

(** A category without MSL: no entry, or an entry that is the empty set. *)
Definition noMSL (msl : gmap string (gset string)) (category : string) : Prop :=
  msl !! category = None \/ msl !! category = Some ∅.

Definition excluded (msl : gmap string (gset string))
    (store : Achievement.StoreFacts) : Prop :=
  noMSL msl (Achievement.category store).

(** The stores that take part in the aggregate, as a boolean test. *)
Definition included (msl : gmap string (gset string))
    (store : Achievement.StoreFacts) : bool :=
  match msl !! Achievement.category store with
  | Some categoryMSL => negb (size categoryMSL =? 0)%nat
  | None => false
  end.

(** A category that [mslByCategory] answers with an own set or with
    [undefined]: not an inherited name without an own entry. *)
Definition plainCategory (msl : gmap string (gset string)) (category : string) : bool :=
  match Achievement.categorySlot msl category with
  | Achievement.Inherited => false
  | _ => true
  end.

Definition plainStore (msl : gmap string (gset string))
    (store : Achievement.StoreFacts) : bool :=
  plainCategory msl (Achievement.category store).

(** The percentage of a store against the MSL of its own category, in
    the arithmetic of the numbers. *)
Definition storeValue {num : Type} `{Achievement.Arith num}
    (msl : gmap string (gset string)) (store : Achievement.StoreFacts) : num :=
  Achievement.storeAchievement (Achievement.boughtSkus (Achievement.orderSkus store))
    (default ∅ (msl !! Achievement.category store)).

(** The unweighted arithmetic mean in the arithmetic of the numbers: the
    values added in their order, divided by their count; 0 for no value. *)
Definition meanIn {num : Type} `{Achievement.Arith num} (values : list num) : num :=
  match values with
  | [] => Achievement.zero
  | _ =>
      Achievement.div (fold_left Achievement.add values Achievement.zero)
        (Achievement.ofNat (length values))
  end.

(** [|boughtSkus ∩ categoryMSL| / |categoryMSL| × 100] *)
Definition percentage (bought categoryMSL : gset string) : Q :=
  (inject_Z (Z.of_nat (size (bought ∩ categoryMSL)))
     / inject_Z (Z.of_nat (size categoryMSL)) * 100)%Q.

(** The stored MSL items of one category, in table order. *)
Definition itemsOf (category : string) (table : list Supabase.MSLItem)
    : list Supabase.MSLItem :=
  List.filter (fun r => String.eqb (Supabase.category r) category) table.

(** The stored MSL items outside a list of categories. *)
Definition itemsOutside (categories : list string) (table : list Supabase.MSLItem)
    : list Supabase.MSLItem :=
  List.filter (fun r => negb (Js.includes (Supabase.category r) categories)) table.

(** What a run may do to the store when it only touches [categories]:
    the items of every other category stay, and the requests it adds to
    the log delete only inside [categories]. *)
Definition touchesOnly (categories : list string) (w w' : Supabase.World) : Prop :=
  (forall c, c ∉ categories ->
     itemsOf c (Supabase.msl_items w') = itemsOf c (Supabase.msl_items w)) /\
  exists issued,
    Supabase.log w' = Supabase.log w ++ issued /\
    forall c, Supabase.DeleteEqCategory c ∈ issued -> c ∈ categories.

(** The table a commit of [validItems] leaves when no request fails for
    an outside reason: the items outside the touched categories, then
    the new rows if the table accepts them. *)
Definition committed (validItems : list MSLCsvUpload.CsvMSLItem)
    (table : list Supabase.MSLItem) : list Supabase.MSLItem :=
  let base := itemsOutside (MSLCsvUpload.categoriesToUpdate validItems) table in
  match Supabase.acceptAll (MSLCsvUpload.insertData validItems) with
  | Some new => if Supabase.uniqueWith base new then base ++ new else base
  | None => base
  end.

(** The exchanges of a run that sends the request of each row in turn,
    whatever the replies, and the store it ends in. *)
Fixpoint exchanges {Row World : Type} (request : Row -> World -> Rest.Request)
    (send : Rest.Request -> World -> Rest.Reply * World)
    (rows : list Row) (w : World)
    : list (Row * Rest.Request * Rest.Reply) * World :=
  match rows with
  | [] => ([], w)
  | row :: rest =>
      let q := request row w in
      let '(reply, w') := send q w in
      let '(more, w'') := exchanges request send rest w' in
      ((row, q, reply) :: more, w'')
  end.

Definition count {A} (f : A -> bool) (l : list A) : nat := length (List.filter f l).

(** The counters that a list of exchanges amounts to: a successful
    insert is added, a successful update is updated, anything else failed. *)
Definition tally {Row} (isUpdate : Row -> bool)
    (l : list (Row * Rest.Request * Rest.Reply)) : Rest.UploadResult :=
  Rest.mkUploadResult
    (count (fun e => negb (isUpdate e.1.1) && Rest.isOk e.2) l)
    (count (fun e => isUpdate e.1.1 && Rest.isOk e.2) l)
    (count (fun e => negb (Rest.isOk e.2)) l).

Definition isUpdate (action : option Rest.Action) : bool :=
  match action with
  | Some Rest.UPDATE => true
  | _ => false
  end.

(** The shape of the request that belongs to a row with key [key] in
    column [keyColumn]. *)
Definition requestShape (table keyColumn key : string) (update : bool)
    (q : Rest.Request) : bool :=
  match q with
  | Rest.Update t _ eqs =>
      update && String.eqb t table &&
      match eqs with
      | (k, Rest.VStr v) :: _ => String.eqb k keyColumn && String.eqb v key
      | _ => false
      end
  | Rest.Insert t row =>
      negb update && String.eqb t table &&
      match row !! keyColumn with
      | Some (Rest.VStr v) => String.eqb v key
      | _ => false
      end
  end.

(** Two product rows that agree on everything but BRAND and DISCOUNT. *)
Definition sameButBrandDiscount (a b : ProductCsvUpload.CsvProduct) : Prop :=
  ProductCsvUpload.sku_code a = ProductCsvUpload.sku_code b /\
  ProductCsvUpload.product_name a = ProductCsvUpload.product_name b /\
  ProductCsvUpload.category a = ProductCsvUpload.category b /\
  ProductCsvUpload.price a = ProductCsvUpload.price b /\
  ProductCsvUpload.isValid a = ProductCsvUpload.isValid b /\
  ProductCsvUpload.error a = ProductCsvUpload.error b /\
  ProductCsvUpload.action a = ProductCsvUpload.action b.

(** Counters added field by field. *)
Definition addCounts (a b : Rest.UploadResult) : Rest.UploadResult :=
  Rest.mkUploadResult (Rest.added a + Rest.added b) (Rest.updated a + Rest.updated b)
    (Rest.failed a + Rest.failed b).

(** The payload of a request. *)
Definition payload (q : Rest.Request) : Rest.Payload :=
  match q with
  | Rest.Update _ patch _ => patch
  | Rest.Insert _ row => row
  end.

(** [true] when [c] occurs in [s]. *)
Fixpoint hasChar (c : ascii) (s : string) : bool :=
  match s with
  | EmptyString => false
  | String d s' => Ascii.eqb d c || hasChar c s'
  end.

(** [true] when [s] is made of white space only. *)
Fixpoint allSpace (s : string) : bool :=
  match s with
  | EmptyString => true
  | String c s' => Ascii.is_space c && allSpace s'
  end.

Definition startsWith (p : ascii -> bool) (s : string) : bool :=
  match s with
  | EmptyString => false
  | String c _ => p c
  end.

Fixpoint endsWith (p : ascii -> bool) (s : string) : bool :=
  match s with
  | EmptyString => false
  | String c EmptyString => p c
  | String _ s' => endsWith p s'
  end.

Definition isQuote (c : ascii) : bool := Ascii.eqb c Js.QUOTE.

(** Text of code units below 128: the texts on which the strings of
    this development and their operations are those of the engine. *)
Definition asciiChar (c : ascii) : bool := (N_of_ascii c <? 128)%N.

Fixpoint asciiText (s : string) : bool :=
  match s with
  | EmptyString => true
  | String c s' => asciiChar c && asciiText s'
  end.

(** A number that the engine holds exactly: [NaN], or an integer of
    absolute value at most 2^53. *)
Definition safeInteger (n : option Z) : bool :=
  match n with
  | Some z => (Z.abs z <=? 9007199254740992)%Z
  | None => true
  end.

(** A line that holds something else than white space. *)
Definition nonBlank (line : string) : bool := negb (Js.falsy (Js.trim line)).

(** The non-empty lines of a text. *)
Definition nonEmptyLines (text : string) : list string :=
  List.filter nonBlank (Js.split Js.LF text).

(** The header line, the first line of the trimmed text, split on commas
    with each name trimmed and put in upper case. *)
Definition headerColumns (text : string) : list string :=
  map (fun h => Js.toUpperCase (Js.trim h))
    (Js.split Js.COMMA (hd EmptyString (Js.split Js.LF (Js.trim text)))).

(** [required − headers], in the order of [required]. *)
Definition missingColumns (required headers : list string) : list string :=
  List.filter (fun c => bool_decide (c ∉ headers)) required.

(** "A single pair of enclosing double quotes, if present, is stripped":
    both quotes go when the value starts and ends with one, nothing
    changes otherwise. *)
Definition stripPair (s : string) : string :=
  match s with
  | String c s' =>
      if isQuote c && endsWith isQuote s' then Js.dropTrailingQuote s' else s
  | EmptyString => EmptyString
  end.

(** The cells of a data line as the specification words them. *)
Definition claimedCells (line : string) : list string :=
  map (fun v => stripPair (Js.trim v)) (Js.split Js.COMMA line).

(** The value read back from a cell of an MSL or store file. *)
Definition cell (s : string) : string := Js.stripQuotes (Js.trim s).

(** A stored item that the export writes as a line of five cells which
    the parser accepts: no comma in the first three fields, no line feed
    anywhere, category and SKU not emptied by the cell decoding, a name,
    and a priority of at least 1. *)
Definition exportable (item : Supabase.MSLItem) : bool :=
  negb (hasChar Js.COMMA (Supabase.category item)) &&
  negb (hasChar Js.COMMA (Supabase.sku_code item)) &&
  negb (hasChar Js.COMMA (Supabase.product_name item)) &&
  negb (hasChar Js.LF (Supabase.category item)) &&
  negb (hasChar Js.LF (Supabase.sku_code item)) &&
  negb (hasChar Js.LF (Supabase.product_name item)) &&
  negb (hasChar Js.LF (Js.orEmpty (Supabase.notes item))) &&
  negb (Js.falsy (cell (Supabase.category item))) &&
  negb (Js.falsy (cell (Supabase.sku_code item))) &&
  negb (Js.falsy (Supabase.product_name item)) &&
  (1 <=? Supabase.priority item)%Z.

(** A stored item as the table holds it and the engine prints it: ASCII
    text in its fields and a priority inside the [integer] column. *)
Definition plainItem (item : Supabase.MSLItem) : bool :=
  asciiText (Supabase.category item) &&
  asciiText (Supabase.sku_code item) &&
  asciiText (Supabase.product_name item) &&
  asciiText (Js.orEmpty (Supabase.notes item)) &&
  Supabase.int4 (Supabase.priority item).

(** The whole-file verdict of a parse: the two structural failures, or
    none. *)
Inductive Verdict :=
| EmptyInput
| SchemaMismatch (missing : list string)
| Accepted.

Definition verdictMSL (o : MSLCsvUpload.ParseOutcome) : Verdict :=
  match o with
  | MSLCsvUpload.AlertNoDataRow => EmptyInput
  | MSLCsvUpload.AlertMissingColumns missing => SchemaMismatch missing
  | MSLCsvUpload.Preview _ => Accepted
  end.

Definition verdictProducts (o : ProductCsvUpload.ParseOutcome) : Verdict :=
  match o with
  | ProductCsvUpload.AlertNoDataRow => EmptyInput
  | ProductCsvUpload.AlertMissingColumns missing => SchemaMismatch missing
  | ProductCsvUpload.Preview _ => Accepted
  end.

Definition verdictStores (o : StoreCsvUpload.ParseOutcome) : Verdict :=
  match o with
  | StoreCsvUpload.AlertNoDataRow => EmptyInput
  | StoreCsvUpload.AlertMissingColumns missing => SchemaMismatch missing
  | StoreCsvUpload.Preview _ => Accepted
  end.

(** The verdict as the specification words it: empty input for fewer
    than two non-empty lines, otherwise a schema mismatch that lists
    [required − headers] when this is not empty. *)
Definition expectedVerdict (required : list string) (text : string) : Verdict :=
  if (length (nonEmptyLines text) <? 2)%nat then EmptyInput
  else match missingColumns required (headerColumns text) with
       | [] => Accepted
       | missing => SchemaMismatch missing
       end.

(** The text under which the parser remembers an exported item. *)
Definition reimportKey (item : Supabase.MSLItem) : string :=
  MSLCsvUpload.dupKey (cell (Supabase.category item)) (cell (Supabase.sku_code item)).

(** The data lines of a text, as the three parsers walk them. *)
Definition dataLines (text : string) : list string :=
  tl (Js.split Js.LF (Js.trim text)).

(** The text of the PRIORITY cell of a data line of an MSL file. *)
Definition priorityCell (headers : list string) (line : string) : string :=
  Js.orEmpty (Js.at_ (MSLCsvUpload.rowValues line) (Js.indexOf "PRIORITY" headers)).

(** An MSL file whose priorities the engine reads exactly. *)
Definition safePriorities (text : string) : bool :=
  forallb (fun line => safeInteger (Js.parseInt (priorityCell (headerColumns text) line)))
    (dataLines text).

(** A parsed MSL row whose priority is an integer the engine holds exactly. *)
Definition safePriority (row : MSLCsvUpload.CsvMSLItem) : bool :=
  match MSLCsvUpload.priority row with
  | Some p => (Z.abs p <=? 9007199254740992)%Z
  | None => false
  end.

(** The key under which [DailyRecap] groups the visits of a store. *)
Definition visitKey (visit : Achievement.Visit) : string :=
  Achievement.store_name visit +:+ "-" +:+ Achievement.store_code visit.

(** Ascending priorities, for items whose priority is a number. *)
Definition priorityLe (a b : MSLCsvUpload.CsvMSLItem) : Prop :=
  match MSLCsvUpload.priority a, MSLCsvUpload.priority b with
  | Some x, Some y => (x <= y)%Z
  | _, _ => False
  end.

(** The rows of one category, in the order of the file. *)
Definition rowsOfCategory (c : string) (items : list MSLCsvUpload.CsvMSLItem)
    : list MSLCsvUpload.CsvMSLItem :=
  List.filter (fun item => String.eqb (MSLCsvUpload.category item) c) items.

(** The rows of one priority, in order. *)
Definition rowsOfPriority (p : Z) (items : list MSLCsvUpload.CsvMSLItem)
    : list MSLCsvUpload.CsvMSLItem :=
  List.filter (fun item => bool_decide (MSLCsvUpload.priority item = Some p)) items.

(** The row of [msl_items] that an item of the component shows. *)
Definition rowOf (item : MSLDragDrop.MSLItem) : Rest.Payload :=
  <["priority" := Rest.VNum (Some (inject_Z (MSLDragDrop.priority item)))]>
    (<["id" := Rest.VStr (MSLDragDrop.id item)]>
       (<["category" := Rest.VStr (MSLDragDrop.category item)]>
          (<["sku_code" := Rest.VStr (MSLDragDrop.sku_code item)]>
             (<["product_name" := Rest.VStr (MSLDragDrop.product_name item)]>
                (<["notes" := match MSLDragDrop.notes item with
                              | Some n => Rest.VStr n
                              | None => Rest.VNull
                              end]> ∅))))).

Definition withPriority (p : Z) (item : MSLDragDrop.MSLItem) : MSLDragDrop.MSLItem :=
  MSLDragDrop.mkMSLItem (MSLDragDrop.id item) (MSLDragDrop.category item)
    (MSLDragDrop.sku_code item) (MSLDragDrop.product_name item) p
    (MSLDragDrop.notes item).

(** The items after the item with id [a] took the priority [pa]. *)
Definition setPriority (a : string) (pa : Z) (items : list MSLDragDrop.MSLItem)
    : list MSLDragDrop.MSLItem :=
  map (fun item => if String.eqb (MSLDragDrop.id item) a then withPriority pa item
                   else item) items.

(** The items after [dragged] and [target] exchanged their priorities. *)
Definition swapPriorities (dragged target : MSLDragDrop.MSLItem)
    (items : list MSLDragDrop.MSLItem) : list MSLDragDrop.MSLItem :=
  map (fun item =>
         if String.eqb (MSLDragDrop.id item) (MSLDragDrop.id dragged)
         then withPriority (MSLDragDrop.priority target) item
         else if String.eqb (MSLDragDrop.id item) (MSLDragDrop.id target)
         then withPriority (MSLDragDrop.priority dragged) item
         else item) items.

(** What an import may do to a stored row: the columns [keep] hold what
    they held, and a row outside [scope] is not changed at all. *)
Definition rowKept (keep : list string) (scope : Rest.Payload -> Prop)
    (row row' : Rest.Payload) : Prop :=
  (forall column, column ∈ keep -> row' !! column = row !! column) /\
  (~ scope row -> row' = row).

(** Every row of [table] is still at its place in [table'], kept in the
    sense of [rowKept]. *)
Definition rowsKept (keep : list string) (scope : Rest.Payload -> Prop)
    (table table' : list Rest.Payload) : Prop :=
  forall k row,
    table !! k = Some row ->
    exists row', table' !! k = Some row' /\ rowKept keep scope row row'.

(** A stored store that belongs to the user [userId]. *)
Definition ownedBy (userId : string) (row : Rest.Payload) : Prop :=
  row !! "created_by" = Some (Rest.VStr userId).

(** The stored products that an update of one of [products] may reach. *)
Definition reachedBy (products : list ProductCsvUpload.CsvProduct)
    (row : Rest.Payload) : Prop :=
  exists product,
    product ∈ products /\ ProductCsvUpload.action product = Some Rest.UPDATE /\
    row !! "sku_code" = Some (Rest.VStr (ProductCsvUpload.sku_code product)).

(** The names that every object literal inherits.  A reduce that reads
    [acc[key]] of a plain object before writing it sees an inherited value
    under these names; the maps of this development hold own keys only,
    so statements about such a reduce leave these names out. *)
Definition inheritedKeys : list string := Js.inheritedKeys.

(** The SKUs that the MSL rows give to one category. *)
Definition skusOf (c : string) (mslData : list (string * string)) : gset string :=
  list_to_set (map snd (List.filter (fun item => String.eqb item.1 c) mslData)).

(** The visits of one grouping key, in order. *)
Definition visitsOf (k : string) (visits : list Achievement.Visit)
    : list Achievement.Visit :=
  List.filter (fun visit => String.eqb (visitKey visit) k) visits.

(** The store that the visits of one key make up: the category of the
    first of them, the order items of all of them. *)
Definition groupOf (k : string) (visits : list Achievement.Visit)
    : Achievement.StoreFacts :=
  Achievement.mkStoreFacts
    (match visitsOf k visits with
     | visit :: _ => Achievement.store_category visit
     | [] => EmptyString
     end)
    (concat (map Achievement.order_items (visitsOf k visits))).

(** How often a category occurs in a column. *)
Definition occurrences (c : string) (column : list string) : nat :=
  length (List.filter (String.eqb c) column).

(** The category and SKU that a data line of an MSL file offers to the
    duplicate check: those of a line whose four required cells are all
    non-empty. *)
Definition mslCandidate (headers : list string) (line : string)
    : option (string * string) :=
  let values := MSLCsvUpload.rowValues line in
  let category := Js.orEmpty (Js.at_ values (Js.indexOf "CATEGORY" headers)) in
  let sku := Js.orEmpty (Js.at_ values (Js.indexOf "SKU_CODE" headers)) in
  let name := Js.orEmpty (Js.at_ values (Js.indexOf "PRODUCT_NAME" headers)) in
  let priorityStr := Js.orEmpty (Js.at_ values (Js.indexOf "PRIORITY" headers)) in
  if Js.falsy category || Js.falsy sku || Js.falsy name || Js.falsy priorityStr
  then None
  else Some (category, sku).

End Spec.

(** ** Sample inputs, for the instances of the theorems *)

Module Sample.

(** An MSL file of four rows: the second repeats the key of the first. *)
Definition mslText : string :=
  "CATEGORY,SKU_CODE,PRODUCT_NAME,PRIORITY"
  +:+ String Js.LF "GT PROV,LOR001,Mascara,2"
  +:+ String Js.LF "GT PROV,LOR001,Mascara again,1"
  +:+ String Js.LF "GT PROV,LOR002,Toner,1"
  +:+ String Js.LF "MT,LOR001,Mascara,1".

(** The rows that the preview shows for [mslText]. *)
Definition mslRows : list MSLCsvUpload.CsvMSLItem :=
  match MSLCsvUpload.parseCsv mslText with
  | MSLCsvUpload.Preview parsed => parsed
  | _ => []
  end.

(** A file whose only row has a priority above the [integer] range. *)
Definition overflowText : string :=
  "CATEGORY,SKU_CODE,PRODUCT_NAME,PRIORITY"
  +:+ String Js.LF "GT PROV,LOR001,Mascara,3000000000".

Definition overflowRows : list MSLCsvUpload.CsvMSLItem :=
  match MSLCsvUpload.parseCsv overflowText with
  | MSLCsvUpload.Preview parsed => parsed
  | _ => []
  end.

(** A stored MSL of three categories. *)
Definition table : list Supabase.MSLItem :=
  [Supabase.mkMSLItem "GT PROV" "LOR009" "Old serum" 1 None;
   Supabase.mkMSLItem "MT" "LOR008" "Old toner" 1 (Some "keep");
   Supabase.mkMSLItem "GT Wholesale" "LOR004" "Wholesale pack" 2 None].

(** A reading of numerals for the samples: the decimal integers, on
    which [parseFloat] and [parseInt] agree. *)
Definition parseDigits (s : string) : Rest.Number :=
  match Js.parseInt s with
  | Some z => Some (inject_Z z)
  | None => None
  end.

(** One enumeration of the own keys of an object. *)
Definition ownKeys (m : gmap string nat) : list string := map fst (map_to_list m).

(** A product file: the price of the second row is 0. *)
Definition productText : string :=
  "SKU_CODE,PRODUCT_NAME,BRAND,CATEGORY,PRICE"
  +:+ String Js.LF "SKU001,Mascara,Loreal,Makeup,185000"
  +:+ String Js.LF "SKU002,Toner,Garnier,Skincare,0".

Definition productRows : list ProductCsvUpload.CsvProduct :=
  match ProductCsvUpload.parseCsv parseDigits {["SKU001"]} productText with
  | ProductCsvUpload.Preview parsed => parsed
  | _ => []
  end.

(** A store file of one row. *)
Definition storeText : string :=
  "KODE_TOKO,NAMA_TOKO,KATEGORI" +:+ String Js.LF "T001,Toko Maju,GT PROV".

Definition storeRows : list StoreCsvUpload.CsvStore :=
  match StoreCsvUpload.parseCsv parseDigits ∅ storeText with
  | StoreCsvUpload.Preview parsed => parsed
  | _ => []
  end.

(** Two MSL items of one category, as the page lists them. *)
Definition dragged : MSLDragDrop.MSLItem :=
  MSLDragDrop.mkMSLItem "1" "GT PROV" "LOR001" "Mascara" 1 None.
Definition target : MSLDragDrop.MSLItem :=
  MSLDragDrop.mkMSLItem "2" "GT PROV" "LOR002" "Toner" 2 None.

(** A stored store of another user, and a valid row of the signed-in
    user [u1] for the same code. *)
Definition foreignStore : Rest.Payload :=
  list_to_map
    [("store_code", Rest.VStr "T001"); ("store_name", Rest.VStr "Toko Lain");
     ("created_by", Rest.VStr "u2")].
Definition ownStoreRow : StoreCsvUpload.CsvStore :=
  StoreCsvUpload.mkCsvStore "T001" "Toko Maju" "GT PROV" "" "" "A" "" "0" "" "" ""
    true "" (Some Rest.UPDATE).

(** A stored product, and a valid row that updates another SKU. *)
Definition otherProduct : Rest.Payload :=
  list_to_map
    [("sku_code", Rest.VStr "SKU009"); ("product_name", Rest.VStr "Old serum");
     ("is_active", Rest.VBool true)].
Definition productRow : ProductCsvUpload.CsvProduct :=
  ProductCsvUpload.mkCsvProduct "SKU001" "Mascara" "Loreal" "Makeup"
    (Some (185000 # 1)) (Some (0 # 1)) true "" (Some Rest.UPDATE).

(** The stored store of user [u1] and the stored product that the two
    valid rows update. *)
Definition ownStore : Rest.Payload :=
  list_to_map
    [("store_code", Rest.VStr "T001"); ("store_name", Rest.VStr "Toko Lama");
     ("created_by", Rest.VStr "u1")].
Definition sameProduct : Rest.Payload :=
  list_to_map
    [("sku_code", Rest.VStr "SKU001"); ("product_name", Rest.VStr "Old mascara");
     ("is_active", Rest.VBool false)].

(** The [(category, sku_code)] of three MSL rows. *)
Definition mslPairs : list (string * string) :=
  [("GT PROV", "LOR001"); ("GT PROV", "LOR002"); ("MT", "LOR001")].

(** Three visits of a day, two of them to the same store. *)
Definition visits : list Achievement.Visit :=
  [Achievement.mkVisit "Toko A" "T1" "GT PROV" ["LOR001"];
   Achievement.mkVisit "Toko B" "T2" "MT" [];
   Achievement.mkVisit "Toko A" "T1" "GT PROV" ["LOR002"]].


(** An MSL of three SKUs for one category, and three stores of that
    category that bought all of it, one SKU and two SKUs. *)
Definition mslThree : gmap string (gset string) :=
  {["GT PROV" := {["LOR001"; "LOR002"; "LOR003"]}]}.
Definition storeAll : Achievement.StoreFacts :=
  Achievement.mkStoreFacts "GT PROV" ["LOR001"; "LOR002"; "LOR003"].
Definition storeThird : Achievement.StoreFacts :=
  Achievement.mkStoreFacts "GT PROV" ["LOR001"].
Definition storeTwoThirds : Achievement.StoreFacts :=
  Achievement.mkStoreFacts "GT PROV" ["LOR001"; "LOR002"].


End Sample.

(** * Properties *)

(** ** Achievement *)

Section AchievementFacts.
Import Achievement.
Context {num : Type} `{Arith num} `{NotANumber num}.

Lemma categorySlot_own msl c categoryMSL :
  msl !! c = Some categoryMSL -> categorySlot msl c = Own categoryMSL.
Proof. unfold categorySlot. by intros ->. Qed.

Lemma categorySlot_undefined msl c :
  msl !! c = None -> c ∉ Js.inheritedKeys -> categorySlot msl c = Undefined.
Proof.
  unfold categorySlot. intros -> Hc. by rewrite bool_decide_eq_false_2.
Qed.

Lemma storeStep_excluded msl acc store :
  Spec.excluded msl store -> category store ∉ Js.inheritedKeys ->
  storeStep msl acc store = Some acc.
Proof.
  unfold Spec.excluded, Spec.noMSL, storeStep. intros [Hn|He] Hc.
  - by rewrite (categorySlot_undefined _ _ Hn Hc).
  - rewrite (categorySlot_own _ _ _ He). by rewrite size_empty.
Qed.

Lemma storeStep_included msl acc store :
  Spec.included msl store = true ->
  storeStep msl acc store = Some (add acc.1 (Spec.storeValue msl store), S acc.2).
Proof.
  unfold Spec.included, storeStep, Spec.storeValue, categorySlot.
  destruct (msl !! category store) as [c|]; [|discriminate].
  by destruct (size c =? 0)%nat.
Qed.

Lemma storeStep_not_included msl acc store :
  Spec.included msl store = false -> Spec.plainStore msl store = true ->
  storeStep msl acc store = Some acc.
Proof.
  unfold Spec.included, Spec.plainStore, Spec.plainCategory, storeStep, categorySlot.
  destruct (msl !! category store) as [c|].
  - by destruct (size c =? 0)%nat.
  - by destruct (bool_decide (category store ∈ Js.inheritedKeys)).
Qed.

Lemma loop_app msl pre post acc :
  loop msl (pre ++ post) acc
  = match loop msl pre acc with
    | Some acc' => loop msl post acc'
    | None => None
    end.
Proof.
  revert acc. induction pre as [|store pre IH]; intros acc; simpl; [reflexivity|].
  destruct (storeStep msl acc store); [apply IH|reflexivity].
Qed.

Lemma loop_skip msl pre store post acc :
  Spec.excluded msl store -> category store ∉ Js.inheritedKeys ->
  loop msl (pre ++ store :: post) acc = loop msl (pre ++ post) acc.
Proof.
  intros Hx Hc. rewrite !loop_app.
  destruct (loop msl pre acc) as [acc'|]; [|reflexivity].
  simpl. by rewrite storeStep_excluded.
Qed.

Lemma loop_all_excluded msl stores acc :
  Forall (fun store => Spec.excluded msl store /\ category store ∉ Js.inheritedKeys)
    stores ->
  loop msl stores acc = Some acc.
Proof.
  induction 1 as [|store stores [Hx Hc] _ IH]; simpl; [reflexivity|].
  by rewrite storeStep_excluded.
Qed.

(** The loop over stores of plain categories: the values of the included
    stores are added in their order and counted. *)
Lemma loop_plain msl stores :
  Forall (fun store => Spec.plainStore msl store = true) stores ->
  forall acc,
    loop msl stores acc
    = Some (fold_left add
              (map (Spec.storeValue msl) (List.filter (Spec.included msl) stores)) acc.1,
            (acc.2 + length (List.filter (Spec.included msl) stores))%nat).
Proof.
  induction 1 as [|store stores Hp _ IH]; intros acc; simpl.
  - rewrite Nat.add_0_r. by destruct acc.
  - destruct (Spec.included msl store) eqn:Hinc.
    + rewrite storeStep_included by assumption. rewrite IH. simpl.
      by rewrite Nat.add_succ_r.
    + rewrite storeStep_not_included by assumption. apply IH.
Qed.

Lemma finish_plain msl stores :
  Forall (fun store => Spec.plainStore msl store = true) stores ->
  finish (loopResult msl stores)
  = Computed (Spec.meanIn
                (map (Spec.storeValue msl) (List.filter (Spec.included msl) stores))).
Proof.
  intros Hp. unfold loopResult. rewrite (loop_plain msl stores Hp). simpl.
  unfold average, Spec.meanIn. simpl.
  destruct (List.filter (Spec.included msl) stores) as [|store inc]; [reflexivity|].
  simpl. by rewrite length_map.
Qed.

Lemma no_msl_none_included msl stores :
  size msl = 0%nat -> List.filter (Spec.included msl) stores = [].
Proof.
  intros Hz. apply map_size_empty_inv in Hz. subst msl.
  induction stores as [|s stores IH]; simpl; [reflexivity|].
  unfold Spec.included at 1. by rewrite lookup_empty.
Qed.

Lemma dashboard_plain msl storesData :
  Forall (fun store => Spec.plainStore msl store = true) storesData ->
  fetchDashboardStats msl storesData
  = Computed (Spec.meanIn
                (map (Spec.storeValue msl)
                   (List.filter (Spec.included msl) storesData))).
Proof.
  intros Hp. unfold fetchDashboardStats.
  destruct (0 <? size msl)%nat eqn:Hm.
  - destruct storesData as [|s l]; [reflexivity|].
    change (0 <? length (s :: l))%nat with true. cbv iota.
    by apply finish_plain.
  - apply Nat.ltb_ge in Hm. by rewrite no_msl_none_included by lia.
Qed.

Lemma pushItems_categories (P : string -> Prop) key visit entries :
  P (store_category visit) ->
  Forall (fun e => P (category e.2)) entries ->
  Forall (fun e => P (category e.2)) (pushItems key visit entries).
Proof.
  intros Hv. induction 1 as [|[k d] rest Hd Hrest IH]; simpl.
  - repeat constructor. exact Hv.
  - destruct (String.eqb k key); constructor; auto.
Qed.

Lemma groupVisits_categories (P : string -> Prop) visits acc :
  Forall (fun v => P (store_category v)) visits ->
  Forall (fun e : string * StoreFacts => P (category e.2)) acc ->
  Forall (fun e : string * StoreFacts => P (category e.2))
    (fold_left
       (fun acc visit =>
          pushItems (store_name visit +:+ "-" +:+ store_code visit) visit acc)
       visits acc).
Proof.
  intros Hall. revert acc.
  induction Hall as [|v visits Hv _ IH]; intros acc Hacc; simpl; [exact Hacc|].
  apply IH. by apply pushItems_categories.
Qed.

Lemma storeVisits_categories (P : string -> Prop) visits :
  Forall (fun v => P (store_category v)) visits ->
  Forall (fun store => P (category store)) (map snd (storeVisits visits)).
Proof.
  intros Hall. apply Forall_fmap.
  apply (groupVisits_categories P visits [] Hall). constructor.
Qed.

Lemma daily_plain msl visits :
  Forall (fun v => Spec.plainCategory msl (store_category v) = true) visits ->
  fetchDailyData msl visits
  = Computed (Spec.meanIn
                (map (Spec.storeValue msl)
                   (List.filter (Spec.included msl) (map snd (storeVisits visits))))).
Proof.
  intros Hp. unfold fetchDailyData.
  assert (Hstores : Forall (fun store => Spec.plainStore msl store = true)
                      (map snd (storeVisits visits))).
  { by apply (storeVisits_categories (fun c => Spec.plainCategory msl c = true)). }
  destruct (0 <? size msl)%nat eqn:Hm.
  - destruct visits as [|v l] eqn:Hv; [reflexivity|].
    change (0 <? length (v :: l))%nat with true. cbv iota. simpl andb.
    by apply finish_plain.
  - apply Nat.ltb_ge in Hm. by rewrite no_msl_none_included by lia.
Qed.

Lemma dashboard_skip msl pre store post :
  Spec.excluded msl store -> category store ∉ Js.inheritedKeys ->
  fetchDashboardStats msl (pre ++ store :: post) = fetchDashboardStats msl (pre ++ post).
Proof.
  intros Hx Hc. unfold fetchDashboardStats, loopResult.
  rewrite loop_skip by assumption.
  destruct (0 <? size msl)%nat; [|reflexivity].
  destruct pre as [|p pre]; simpl; [|reflexivity].
  destruct post as [|q post]; simpl; reflexivity.
Qed.

Lemma all_excluded_zero msl storesData visits :
  (Forall (fun store => Spec.excluded msl store /\ category store ∉ Js.inheritedKeys)
     storesData ->
   fetchDashboardStats msl storesData = Computed zero) /\
  (Forall (fun v => Spec.noMSL msl (store_category v) /\
                    store_category v ∉ Js.inheritedKeys) visits ->
   fetchDailyData msl visits = Computed zero).
Proof.
  split.
  - intros Hall. unfold fetchDashboardStats, loopResult.
    rewrite loop_all_excluded by assumption.
    by destruct (0 <? size msl)%nat, (0 <? length storesData)%nat.
  - intros Hall. unfold fetchDailyData, loopResult.
    rewrite loop_all_excluded.
    + by destruct ((0 <? size msl)%nat && (0 <? length visits)%nat).
    + by apply (storeVisits_categories
                  (fun c => Spec.noMSL msl c /\ c ∉ Js.inheritedKeys)).
Qed.

Lemma mslSkusBought_intersection (bought categoryMSL : gset string) :
  mslSkusBought bought categoryMSL = size (bought ∩ categoryMSL).
Proof.
  unfold mslSkusBought, size, set_size. simpl.
  apply Permutation_length, NoDup_Permutation.
  - apply NoDup_ListNoDup, List.NoDup_filter, NoDup_ListNoDup, NoDup_elements.
  - apply NoDup_elements.
  - intros x. rewrite elem_of_elements, elem_of_intersection.
    rewrite list_elem_of_In, filter_In, <- list_elem_of_In, elem_of_elements.
    by rewrite bool_decide_eq_true.
Qed.

Lemma included_lookup msl store :
  Spec.included msl store = true ->
  exists categoryMSL,
    msl !! category store = Some categoryMSL /\ categoryMSL <> ∅.
Proof.
  unfold Spec.included. destruct (msl !! category store) as [c|]; [|discriminate].
  intros Hs. exists c. split; [reflexivity|]. intros ->.
  by rewrite size_empty in Hs.
Qed.

Lemma included_value msl store categoryMSL :
  msl !! category store = Some categoryMSL ->
  Spec.storeValue msl store
  = mul (div (ofNat (size (boughtSkus (orderSkus store) ∩ categoryMSL)))
           (ofNat (size categoryMSL)))
      (ofNat 100).
Proof.
  intros Hc. unfold Spec.storeValue, storeAchievement. rewrite Hc. cbn [default].
  by rewrite mslSkusBought_intersection.
Qed.

End AchievementFacts.

(** C1.  The guard of the loop skips a store whose category has no entry
    or an empty one, unless the category is a name that the object
    literal inherits.  For the other categories, whatever the arithmetic:
    such a store leaves the running sum and the count as they are and can
    be removed from the input, and when every store is of that kind the
    result is the literal 0.  For the category [constructor], with an MSL
    for GT PROV only: the store is not skipped; without an order line the
    result is [NaN] on both pages, with an order line the call of [has]
    throws and the [catch] block runs. *)
Theorem achievement_counts_store_of_inherited_category :
  let msl : gmap string (gset string) := {["GT PROV" := {["LOR001"]}]} in
  (forall (num : Type) (A : Achievement.Arith num) (N : Achievement.NotANumber num)
          (msl : gmap string (gset string)) (store : Achievement.StoreFacts),
      Spec.excluded msl store ->
      Achievement.category store ∉ Js.inheritedKeys ->
      (forall acc, Achievement.storeStep msl acc store = Some acc) /\
      (forall pre post,
          Achievement.fetchDashboardStats msl (pre ++ store :: post)
          = Achievement.fetchDashboardStats msl (pre ++ post))) /\
  (forall (num : Type) (A : Achievement.Arith num) (N : Achievement.NotANumber num)
          (msl : gmap string (gset string)) storesData visits,
      (Forall (fun store => Spec.excluded msl store /\
                            Achievement.category store ∉ Js.inheritedKeys)
         storesData ->
       Achievement.fetchDashboardStats msl storesData
       = Achievement.Computed Achievement.zero) /\
      (Forall (fun v => Spec.noMSL msl (Achievement.store_category v) /\
                        Achievement.store_category v ∉ Js.inheritedKeys) visits ->
       Achievement.fetchDailyData msl visits
       = Achievement.Computed Achievement.zero)) /\
  Spec.excluded msl (Achievement.mkStoreFacts "constructor" []) /\
  Achievement.fetchDashboardStats (num := PrimFloat.float) msl
    [Achievement.mkStoreFacts "constructor" []]
  = Achievement.Computed PrimFloat.nan /\
  Achievement.fetchDailyData (num := PrimFloat.float) msl
    [Achievement.mkVisit "Toko Baru" "T9" "constructor" []]
  = Achievement.Computed PrimFloat.nan /\
  Achievement.fetchDashboardStats (num := PrimFloat.float) msl
    [Achievement.mkStoreFacts "constructor" ["LOR001"]]
  = Achievement.Caught /\
  Achievement.fetchDailyData (num := PrimFloat.float) msl
    [Achievement.mkVisit "Toko Baru" "T9" "constructor" ["LOR001"]]
  = Achievement.Caught.
Proof.
  intros msl. split; [|split; [|split; [|split; [|split; [|split]]]]].
  - intros num A N msl' store Hx Hc. split.
    + intros acc. by apply storeStep_excluded.
    + intros pre post. by apply dashboard_skip.
  - intros num A N msl' storesData visits. apply all_excluded_zero.
  - left. reflexivity.
  - vm_compute. reflexivity.
  - vm_compute. reflexivity.
  - vm_compute. reflexivity.
  - vm_compute. reflexivity.
Qed.

Section AchievementMean.
Import Achievement.
Local Open Scope Q_scope.

Lemma storeAchievement_percentage (bought categoryMSL : gset string) :
  storeAchievement (num := Q) bought categoryMSL = Spec.percentage bought categoryMSL.
Proof.
  unfold storeAchievement, Spec.percentage. simpl.
  by rewrite mslSkusBought_intersection.
Qed.

Lemma percentage_bounds (bought categoryMSL : gset string) :
  categoryMSL <> ∅ ->
  0 <= Spec.percentage bought categoryMSL <= 100.
Proof.
  intros Hne. unfold Spec.percentage.
  assert (Hpos : (0 < size categoryMSL)%nat).
  { destruct (decide (size categoryMSL = 0%nat)) as [Hz|]; [|lia].
    apply size_empty_inv in Hz. exfalso. apply Hne. by apply leibniz_equiv. }
  assert (Hle : (size (bought ∩ categoryMSL) <= size categoryMSL)%nat).
  { apply subseteq_size, intersection_subseteq_r. }
  set (a := size (bought ∩ categoryMSL)) in *.
  set (b := size categoryMSL) in *.
  assert (Hb : 0 < inject_Z (Z.of_nat b)).
  { change 0 with (inject_Z 0). rewrite <- Zlt_Qlt. lia. }
  assert (Ha : 0 <= inject_Z (Z.of_nat a)).
  { change 0 with (inject_Z 0). rewrite <- Zle_Qle. lia. }
  assert (Hab : inject_Z (Z.of_nat a) <= inject_Z (Z.of_nat b)).
  { rewrite <- Zle_Qle. lia. }
  split.
  - apply Qmult_le_0_compat; [|discriminate].
    apply Qle_shift_div_l; [exact Hb|]. by rewrite Qmult_0_l.
  - apply Qle_trans with (1 * 100); [|discriminate].
    apply Qmult_le_compat_r; [|discriminate].
    apply Qle_shift_div_r; [exact Hb|]. by rewrite Qmult_1_l.
Qed.

End AchievementMean.

(** C2.  For an included store the value added to the running sum is
    [|boughtSkus ∩ categoryMSL| / |categoryMSL| × 100] in the arithmetic
    of the numbers, and the count grows by one.  When no store has a
    category that is an inherited name without an entry, the result of
    either page is the unweighted mean of these values over the included
    stores, added in their order (0 when there is none); in exact
    arithmetic the value of a store is between 0 and 100.  With one store
    of GT PROV that bought the whole MSL and one store of category
    [constructor] without an order line, the mean over the included
    stores is 100 and the result is [NaN]. *)
Theorem achievement_is_mean_unless_inherited_category :
  let msl : gmap string (gset string) := {["GT PROV" := {["LOR001"]}]} in
  let storesData :=
    [Achievement.mkStoreFacts "GT PROV" ["LOR001"];
     Achievement.mkStoreFacts "constructor" []] in
  (forall (num : Type) (A : Achievement.Arith num) (N : Achievement.NotANumber num)
          (msl : gmap string (gset string)) (store : Achievement.StoreFacts),
      Spec.included msl store = true ->
      exists categoryMSL,
        msl !! Achievement.category store = Some categoryMSL /\
        categoryMSL <> ∅ /\
        forall acc,
          Achievement.storeStep msl acc store
          = Some (Achievement.add acc.1
                    (Achievement.mul
                       (Achievement.div
                          (Achievement.ofNat
                             (size (Achievement.boughtSkus (Achievement.orderSkus store)
                                      ∩ categoryMSL)))
                          (Achievement.ofNat (size categoryMSL)))
                       (Achievement.ofNat 100)),
                  S acc.2)) /\
  (forall (num : Type) (A : Achievement.Arith num) (N : Achievement.NotANumber num)
          (msl : gmap string (gset string)) storesData,
      Forall (fun store => Spec.plainStore msl store = true) storesData ->
      Achievement.fetchDashboardStats msl storesData
      = Achievement.Computed
          (Spec.meanIn (map (Spec.storeValue msl)
                          (List.filter (Spec.included msl) storesData)))) /\
  (forall (num : Type) (A : Achievement.Arith num) (N : Achievement.NotANumber num)
          (msl : gmap string (gset string)) visits,
      Forall (fun v => Spec.plainCategory msl (Achievement.store_category v) = true)
        visits ->
      Achievement.fetchDailyData msl visits
      = Achievement.Computed
          (Spec.meanIn (map (Spec.storeValue msl)
                          (List.filter (Spec.included msl)
                             (map snd (Achievement.storeVisits visits)))))) /\
  (forall bought categoryMSL : gset string,
      categoryMSL <> ∅ ->
      (0 <= Achievement.storeAchievement (num := Q) bought categoryMSL <= 100)%Q) /\
  List.filter (Spec.included msl) storesData
  = [Achievement.mkStoreFacts "GT PROV" ["LOR001"]] /\
  Spec.meanIn (num := PrimFloat.float)
    (map (Spec.storeValue msl) (List.filter (Spec.included msl) storesData))
  = Achievement.ofNat 100 /\
  Achievement.fetchDashboardStats (num := PrimFloat.float) msl storesData
  = Achievement.Computed PrimFloat.nan.
Proof.
  intros msl storesData. split; [|split; [|split; [|split; [|split; [|split]]]]].
  - intros num A N msl' store Hinc.
    destruct (included_lookup msl' store Hinc) as (c & Hc & Hne).
    exists c. split; [exact Hc|]. split; [exact Hne|]. intros acc.
    rewrite storeStep_included by assumption.
    by rewrite (included_value msl' store c Hc).
  - intros num A N msl' stores. apply dashboard_plain.
  - intros num A N msl' visits. apply daily_plain.
  - intros bought c Hne. rewrite storeAchievement_percentage.
    by apply percentage_bounds.
  - vm_compute. reflexivity.
  - vm_compute. reflexivity.
  - vm_compute. reflexivity.
Qed.


(** ** The MSL upload *)

(** C9.  The duplicate check works on the text [category + "-" + sku]:
    after the row (A, B-C) the row (A-B, C), whose pair is new, is marked
    as a duplicate. *)
Theorem msl_duplicate_check_confuses_distinct_keys :
  exists text first second,
    MSLCsvUpload.parseCsv text = MSLCsvUpload.Preview [first; second] /\
    (MSLCsvUpload.category first, MSLCsvUpload.sku_code first) = ("A", "B-C") /\
    (MSLCsvUpload.category second, MSLCsvUpload.sku_code second) = ("A-B", "C") /\
    (MSLCsvUpload.category first, MSLCsvUpload.sku_code first)
      <> (MSLCsvUpload.category second, MSLCsvUpload.sku_code second) /\
    MSLCsvUpload.isValid first = true /\
    MSLCsvUpload.isValid second = false /\
    MSLCsvUpload.error second = "Row 3: Duplicate SKU in same category".
Proof.
  exists ("CATEGORY,SKU_CODE,PRODUCT_NAME,PRIORITY" +:+ String Js.LF "A,B-C,Serum,1"
          +:+ String Js.LF "A-B,C,Toner,2").
  eexists _, _. split; [vm_compute; reflexivity|].
  repeat split; discriminate.
Qed.

Section MslUploadFacts.
Import Supabase.

Lemma uniq_elem (x : string) (l : list string) : x ∈ Js.uniq l <-> x ∈ l.
Proof.
  induction l as [|y l IH]; simpl; [reflexivity|].
  rewrite !elem_of_cons, list_elem_of_filter, IH.
  destruct (decide (x = y)) as [->|Hne]; [tauto|]. tauto.
Qed.

Lemma touchesOnly_refl cats w : Spec.touchesOnly cats w w.
Proof.
  split; [reflexivity|]. exists []. split; [by rewrite app_nil_r|].
  intros c Hc. by apply elem_of_nil in Hc.
Qed.

Lemma touchesOnly_trans cats w1 w2 w3 :
  Spec.touchesOnly cats w1 w2 -> Spec.touchesOnly cats w2 w3 ->
  Spec.touchesOnly cats w1 w3.
Proof.
  intros [F12 (i12 & L12 & D12)] [F23 (i23 & L23 & D23)]. split.
  - intros c Hc. by rewrite F23, F12.
  - exists (i12 ++ i23). split; [by rewrite L23, L12, app_assoc|].
    intros c [Hc|Hc]%elem_of_app; auto.
Qed.

Lemma issue_table q w : msl_items (issue q w).2 = msl_items w.
Proof. unfold issue. by destruct (faults w). Qed.

Lemma issue_log q w : log (issue q w).2 = log w ++ [q].
Proof. unfold issue. by destruct (faults w). Qed.

Lemma itemsOf_delete_other c c' table :
  c' <> c ->
  Spec.itemsOf c'
    (List.filter (fun r => negb (String.eqb (category r) c)) table)
  = Spec.itemsOf c' table.
Proof.
  intros Hne. unfold Spec.itemsOf.
  induction table as [|r table IH]; simpl; [reflexivity|].
  destruct (String.eqb_spec (category r) c) as [Hc|Hc]; simpl.
  - destruct (String.eqb_spec (category r) c') as [Hc'|Hc']; [congruence|exact IH].
  - destruct (String.eqb (category r) c'); by rewrite IH.
Qed.

Lemma deleteEqCategory_touches cats c w :
  c ∈ cats -> Spec.touchesOnly cats w (deleteEqCategory c w).2.
Proof.
  intros Hc. unfold deleteEqCategory.
  pose proof (issue_table (DeleteEqCategory c) w) as Ht.
  pose proof (issue_log (DeleteEqCategory c) w) as Hl.
  destruct (issue (DeleteEqCategory c) w) as [fault w1]. simpl in Ht, Hl.
  assert (Hissued : exists issued,
             log w1 = log w ++ issued /\
             forall c0, DeleteEqCategory c0 ∈ issued -> c0 ∈ cats).
  { exists [DeleteEqCategory c]. split; [exact Hl|].
    intros c0 Hin%list_elem_of_singleton. by inversion Hin. }
  destruct fault; simpl.
  - split; [|exact Hissued]. intros c' _. by rewrite Ht.
  - split; [|exact Hissued]. intros c' Hc'. rewrite Ht.
    apply itemsOf_delete_other. intros ->. contradiction.
Qed.

Lemma accept_category r item : accept r = Some item -> category item = ins_category r.
Proof.
  unfold accept. destruct (ins_priority r) as [p|]; [|discriminate].
  destruct (int4 p); [|discriminate]. by intros [= <-].
Qed.

Lemma acceptAll_categories rows new :
  acceptAll rows = Some new ->
  forall item, item ∈ new -> exists r, r ∈ rows /\ category item = ins_category r.
Proof.
  unfold acceptAll. intros Hall%mapM_Some.
  induction Hall as [|r item rows new Hacc _ IH].
  - intros item Hin. by apply elem_of_nil in Hin.
  - intros it [->|Hin]%elem_of_cons.
    + exists r. split; [left|]. by apply accept_category.
    + destruct (IH it Hin) as (r' & Hr' & Heq). exists r'. split; [by right|exact Heq].
Qed.

Lemma itemsOf_app c t1 t2 :
  Spec.itemsOf c (t1 ++ t2) = Spec.itemsOf c t1 ++ Spec.itemsOf c t2.
Proof. unfold Spec.itemsOf. apply List.filter_app. Qed.

Lemma itemsOf_none c table :
  (forall item, item ∈ table -> category item <> c) -> Spec.itemsOf c table = [].
Proof.
  unfold Spec.itemsOf. induction table as [|r table IH]; intros Hall; simpl; [reflexivity|].
  destruct (String.eqb_spec (category r) c) as [Hc|_].
  - exfalso. apply (Hall r); [left|exact Hc].
  - apply IH. intros item Hin. apply Hall. by right.
Qed.

Lemma insert_touches cats rows w :
  (forall r, r ∈ rows -> ins_category r ∈ cats) ->
  Spec.touchesOnly cats w (insert rows w).2.
Proof.
  intros Hrows. unfold insert.
  pose proof (issue_table (InsertRows rows) w) as Ht.
  pose proof (issue_log (InsertRows rows) w) as Hl.
  destruct (issue (InsertRows rows) w) as [fault w1]. simpl in Ht, Hl.
  assert (Hissued : exists issued,
             log w1 = log w ++ issued /\
             forall c0, DeleteEqCategory c0 ∈ issued -> c0 ∈ cats).
  { exists [InsertRows rows]. split; [exact Hl|].
    intros c0 Hin%list_elem_of_singleton. discriminate. }
  assert (Hsame : Spec.touchesOnly cats w w1).
  { split; [|exact Hissued]. intros c' _. by rewrite Ht. }
  destruct fault; simpl; [exact Hsame|].
  destruct (acceptAll rows) as [new|] eqn:Hnew; simpl; [|exact Hsame].
  destruct (uniqueWith (msl_items w1) new); simpl; [|exact Hsame].
  split; [|exact Hissued]. intros c' Hc'. unfold setTable. simpl.
  rewrite itemsOf_app, Ht, (itemsOf_none c' new), app_nil_r; [reflexivity|].
  intros item Hin Heq.
  destruct (acceptAll_categories rows new Hnew item Hin) as (r & Hr & Hcat).
  apply Hc'. rewrite <- Heq, Hcat. by apply Hrows.
Qed.

Lemma deleteExisting_touches cats l w :
  (forall c, c ∈ l -> c ∈ cats) ->
  Spec.touchesOnly cats w (MSLCsvUpload.deleteExisting l w).2.
Proof.
  revert w. induction l as [|c l IH]; intros w Hl; simpl.
  - apply touchesOnly_refl.
  - unfold MSLCsvUpload.deleteExisting. simpl. unfold bind at 1 2.
    pose proof (deleteEqCategory_touches cats c w (Hl c ltac:(left))) as Hd.
    destruct (deleteEqCategory c w) as [[[e|]|e] w1]; simpl in *; try exact Hd.
    eapply touchesOnly_trans; [exact Hd|].
    apply IH. intros c' Hc'. apply Hl. by right.
Qed.

Lemma insertNew_touches cats validItems w :
  (forall item, item ∈ validItems -> MSLCsvUpload.category item ∈ cats) ->
  Spec.touchesOnly cats w (MSLCsvUpload.insertNew validItems w).2.
Proof.
  intros Hcats. unfold MSLCsvUpload.insertNew, bind.
  pose proof (insert_touches cats (MSLCsvUpload.insertData validItems) w) as Hi.
  destruct (insert (MSLCsvUpload.insertData validItems) w) as [[[e|]|e] w1];
    simpl in *; apply Hi; intros r Hr;
    unfold MSLCsvUpload.insertData in Hr;
    apply list_elem_of_In, in_map_iff in Hr as (item & <- & Hin);
    simpl; apply Hcats; by apply list_elem_of_In.
Qed.

(** C5.  Whatever the store answers, a commit leaves the items of every
    category that no valid row names exactly as they were, and the
    deletions it issues are all for categories of valid rows. *)
Theorem msl_commit_leaves_other_categories
    (parsedItems : list MSLCsvUpload.CsvMSLItem) (w : World) (c : string) :
  c ∉ map MSLCsvUpload.category (MSLCsvUpload.validItems parsedItems) ->
  let w' := (MSLCsvUpload.uploadMSL parsedItems w).2 in
  Spec.itemsOf c (msl_items w') = Spec.itemsOf c (msl_items w) /\
  exists issued,
    log w' = log w ++ issued /\
    (DeleteEqCategory c ∉ issued) /\
    forall c', DeleteEqCategory c' ∈ issued ->
               c' ∈ map MSLCsvUpload.category (MSLCsvUpload.validItems parsedItems).
Proof.
  intros Hc w'.
  set (valid := MSLCsvUpload.validItems parsedItems) in *.
  set (cats := map MSLCsvUpload.category valid) in *.
  assert (Htouch : Spec.touchesOnly cats w w').
  { subst w'. unfold MSLCsvUpload.uploadMSL, tryCatch, bind. fold valid.
    pose proof (deleteExisting_touches cats (MSLCsvUpload.categoriesToUpdate valid) w) as Hd.
    destruct (MSLCsvUpload.deleteExisting (MSLCsvUpload.categoriesToUpdate valid) w)
      as [[[]|e] w1]; simpl in *.
    - assert (H1 : Spec.touchesOnly cats w w1).
      { apply Hd. intros c0 Hc0. by apply uniq_elem. }
      pose proof (insertNew_touches cats valid w1) as Hi.
      destruct (MSLCsvUpload.insertNew valid w1) as [[b|e] w2]; simpl in *;
        (eapply touchesOnly_trans; [exact H1|]); apply Hi;
        intros item Hin; apply list_elem_of_In, in_map, list_elem_of_In; exact Hin.
    - apply Hd. intros c0 Hc0. by apply uniq_elem. }
  destruct Htouch as [Hframe (issued & Hlog & Hdel)].
  split; [by apply Hframe|].
  exists issued. split; [exact Hlog|]. split; [|exact Hdel].
  intros Hin. apply Hc. by apply Hdel.
Qed.

End MslUploadFacts.

Section MslCommitTwice.
Import Supabase.

Lemma filter_filter_andb {A} (f g : A -> bool) (l : list A) :
  List.filter f (List.filter g l) = List.filter (fun x => g x && f x) l.
Proof.
  induction l as [|x l IH]; simpl; [reflexivity|].
  destruct (g x); simpl; [destruct (f x)|]; by rewrite IH.
Qed.

Lemma filter_ext_in {A} (f g : A -> bool) (l : list A) :
  (forall x, x ∈ l -> f x = g x) -> List.filter f l = List.filter g l.
Proof.
  intros Hfg. apply List.filter_ext_in. intros x Hx. apply Hfg. by apply list_elem_of_In.
Qed.

Lemma filter_all {A} (f : A -> bool) (l : list A) :
  (forall x, x ∈ l -> f x = true) -> List.filter f l = l.
Proof.
  induction l as [|x l IH]; intros Hall; simpl; [reflexivity|].
  rewrite (Hall x) by left. f_equal. apply IH. intros y Hy. apply Hall. by right.
Qed.

Lemma filter_none {A} (f : A -> bool) (l : list A) :
  (forall x, x ∈ l -> f x = false) -> List.filter f l = [].
Proof.
  induction l as [|x l IH]; intros Hall; simpl; [reflexivity|].
  rewrite (Hall x) by left. apply IH. intros y Hy. apply Hall. by right.
Qed.

Lemma includes_elem x l : Js.includes x l = true <-> x ∈ l.
Proof.
  unfold Js.includes. rewrite existsb_exists, list_elem_of_In. split.
  - intros (y & Hy & Heq). apply String.eqb_eq in Heq. by subst.
  - intros Hx. exists x. split; [exact Hx|apply String.eqb_refl].
Qed.

Lemma includes_uniq x l : Js.includes x (Js.uniq l) = Js.includes x l.
Proof.
  apply eq_true_iff_eq. by rewrite !includes_elem, uniq_elem.
Qed.

Lemma deleteExisting_quiet cats w :
  faults w = [] ->
  MSLCsvUpload.deleteExisting cats w
  = (Done tt,
     mkWorld (Spec.itemsOutside cats (msl_items w)) []
       (log w ++ map DeleteEqCategory cats)).
Proof.
  revert w. induction cats as [|c cats IH]; intros [table fs lg] Hq;
    simpl in Hq; subst fs.
  - unfold Spec.itemsOutside. simpl. rewrite app_nil_r.
    by rewrite filter_all.
  - unfold MSLCsvUpload.deleteExisting. simpl. unfold bind at 1 2.
    unfold deleteEqCategory, issue, setTable. simpl.
    change (forOf cats _) with (MSLCsvUpload.deleteExisting cats).
    rewrite IH by reflexivity. simpl.
    rewrite <- app_assoc. simpl. f_equal. f_equal.
    unfold Spec.itemsOutside. rewrite filter_filter_andb.
    apply List.filter_ext. intros r. simpl. by rewrite negb_orb.
Qed.

Lemma insert_quiet rows w :
  faults w = [] ->
  insert rows w
  = match acceptAll rows with
    | Some new =>
        if uniqueWith (msl_items w) new
        then (Done None, mkWorld (msl_items w ++ new) [] (log w ++ [InsertRows rows]))
        else (Done (Some "duplicate key value violates unique constraint"),
              mkWorld (msl_items w) [] (log w ++ [InsertRows rows]))
    | None =>
        (Done (Some "invalid input value"),
         mkWorld (msl_items w) [] (log w ++ [InsertRows rows]))
    end.
Proof.
  destruct w as [table fs lg]. simpl. intros ->.
  unfold insert, issue, setTable. simpl.
  destruct (acceptAll rows) as [new|]; [|reflexivity].
  by destruct (uniqueWith table new).
Qed.

(** A commit that meets no outside fault, in closed form. *)
Lemma uploadMSL_quiet parsedItems w :
  faults w = [] ->
  let valid := MSLCsvUpload.validItems parsedItems in
  let cats := MSLCsvUpload.categoriesToUpdate valid in
  MSLCsvUpload.uploadMSL parsedItems w
  = (Done (match acceptAll (MSLCsvUpload.insertData valid) with
           | Some new => uniqueWith (Spec.itemsOutside cats (msl_items w)) new
           | None => false
           end),
     mkWorld (Spec.committed valid (msl_items w)) []
       ((log w ++ map DeleteEqCategory cats)
          ++ [InsertRows (MSLCsvUpload.insertData valid)])).
Proof.
  intros Hq valid cats.
  unfold MSLCsvUpload.uploadMSL, tryCatch, bind at 1. fold valid. fold cats.
  rewrite deleteExisting_quiet by assumption.
  unfold MSLCsvUpload.insertNew, bind. rewrite insert_quiet by reflexivity.
  unfold Spec.committed. fold cats. simpl.
  destruct (acceptAll (MSLCsvUpload.insertData valid)) as [new|]; simpl.
  - destruct (uniqueWith _ new); reflexivity.
  - reflexivity.
Qed.

Lemma insertData_categories valid new :
  acceptAll (MSLCsvUpload.insertData valid) = Some new ->
  forall item, item ∈ new ->
    Js.includes (category item) (MSLCsvUpload.categoriesToUpdate valid) = true.
Proof.
  intros Hnew item Hin.
  destruct (acceptAll_categories _ _ Hnew item Hin) as (r & Hr & ->).
  unfold MSLCsvUpload.categoriesToUpdate. rewrite includes_uniq.
  apply includes_elem.
  unfold MSLCsvUpload.insertData in Hr.
  apply list_elem_of_In, in_map_iff in Hr as (it & <- & Hit). simpl.
  apply list_elem_of_In, in_map, Hit.
Qed.

Lemma itemsOutside_idem cats table :
  Spec.itemsOutside cats (Spec.itemsOutside cats table) = Spec.itemsOutside cats table.
Proof.
  unfold Spec.itemsOutside. rewrite filter_filter_andb.
  apply List.filter_ext. intros r. by rewrite andb_diag.
Qed.

Lemma itemsOutside_committed valid table :
  Spec.itemsOutside (MSLCsvUpload.categoriesToUpdate valid) (Spec.committed valid table)
  = Spec.itemsOutside (MSLCsvUpload.categoriesToUpdate valid) table.
Proof.
  unfold Spec.committed.
  destruct (acceptAll (MSLCsvUpload.insertData valid)) as [new|] eqn:Hnew;
    [|apply itemsOutside_idem].
  destruct (uniqueWith _ new); [|apply itemsOutside_idem].
  unfold Spec.itemsOutside at 1. rewrite List.filter_app.
  fold (Spec.itemsOutside (MSLCsvUpload.categoriesToUpdate valid)
          (Spec.itemsOutside (MSLCsvUpload.categoriesToUpdate valid) table)).
  rewrite itemsOutside_idem, filter_none, app_nil_r; [reflexivity|].
  intros item Hin. by rewrite (insertData_categories valid new Hnew item Hin).
Qed.

Lemma committed_idem valid table :
  Spec.committed valid (Spec.committed valid table) = Spec.committed valid table.
Proof.
  unfold Spec.committed at 1. rewrite itemsOutside_committed.
  reflexivity.
Qed.

End MslCommitTwice.

Section MslParseInvariant.
Import MSLCsvUpload.

(** What one turn of the parsing loop does to [seenSkus], and what a
    valid item tells about it. *)
Lemma parseRow_seen headers i line seen :
  let r := parseRow headers i line seen in
  seen ⊆ r.2 /\
  (isValid r.1 = true ->
     (dupKey (category r.1) (sku_code r.1) ∉ seen) /\
     (dupKey (category r.1) (sku_code r.1) ∈ r.2) /\
     Js.falsy (category r.1) = false /\
     Js.falsy (sku_code r.1) = false /\
     Js.falsy (product_name r.1) = false /\
     exists p, priority r.1 = Some p /\ (1 <= p)%Z).
Proof.
  unfold parseRow.
  set (values := rowValues line).
  set (cat := Js.orEmpty (Js.at_ values (Js.indexOf "CATEGORY" headers))).
  set (sku := Js.orEmpty (Js.at_ values (Js.indexOf "SKU_CODE" headers))).
  set (name := Js.orEmpty (Js.at_ values (Js.indexOf "PRODUCT_NAME" headers))).
  set (pstr := Js.orEmpty (Js.at_ values (Js.indexOf "PRIORITY" headers))).
  destruct (Js.falsy cat) eqn:Hcat; simpl.
  { split; [reflexivity|discriminate]. }
  destruct (Js.falsy sku) eqn:Hsku; simpl.
  { split; [reflexivity|discriminate]. }
  destruct (Js.falsy name) eqn:Hname; simpl.
  { split; [reflexivity|discriminate]. }
  destruct (Js.falsy pstr) eqn:Hp; simpl.
  { split; [reflexivity|discriminate]. }
  destruct (bool_decide (dupKey cat sku ∈ seen)) eqn:Hdup; simpl.
  { split; [reflexivity|discriminate]. }
  apply bool_decide_eq_false in Hdup.
  destruct (badPriority (Js.parseInt pstr)) eqn:Hbad; simpl.
  { split; [apply union_subseteq_r|discriminate]. }
  split; [apply union_subseteq_r|]. intros _.
  repeat split; try assumption.
  - apply elem_of_union_l, elem_of_singleton. reflexivity.
  - unfold badPriority in Hbad. destruct (Js.parseInt pstr) as [p|]; [|discriminate].
    exists p. split; [reflexivity|]. apply Z.ltb_ge in Hbad. exact Hbad.
Qed.

Lemma parseRows_valid headers rest :
  forall i seen,
    let items := validItems (parseRows headers i rest seen) in
    NoDup (map (fun it => dupKey (category it) (sku_code it)) items) /\
    forall it, it ∈ items ->
      (dupKey (category it) (sku_code it) ∉ seen) /\
      exists p, priority it = Some p /\ (1 <= p)%Z.
Proof.
  induction rest as [|line rest IH]; intros i seen; simpl.
  - split; [constructor|]. intros it Hin. by apply elem_of_nil in Hin.
  - pose proof (parseRow_seen headers i line seen) as Hrow.
    destruct (parseRow headers i line seen) as [item seen']. simpl in Hrow.
    destruct Hrow as [Hsub Hvalid]. simpl.
    destruct (IH (S i) seen') as [Hnd Hrest].
    unfold validItems in *. simpl.
    destruct (isValid item) eqn:Hv; simpl.
    + destruct (Hvalid eq_refl) as (Hfresh & Hadded & _ & _ & _ & Hprio).
      split.
      * constructor; [|exact Hnd].
        intros Hin. apply list_elem_of_In, in_map_iff in Hin as (it & Heq & Hit).
        apply list_elem_of_In in Hit.
        destruct (Hrest it Hit) as [Hnot _]. apply Hnot. by rewrite Heq.
      * intros it [->|Hit]%elem_of_cons; [by split|].
        destruct (Hrest it Hit) as [Hnot Hp]. split; [|exact Hp].
        intros Hin. apply Hnot. by apply Hsub.
    + split; [exact Hnd|]. intros it Hit.
      destruct (Hrest it Hit) as [Hnot Hp]. split; [|exact Hp].
      intros Hin. apply Hnot. by apply Hsub.
Qed.

(** The valid items of a preview have pairwise distinct
    [(category, sku_code)] and a priority that is an integer of at least 1. *)
Lemma parseCsv_valid text parsedItems :
  parseCsv text = Preview parsedItems ->
  NoDup (map (fun it => (category it, sku_code it)) (validItems parsedItems)) /\
  forall it, it ∈ validItems parsedItems ->
    exists p, priority it = Some p /\ (1 <= p)%Z.
Proof.
  unfold parseCsv.
  destruct (length (Js.split Js.LF (Js.trim text)) <? 2)%nat; [discriminate|].
  match goal with |- context [List.filter ?f requiredHeaders] =>
    destruct (0 <? length (List.filter f requiredHeaders))%nat; [discriminate|] end.
  intros [= <-].
  match goal with |- context [parseRows ?h 1 ?r ∅] =>
    destruct (parseRows_valid h r 1 ∅) as [Hnd Hall] end.
  split.
  - rewrite <- (map_map (fun it => (category it, sku_code it))
                  (fun k : string * string => dupKey k.1 k.2)) in Hnd.
    exact (NoDup_fmap_1 _ _ Hnd).
  - intros it Hit. by destruct (Hall it Hit).
Qed.

End MslParseInvariant.

Section MslIdempotence.
Import Supabase.

Lemma NoDup_map_filter {A B} (g : A -> B) (f : A -> bool) (l : list A) :
  NoDup (map g l) -> NoDup (map g (List.filter f l)).
Proof.
  induction l as [|x l IH]; simpl; [trivial|].
  intros [Hx Hl]%NoDup_cons. destruct (f x); simpl; [|by apply IH].
  apply NoDup_cons. split; [|by apply IH].
  intros Hin. apply Hx.
  apply list_elem_of_In, in_map_iff in Hin as (y & Hy & Hin).
  apply filter_In in Hin as [Hin _].
  apply list_elem_of_In, in_map_iff. by exists y.
Qed.

Lemma uniqueWith_NoDup base new :
  NoDup (map key base) -> uniqueWith base new = true ->
  NoDup (map key (base ++ new)).
Proof.
  intros Hbase [Hnew Hfresh]%andb_true_iff.
  apply bool_decide_eq_true in Hnew.
  rewrite map_app. apply NoDup_app. split; [exact Hbase|]. split; [|exact Hnew].
  intros k Hk Hk'.
  apply list_elem_of_In, in_map_iff in Hk' as (r & <- & Hr).
  rewrite forallb_forall in Hfresh. specialize (Hfresh r Hr).
  apply bool_decide_eq_true in Hfresh. contradiction.
Qed.

Lemma committed_NoDup valid table :
  NoDup (map key table) -> NoDup (map key (Spec.committed valid table)).
Proof.
  intros Hnd. unfold Spec.committed.
  assert (Hbase : NoDup (map key (Spec.itemsOutside
                                    (MSLCsvUpload.categoriesToUpdate valid) table))).
  { by apply NoDup_map_filter. }
  destruct (acceptAll (MSLCsvUpload.insertData valid)) as [new|]; [|exact Hbase].
  destruct (uniqueWith _ new) eqn:Hu; [|exact Hbase].
  by apply uniqueWith_NoDup.
Qed.

Lemma accept_key r item :
  accept r = Some item -> key item = (ins_category r, ins_sku_code r).
Proof.
  unfold accept. destruct (ins_priority r) as [p|]; [|discriminate].
  destruct (int4 p); [|discriminate]. by intros [= <-].
Qed.

Lemma acceptAll_keys rows new :
  acceptAll rows = Some new ->
  map key new = map (fun r => (ins_category r, ins_sku_code r)) rows /\
  length new = length rows.
Proof.
  unfold acceptAll. intros Hall%mapM_Some.
  induction Hall as [|r item rows new Hacc _ [IHk IHl]]; simpl; [by split|].
  rewrite (accept_key r item Hacc), IHk, IHl. by split.
Qed.

(** The rows of a preview are accepted by the column types as soon as
    their priorities fit the [integer] column. *)
Lemma acceptAll_valid (valid : list MSLCsvUpload.CsvMSLItem) :
  (forall it, it ∈ valid ->
     exists p, MSLCsvUpload.priority it = Some p /\ (1 <= p <= 2147483647)%Z) ->
  is_Some (acceptAll (MSLCsvUpload.insertData valid)).
Proof.
  intros Hall. unfold acceptAll. apply mapM_is_Some.
  unfold MSLCsvUpload.insertData. apply Forall_forall. intros r Hr.
  apply list_elem_of_In, in_map_iff in Hr as (it & <- & Hit).
  destruct (Hall it) as (p & Hp & Hrange); [by apply list_elem_of_In|].
  unfold accept, compose. simpl. rewrite Hp.
  assert (Hint : int4 p = true).
  { unfold int4. apply andb_true_iff. split; apply Z.leb_le; lia. }
  rewrite Hint. eauto.
Qed.

Lemma uniqueWith_after_delete valid table new :
  NoDup (map (fun it => (MSLCsvUpload.category it, MSLCsvUpload.sku_code it)) valid) ->
  acceptAll (MSLCsvUpload.insertData valid) = Some new ->
  uniqueWith (Spec.itemsOutside (MSLCsvUpload.categoriesToUpdate valid) table) new = true.
Proof.
  intros Hnd Hnew. unfold uniqueWith. apply andb_true_iff. split.
  - apply bool_decide_eq_true.
    destruct (acceptAll_keys _ _ Hnew) as [-> _].
    unfold MSLCsvUpload.insertData. by rewrite map_map.
  - apply forallb_forall. intros r Hr. apply bool_decide_eq_true.
    intros Hin. apply list_elem_of_In, in_map_iff in Hin as (b & Hkey & Hb).
    apply filter_In in Hb as [_ Hout].
    assert (Hcat : category b = category r) by (by inversion Hkey).
    rewrite Hcat, (insertData_categories valid new Hnew r) in Hout;
      [discriminate|by apply list_elem_of_In].
Qed.

(** C4.  With no request failing for an outside reason, a second commit
    of the same preview ends with the same table and the same outcome as
    the first: its deletions remove exactly the rows the first one
    added, the rows are added again, and a table without duplicate keys
    stays so.  For the preview of a parsed file whose priorities fit the
    column the commit succeeds and adds one row per valid item. *)
Theorem msl_commit_twice_equals_once
    (parsedItems : list MSLCsvUpload.CsvMSLItem) (w : World) :
  faults w = [] ->
  let valid := MSLCsvUpload.validItems parsedItems in
  let cats := MSLCsvUpload.categoriesToUpdate valid in
  let r1 := MSLCsvUpload.uploadMSL parsedItems w in
  let r2 := MSLCsvUpload.uploadMSL parsedItems r1.2 in
  msl_items r2.2 = msl_items r1.2 /\
  r2.1 = r1.1 /\
  (exists inserted,
      msl_items r1.2 = Spec.itemsOutside cats (msl_items w) ++ inserted /\
      msl_items (MSLCsvUpload.deleteExisting cats r1.2).2
      = Spec.itemsOutside cats (msl_items w) /\
      msl_items r2.2 = Spec.itemsOutside cats (msl_items w) ++ inserted) /\
  (NoDup (map key (msl_items w)) -> NoDup (map key (msl_items r2.2))) /\
  (forall text,
      MSLCsvUpload.parseCsv text = MSLCsvUpload.Preview parsedItems ->
      (forall it p, it ∈ valid -> MSLCsvUpload.priority it = Some p ->
                    (p <= 2147483647)%Z) ->
      r1.1 = Done true /\
      exists new,
        acceptAll (MSLCsvUpload.insertData valid) = Some new /\
        length new = MSLCsvUpload.validCount parsedItems /\
        msl_items r1.2 = Spec.itemsOutside cats (msl_items w) ++ new).
Proof.
  intros Hq valid cats r1 r2.
  assert (E1 := uploadMSL_quiet parsedItems w Hq). cbv zeta in E1.
  fold valid cats r1 in E1.
  assert (Hq1 : faults r1.2 = []) by (by rewrite E1).
  assert (E2 := uploadMSL_quiet parsedItems r1.2 Hq1). cbv zeta in E2.
  fold valid cats r2 in E2.
  assert (T1 : msl_items r1.2 = Spec.committed valid (msl_items w)) by (by rewrite E1).
  assert (T2 : msl_items r2.2 = Spec.committed valid (msl_items w)).
  { rewrite E2. simpl. rewrite T1. apply committed_idem. }
  assert (B1 : Spec.itemsOutside cats (msl_items r1.2)
               = Spec.itemsOutside cats (msl_items w)).
  { rewrite T1. apply itemsOutside_committed. }
  split; [by rewrite T1, T2|].
  split; [rewrite E1, E2; simpl; by rewrite B1|].
  split; [|split].
  - assert (Hins : exists inserted,
               Spec.committed valid (msl_items w)
               = Spec.itemsOutside cats (msl_items w) ++ inserted).
    { unfold Spec.committed. fold cats.
      destruct (acceptAll (MSLCsvUpload.insertData valid)) as [new|].
      - destruct (uniqueWith _ new); [by exists new|].
        exists []. by rewrite app_nil_r.
      - exists []. by rewrite app_nil_r. }
    destruct Hins as [inserted Hins]. exists inserted.
    split; [by rewrite T1|]. split; [|by rewrite T2].
    rewrite deleteExisting_quiet by assumption. simpl. exact B1.
  - intros Hnd. rewrite T2. by apply committed_NoDup.
  - intros text Hparse Hfit.
    destruct (parseCsv_valid text parsedItems Hparse) as [Hnd Hprio].
    fold valid in Hnd, Hprio.
    destruct (acceptAll_valid valid) as [new Hnew].
    { intros it Hit. destruct (Hprio it Hit) as (p & Hp & Hge).
      exists p. split; [exact Hp|]. split; [exact Hge|]. by apply (Hfit it). }
    pose proof (uniqueWith_after_delete valid (msl_items w) new Hnd Hnew) as Hu.
    fold cats in Hu.
    split; [by rewrite E1, Hnew, Hu|].
    exists new. split; [exact Hnew|]. split.
    + destruct (acceptAll_keys _ _ Hnew) as [_ ->].
      unfold MSLCsvUpload.insertData. by rewrite length_map.
    + rewrite T1. unfold Spec.committed. fold cats. by rewrite Hnew, Hu.
Qed.

End MslIdempotence.

(** ** The product and store uploads *)

Section UpsertFacts.
Import Rest.

Lemma exchanges_rows {Row World} (request : Row -> World -> Request) send rows w :
  map (fun e => e.1.1) (Spec.exchanges request send rows w).1 = rows.
Proof.
  revert w. induction rows as [|row rows IH]; intros w; simpl; [reflexivity|].
  destruct (send (request row w) w) as [reply w'].
  specialize (IH w'). destruct (Spec.exchanges request send rows w') as [more w''].
  simpl in *. by rewrite IH.
Qed.

Lemma exchanges_requests {Row World} (request : Row -> World -> Request) send rows w :
  Forall (fun e => exists w0, e.1.2 = request e.1.1 w0)
    (Spec.exchanges request send rows w).1.
Proof.
  revert w. induction rows as [|row rows IH]; intros w; simpl; [constructor|].
  destruct (send (request row w) w) as [reply w'].
  specialize (IH w'). destruct (Spec.exchanges request send rows w') as [more w''].
  simpl in *. constructor; [by exists w|exact IH].
Qed.

Lemma tally_total {Row} (isUpdate : Row -> bool) (l : list (Row * Request * Reply)) :
  (added (Spec.tally isUpdate l) + updated (Spec.tally isUpdate l)
   + failed (Spec.tally isUpdate l) = length l)%nat.
Proof.
  unfold Spec.tally, Spec.count. simpl.
  induction l as [|[[row q] reply] l IH]; simpl; [reflexivity|].
  destruct (isUpdate row), (isOk reply); simpl; lia.
Qed.

Section Products.
Import ProductCsvUpload.
Variable World : Type.
Variable send : Request -> World -> Reply * World.
Variable now : World -> string.

Lemma products_loop rows acc w :
  uploadLoop World send now rows acc w
  = (Spec.addCounts acc
       (Spec.tally (fun p => Spec.isUpdate (action p))
          (Spec.exchanges (fun p w => requestFor World now p w) send rows w).1),
     (Spec.exchanges (fun p w => requestFor World now p w) send rows w).2).
Proof.
  revert acc w. induction rows as [|product rows IH]; intros acc w; simpl.
  - destruct acc; unfold Spec.addCounts, Spec.tally, Spec.count; simpl.
    by rewrite !Nat.add_0_r.
  - unfold uploadStep.
    destruct (action product) as [[|]|] eqn:Hact;
      destruct (send (requestFor World now product w) w) as [[|e|e] w'];
      rewrite IH;
      destruct (Spec.exchanges _ send rows w') as [more w''];
      unfold Spec.addCounts, Spec.tally, Spec.count; simpl; rewrite Hact; simpl;
      f_equal; f_equal; lia.
Qed.

Lemma products_request_shape product w :
  Spec.requestShape "products" "sku_code" (sku_code product)
    (Spec.isUpdate (action product)) (requestFor World now product w) = true.
Proof.
  unfold requestFor, Spec.requestShape, Spec.isUpdate.
  destruct (action product) as [[|]|]; simpl;
    rewrite ?String.eqb_refl; try reflexivity;
    unfold insertRow; simpl; rewrite lookup_insert_eq; apply String.eqb_refl.
Qed.

End Products.

Section Stores.
Import StoreCsvUpload.
Variable parseFloat : string -> Number.
Variable World : Type.
Variable send : Request -> World -> Reply * World.
Variable userId : string.

Lemma stores_loop rows acc w :
  uploadLoop parseFloat World send userId rows acc w
  = (Spec.addCounts acc
       (Spec.tally (fun s => Spec.isUpdate (action s))
          (Spec.exchanges (fun s (_ : World) => requestFor parseFloat userId s)
             send rows w).1),
     (Spec.exchanges (fun s (_ : World) => requestFor parseFloat userId s)
        send rows w).2).
Proof.
  revert acc w. induction rows as [|store rows IH]; intros acc w; simpl.
  - destruct acc; unfold Spec.addCounts, Spec.tally, Spec.count; simpl.
    by rewrite !Nat.add_0_r.
  - unfold uploadStep.
    destruct (action store) as [[|]|] eqn:Hact;
      destruct (send (requestFor parseFloat userId store) w) as [[|e|e] w'];
      rewrite IH;
      destruct (Spec.exchanges _ send rows w') as [more w''];
      unfold Spec.addCounts, Spec.tally, Spec.count; simpl; rewrite Hact; simpl;
      f_equal; f_equal; lia.
Qed.

Lemma stores_request_shape store :
  Spec.requestShape "stores" "store_code" (kode_toko store)
    (Spec.isUpdate (action store)) (requestFor parseFloat userId store) = true.
Proof.
  unfold requestFor, Spec.requestShape, Spec.isUpdate.
  destruct (action store) as [[|]|]; simpl;
    rewrite ?String.eqb_refl; try reflexivity;
    unfold storeData; simpl; rewrite lookup_insert_eq; apply String.eqb_refl.
Qed.

End Stores.

Lemma addCounts_zero r : Spec.addCounts (mkUploadResult 0 0 0) r = r.
Proof. by destruct r. Qed.

(** C8.  Both upsert commits send exactly one request per valid row, in
    order and whatever the earlier replies were: an update filtered by the
    key of the row when its action is UPDATE, an insert carrying that key
    otherwise.  The result counts the successful inserts as added, the
    successful updates as updated and every other reply, error or
    rejection, as failed; the three counters add up to the number of
    valid rows. *)
Theorem upsert_commit_processes_every_row :
  (forall (World : Type) (send : Request -> World -> Reply * World)
          (now : World -> string)
          (parsedProducts : list ProductCsvUpload.CsvProduct) (w : World),
      let valid := List.filter ProductCsvUpload.isValid parsedProducts in
      let run :=
        Spec.exchanges (fun p w => ProductCsvUpload.requestFor World now p w)
          send valid w in
      let result := ProductCsvUpload.uploadProducts World send now parsedProducts w in
      result
      = (Spec.tally (fun p => Spec.isUpdate (ProductCsvUpload.action p)) run.1, run.2) /\
      map (fun e => e.1.1) run.1 = valid /\
      Forall (fun e =>
                Spec.requestShape "products" "sku_code"
                  (ProductCsvUpload.sku_code e.1.1)
                  (Spec.isUpdate (ProductCsvUpload.action e.1.1)) e.1.2 = true) run.1 /\
      (added result.1 + updated result.1 + failed result.1 = length valid)%nat) /\
  (forall (parseFloat : string -> Number) (World : Type)
          (send : Request -> World -> Reply * World) (userId : string)
          (parsedStores : list StoreCsvUpload.CsvStore) (w : World),
      let valid := List.filter StoreCsvUpload.isValid parsedStores in
      let run :=
        Spec.exchanges
          (fun s (_ : World) => StoreCsvUpload.requestFor parseFloat userId s)
          send valid w in
      let result :=
        StoreCsvUpload.uploadStores parseFloat World send userId parsedStores w in
      result
      = (Spec.tally (fun s => Spec.isUpdate (StoreCsvUpload.action s)) run.1, run.2) /\
      map (fun e => e.1.1) run.1 = valid /\
      Forall (fun e =>
                Spec.requestShape "stores" "store_code"
                  (StoreCsvUpload.kode_toko e.1.1)
                  (Spec.isUpdate (StoreCsvUpload.action e.1.1)) e.1.2 = true) run.1 /\
      (added result.1 + updated result.1 + failed result.1 = length valid)%nat).
Proof.
  split.
  - intros World send now parsedProducts w valid run result.
    assert (Hres : result
                   = (Spec.tally (fun p => Spec.isUpdate (ProductCsvUpload.action p)) run.1,
                      run.2)).
    { subst result run. unfold ProductCsvUpload.uploadProducts. fold valid.
      by rewrite products_loop, addCounts_zero. }
    assert (Hrows : map (fun e => e.1.1) run.1 = valid) by apply exchanges_rows.
    split; [exact Hres|]. split; [exact Hrows|]. split.
    + eapply Forall_impl; [apply exchanges_requests|].
      intros e [w0 ->]. apply products_request_shape.
    + rewrite Hres. cbn [fst]. rewrite tally_total.
      by rewrite <- (List.length_map (fun e => e.1.1)), Hrows.
  - intros parseFloat World send userId parsedStores w valid run result.
    assert (Hres : result
                   = (Spec.tally (fun s => Spec.isUpdate (StoreCsvUpload.action s)) run.1,
                      run.2)).
    { subst result run. unfold StoreCsvUpload.uploadStores. fold valid.
      by rewrite stores_loop, addCounts_zero. }
    assert (Hrows : map (fun e => e.1.1) run.1 = valid) by apply exchanges_rows.
    split; [exact Hres|]. split; [exact Hrows|]. split.
    + eapply Forall_impl; [apply exchanges_requests|].
      intros e [w0 ->]. apply stores_request_shape.
    + rewrite Hres. cbn [fst]. rewrite tally_total.
      by rewrite <- (List.length_map (fun e => e.1.1)), Hrows.
Qed.

End UpsertFacts.

Section BrandDiscount.
Import Rest ProductCsvUpload.
Variable World : Type.
Variable send : Request -> World -> Reply * World.
Variable now : World -> string.

Lemma updatePatch_columns product w :
  dom (updatePatch World now product w)
  = list_to_set ["product_name"; "category"; "unit_price"; "updated_at"].
Proof. unfold updatePatch. by rewrite dom_list_to_map_L. Qed.

Lemma insertRow_columns product :
  dom (insertRow product)
  = list_to_set ["sku_code"; "product_name"; "category"; "unit_price"; "is_active"].
Proof. unfold insertRow. by rewrite dom_list_to_map_L. Qed.

Lemma payload_without column product w :
  column ∉ ["sku_code"; "product_name"; "category"; "unit_price"; "is_active";
            "updated_at"] ->
  Spec.payload (requestFor World now product w) !! column = None.
Proof.
  intros Hcol. apply not_elem_of_dom.
  unfold requestFor. destruct (action product) as [[|]|]; simpl;
    rewrite ?updatePatch_columns, ?insertRow_columns;
    intros Hin; apply elem_of_list_to_set in Hin; apply Hcol;
    set_unfold; tauto.
Qed.

Lemma requestFor_same a b w :
  Spec.sameButBrandDiscount a b ->
  requestFor World now a w = requestFor World now b w.
Proof.
  intros (Hsku & Hname & Hcat & Hprice & _ & _ & Hact).
  unfold requestFor, updatePatch, insertRow.
  by rewrite Hsku, Hname, Hcat, Hprice, Hact.
Qed.

Lemma uploadLoop_same rows rows' acc w :
  Forall2 Spec.sameButBrandDiscount rows rows' ->
  uploadLoop World send now rows acc w = uploadLoop World send now rows' acc w.
Proof.
  intros Hsame. revert acc w.
  induction Hsame as [|a b rows rows' Hab _ IH]; intros acc w; simpl; [reflexivity|].
  assert (Hstep : uploadStep World send now a acc w = uploadStep World send now b acc w).
  { unfold uploadStep. rewrite (requestFor_same a b w Hab).
    destruct Hab as (_ & _ & _ & _ & _ & _ & ->). reflexivity. }
  rewrite Hstep. destruct (uploadStep World send now b acc w). apply IH.
Qed.

Lemma filter_valid_same rows rows' :
  Forall2 Spec.sameButBrandDiscount rows rows' ->
  Forall2 Spec.sameButBrandDiscount (List.filter isValid rows) (List.filter isValid rows').
Proof.
  induction 1 as [|a b rows rows' Hab _ IH]; simpl; [constructor|].
  pose proof Hab as (_ & _ & _ & _ & Hv & _ & _). rewrite Hv.
  destruct (isValid b); [constructor|]; assumption.
Qed.

(** C10.  The object sent for a product row has exactly the columns
    [product_name], [category], [unit_price], [updated_at] (update) or
    [sku_code], [product_name], [category], [unit_price], [is_active]
    (insert); BRAND and DISCOUNT are in neither, and changing them in
    the parsed rows changes nothing of the run, whatever the store does.
    On a table, an accepted update keeps every column outside its patch
    in every row, and an accepted insert adds a row in which every
    column outside the five is unset. *)
Theorem product_commit_never_writes_brand_or_discount :
  (forall product w,
      dom (updatePatch World now product w)
      = list_to_set ["product_name"; "category"; "unit_price"; "updated_at"] /\
      dom (insertRow product)
      = list_to_set ["sku_code"; "product_name"; "category"; "unit_price"; "is_active"] /\
      Spec.payload (requestFor World now product w) !! "brand" = None /\
      Spec.payload (requestFor World now product w) !! "discount" = None) /\
  (forall parsedProducts parsedProducts' w,
      Forall2 Spec.sameButBrandDiscount parsedProducts parsedProducts' ->
      uploadProducts World send now parsedProducts w
      = uploadProducts World send now parsedProducts' w) /\
  (forall product w table column,
      column ∉ ["sku_code"; "product_name"; "category"; "unit_price"; "is_active";
                "updated_at"] ->
      match action product with
      | Some UPDATE =>
          map (fun row : Payload => row !! column)
            (Table.apply (requestFor World now product w) table)
          = map (fun row : Payload => row !! column) table
      | _ =>
          exists row,
            Table.apply (requestFor World now product w) table = table ++ [row] /\
            row !! column = None
      end).
Proof.
  split; [|split].
  - intros product w.
    split; [apply updatePatch_columns|]. split; [apply insertRow_columns|].
    split; apply payload_without; intros Hin;
      repeat (apply elem_of_cons in Hin as [Hin|Hin]; [discriminate Hin|]);
      by apply elem_of_nil in Hin.
  - intros parsedProducts parsedProducts' w Hsame. unfold uploadProducts.
    apply uploadLoop_same, filter_valid_same, Hsame.
  - intros product w table column Hcol.
    pose proof (payload_without column product w Hcol) as Hnone.
    unfold requestFor in *.
    destruct (action product) as [[|]|]; simpl in *.
    + eexists. split; [reflexivity|exact Hnone].
    + rewrite map_map. apply map_ext. intros row.
      match goal with
      | |- context [if ?b then _ else _] => destruct b; [|reflexivity]
      end.
      by rewrite lookup_union_r.
    + eexists. split; [reflexivity|exact Hnone].
Qed.

End BrandDiscount.

(** ** Instances *)

(** A preview that touches category A only, against a table that also
    holds an item of category Z; the first request is scheduled to fail. *)
Lemma msl_commit_leaves_other_categories_witness :
  let parsedItems :=
    [MSLCsvUpload.mkCsvMSLItem "A" "S1" "Serum" (Some 1%Z) "" true ""] in
  let w :=
    Supabase.mkWorld
      [Supabase.mkMSLItem "A" "S0" "Old" 1 None; Supabase.mkMSLItem "Z" "S9" "Kept" 2 None]
      [true] [] in
  ("Z" ∉ map MSLCsvUpload.category (MSLCsvUpload.validItems parsedItems)) /\
  Spec.itemsOf "Z" (Supabase.msl_items (MSLCsvUpload.uploadMSL parsedItems w).2)
  = [Supabase.mkMSLItem "Z" "S9" "Kept" 2 None].
Proof.
  intros parsedItems w.
  assert (Hz : "Z" ∉ map MSLCsvUpload.category (MSLCsvUpload.validItems parsedItems)).
  { simpl. intros Hin.
    apply elem_of_cons in Hin as [Hin|Hin]; [discriminate Hin|].
    by apply elem_of_nil in Hin. }
  split; [exact Hz|].
  destruct (msl_commit_leaves_other_categories parsedItems w "Z" Hz) as [Hframe _].
  rewrite Hframe. reflexivity.
Defined.

(** The same preview committed twice against a store that answers every
    request. *)
Lemma msl_commit_twice_equals_once_witness :
  let parsedItems :=
    [MSLCsvUpload.mkCsvMSLItem "A" "S1" "Serum" (Some 1%Z) "" true "";
     MSLCsvUpload.mkCsvMSLItem "A" "S2" "Toner" (Some 2%Z) "new" true ""] in
  let w :=
    Supabase.mkWorld
      [Supabase.mkMSLItem "A" "S0" "Old" 1 None; Supabase.mkMSLItem "Z" "S9" "Kept" 2 None]
      [] [] in
  Supabase.faults w = [] /\
  Supabase.msl_items
    (MSLCsvUpload.uploadMSL parsedItems (MSLCsvUpload.uploadMSL parsedItems w).2).2
  = Supabase.msl_items (MSLCsvUpload.uploadMSL parsedItems w).2.
Proof.
  intros parsedItems w. split; [reflexivity|].
  destruct (msl_commit_twice_equals_once parsedItems w eq_refl) as [Hsame _].
  exact Hsame.
Defined.

(** One product row, once with its parsed BRAND and DISCOUNT and once with
    others, against a store that accepts everything. *)
Lemma product_commit_never_writes_brand_or_discount_witness :
  let send := fun (_ : Rest.Request) (w : unit) => (Rest.Ok, w) in
  let now := fun _ : unit => "2025-07-17T00:00:00.000Z" in
  let a :=
    ProductCsvUpload.mkCsvProduct "SKU001" "Mascara" "L'Oreal" "Makeup"
      (Some (185000 # 1)) (Some (10 # 1)) true "" (Some Rest.UPDATE) in
  let b :=
    ProductCsvUpload.mkCsvProduct "SKU001" "Mascara" "Garnier" "Makeup"
      (Some (185000 # 1)) (Some (0 # 1)) true "" (Some Rest.UPDATE) in
  Forall2 Spec.sameButBrandDiscount [a] [b] /\
  ProductCsvUpload.uploadProducts unit send now [a] tt
  = ProductCsvUpload.uploadProducts unit send now [b] tt.
Proof.
  intros send now a b.
  assert (Hsame : Forall2 Spec.sameButBrandDiscount [a] [b]).
  { constructor; [|constructor]. repeat split. }
  split; [exact Hsame|].
  destruct (product_commit_never_writes_brand_or_discount unit send now) as (_ & Hrun & _).
  exact (Hrun [a] [b] tt Hsame).
Defined.

(** ** Strings *)

Section StringFacts.
Import Js Spec.

Lemma app_cons c a b : String c a +:+ b = String c (a +:+ b).
Proof. reflexivity. Qed.

Lemma app_nil_l' b : EmptyString +:+ b = b.
Proof. reflexivity. Qed.

Lemma app_empty_r a : a +:+ EmptyString = a.
Proof. induction a as [|c a IH]; [reflexivity|]. by rewrite app_cons, IH. Qed.

Lemma app_assoc' a b c : (a +:+ b) +:+ c = a +:+ (b +:+ c).
Proof. induction a as [|d a IH]; [reflexivity|]. by rewrite !app_cons, IH. Qed.

Lemma hasChar_app c a b : hasChar c (a +:+ b) = hasChar c a || hasChar c b.
Proof.
  induction a as [|d a IH]; [reflexivity|].
  rewrite app_cons. simpl. by rewrite IH, orb_assoc.
Qed.

Lemma split_cons sep c s :
  split sep (String c s)
  = if Ascii.eqb c sep then EmptyString :: split sep s
    else match split sep s with
         | [] => [String c EmptyString]
         | h :: t => String c h :: t
         end.
Proof. reflexivity. Qed.

Lemma split_not_nil sep s : split sep s <> [].
Proof.
  destruct s as [|c s]; simpl; [discriminate|].
  destruct (Ascii.eqb c sep); [discriminate|].
  destruct (split sep s); discriminate.
Qed.

Lemma split_no_sep sep s : hasChar sep s = false -> split sep s = [s].
Proof.
  induction s as [|c s IH]; simpl; [reflexivity|].
  intros [Hc Hs]%orb_false_iff. rewrite Hc, IH by exact Hs. reflexivity.
Qed.

Lemma split_app_sep sep a b :
  hasChar sep a = false -> split sep (a +:+ String sep b) = a :: split sep b.
Proof.
  induction a as [|c a IH]; simpl.
  - intros _. rewrite ?app_nil_l'. simpl. by rewrite Ascii.eqb_refl.
  - intros [Hc Ha]%orb_false_iff. rewrite ?app_cons. simpl.
    rewrite Hc, IH by exact Ha. reflexivity.
Qed.

Lemma join_cons sep x y l : join sep (x :: y :: l) = x +:+ sep +:+ join sep (y :: l).
Proof. reflexivity. Qed.

Lemma join_split sep s : join (String sep EmptyString) (split sep s) = s.
Proof.
  induction s as [|c s IH]; simpl; [reflexivity|].
  destruct (Ascii.eqb_spec c sep) as [->|Hne].
  - destruct (split sep s) as [|h t] eqn:Hs; [by apply split_not_nil in Hs|].
    rewrite join_cons, IH. reflexivity.
  - destruct (split sep s) as [|h t] eqn:Hs; [by apply split_not_nil in Hs|].
    destruct t as [|h' t].
    + simpl in *. by rewrite IH.
    + rewrite join_cons in *. rewrite app_cons. by rewrite IH.
Qed.

Lemma split_pieces sep s : Forall (fun piece => hasChar sep piece = false) (split sep s).
Proof.
  induction s as [|c s IH]; simpl; [by repeat constructor|].
  destruct (Ascii.eqb c sep) eqn:Hc; [by constructor|].
  destruct (split sep s) as [|h t]; [by repeat constructor; simpl; rewrite Hc|].
  apply Forall_cons in IH as [Hh Ht]. constructor; [|exact Ht].
  simpl. by rewrite Hc, Hh.
Qed.

(** [trimStart] removes a prefix of white space and stops at the first
    other character. *)
Lemma trimStart_spec s :
  exists w, s = w +:+ trimStart s /\ allSpace w = true /\
            startsWith Ascii.is_space (trimStart s) = false.
Proof.
  induction s as [|c s (w & Hs & Hw & Hf)]; simpl.
  - by exists EmptyString.
  - destruct (Ascii.is_space c) eqn:Hc.
    + exists (String c w). rewrite app_cons, <- Hs. simpl. by rewrite Hc, Hw.
    + exists EmptyString. simpl. by rewrite Hc.
Qed.

(** [trimEnd] removes a suffix of white space and stops at the last
    other character. *)
Lemma trimEnd_spec s :
  exists w, s = trimEnd s +:+ w /\ allSpace w = true /\
            endsWith Ascii.is_space (trimEnd s) = false.
Proof.
  induction s as [|c s (w & Hs & Hw & Hf)]; simpl.
  - by exists EmptyString.
  - destruct (trimEnd s) as [|d r] eqn:Hr.
    + rewrite ?app_nil_l' in Hs. subst w.
      destruct (Ascii.is_space c) eqn:Hc.
      * exists (String c s). repeat split; simpl; by rewrite ?Hc, ?Hw.
      * exists s. repeat split; simpl; by rewrite ?Hc, ?Hw.
    + exists w. rewrite app_cons, <- Hs. by repeat split.
Qed.

Lemma trimEnd_keeps_start s :
  startsWith Ascii.is_space s = false ->
  startsWith Ascii.is_space (trimEnd s) = false.
Proof.
  destruct s as [|c s]; simpl; [reflexivity|]. intros Hc.
  destruct (trimEnd s); simpl; by rewrite ?Hc.
Qed.

(** [trim]: the piece is its trimmed core between two runs of white space. *)
Lemma trim_spec s :
  exists w1 w2,
    s = w1 +:+ trim s +:+ w2 /\ allSpace w1 = true /\ allSpace w2 = true /\
    startsWith Ascii.is_space (trim s) = false /\
    endsWith Ascii.is_space (trim s) = false.
Proof.
  unfold trim.
  destruct (trimStart_spec s) as (w1 & Hs & Hw1 & Hstart).
  destruct (trimEnd_spec (trimStart s)) as (w2 & He & Hw2 & Hend).
  exists w1, w2. rewrite <- He. repeat split; try assumption.
  by apply trimEnd_keeps_start.
Qed.

Lemma dropTrailingQuote_snoc m :
  dropTrailingQuote (m +:+ String QUOTE EmptyString) = m.
Proof.
  induction m as [|c m IH]; [reflexivity|].
  rewrite app_cons. simpl.
  destruct (m +:+ String QUOTE EmptyString) eqn:Hm.
  - destruct m; discriminate.
  - by rewrite IH.
Qed.

Lemma dropTrailingQuote_none s :
  endsWith isQuote s = false -> dropTrailingQuote s = s.
Proof.
  induction s as [|c s IH]; simpl; [reflexivity|].
  destruct s as [|d s].
  - unfold isQuote. by intros ->.
  - intros H. by rewrite IH.
Qed.

Lemma stripQuotes_quoted m : stripQuotes (MSLManagement.quoted m) = m.
Proof.
  unfold stripQuotes, MSLManagement.quoted. simpl.
  apply dropTrailingQuote_snoc.
Qed.

End StringFacts.

(** ** Cell decoding *)

Section CellDecoding.
Import Js Spec.

Lemma dropLeadingQuote_none s :
  startsWith isQuote s = false -> dropLeadingQuote s = s.
Proof.
  destruct s as [|c s]; simpl; [reflexivity|]. unfold isQuote. by intros ->.
Qed.

Lemma cell_cases piece :
  (forall m, trim piece = MSLManagement.quoted m -> cell piece = m) /\
  (startsWith isQuote (trim piece) = false ->
   endsWith isQuote (trim piece) = false -> cell piece = trim piece) /\
  (forall m, trim piece = String QUOTE m -> endsWith isQuote m = false ->
             cell piece = m) /\
  (forall m, trim piece = m +:+ String QUOTE EmptyString ->
             startsWith isQuote m = false -> cell piece = m).
Proof.
  unfold cell. split; [|split; [|split]].
  - intros m ->. apply stripQuotes_quoted.
  - intros Hs He. unfold stripQuotes.
    rewrite dropLeadingQuote_none by exact Hs. by apply dropTrailingQuote_none.
  - intros m -> He. unfold stripQuotes. simpl. by apply dropTrailingQuote_none.
  - intros m -> Hs. unfold stripQuotes.
    destruct m as [|c m]; [reflexivity|].
    rewrite dropLeadingQuote_none by exact Hs. apply dropTrailingQuote_snoc.
Qed.

(** C7, as the code has it.  An ASCII data line of the three parsers is
    cut at every comma (the pieces joined by commas give the line back and
    hold no comma) and there is one cell per piece, in order.  For the
    product parser the cell is the piece without the white space around
    it.  For the MSL and store parsers it is that trimmed piece without a
    double quote at its start and without one at its end, each removed
    when present: a pair of enclosing quotes is stripped, and so is a
    lone quote. *)
Theorem cell_decoding_of_msl_and_store_lines (line : string) :
  asciiText line = true ->
  let pieces := split COMMA line in
  line = join "," pieces /\
  Forall (fun piece => hasChar COMMA piece = false) pieces /\
  MSLCsvUpload.rowValues line = map cell pieces /\
  StoreCsvUpload.rowValues line = map cell pieces /\
  ProductCsvUpload.rowValues line = map trim pieces /\
  forall piece,
    asciiText piece = true ->
    (exists w1 w2,
        piece = w1 +:+ trim piece +:+ w2 /\
        allSpace w1 = true /\ allSpace w2 = true /\
        startsWith Ascii.is_space (trim piece) = false /\
        endsWith Ascii.is_space (trim piece) = false) /\
    (forall m, trim piece = MSLManagement.quoted m -> cell piece = m) /\
    (startsWith isQuote (trim piece) = false ->
     endsWith isQuote (trim piece) = false -> cell piece = trim piece) /\
    (forall m, trim piece = String QUOTE m -> endsWith isQuote m = false ->
               cell piece = m) /\
    (forall m, trim piece = m +:+ String QUOTE EmptyString ->
               startsWith isQuote m = false -> cell piece = m).
Proof.
  intros _ pieces. split; [symmetry; apply join_split|].
  split; [apply split_pieces|].
  split; [reflexivity|]. split; [reflexivity|].
  split; [reflexivity|].
  intros piece _. split; [apply trim_spec|apply cell_cases].
Qed.

End CellDecoding.

(** A store name between quotes and spaces, as in the store template. *)
Lemma cell_decoding_of_msl_and_store_lines_witness :
  let piece := " " +:+ MSLManagement.quoted "Beauty Corner" +:+ " " in
  Spec.asciiText piece = true /\
  Js.trim piece = MSLManagement.quoted "Beauty Corner" /\
  Spec.cell piece = "Beauty Corner" /\
  ProductCsvUpload.rowValues piece = [MSLManagement.quoted "Beauty Corner"].
Proof.
  intros piece.
  assert (Ha : Spec.asciiText piece = true) by reflexivity.
  assert (Ht : Js.trim piece = MSLManagement.quoted "Beauty Corner") by reflexivity.
  split; [exact Ha|]. split; [exact Ht|].
  destruct (cell_decoding_of_msl_and_store_lines piece Ha)
    as (_ & _ & _ & _ & Hproducts & Hcell).
  destruct (Hcell piece Ha) as (_ & Hpair & _).
  split; [exact (Hpair "Beauty Corner" Ht)|].
  rewrite Hproducts. reflexivity.
Defined.

(** C7 as worded fails twice: the MSL parser also strips a quote that has
    no partner, and the product parser strips no quote at all. *)
Lemma cell_decoding_counterexample :
  MSLCsvUpload.rowValues (String Js.QUOTE "LOR001")
    <> Spec.claimedCells (String Js.QUOTE "LOR001") /\
  ProductCsvUpload.rowValues (MSLManagement.quoted "SKU001")
    <> Spec.claimedCells (MSLManagement.quoted "SKU001").
Proof. split; vm_compute; discriminate. Qed.

(** ** Structural failures *)

Section Structural.
Import Js Spec.

Lemma is_space_LF : Ascii.is_space LF = true.
Proof. reflexivity. Qed.

Lemma nonBlank_cons c h : nonBlank (String c h) = negb (Ascii.is_space c) || nonBlank h.
Proof.
  unfold nonBlank, trim. simpl.
  destruct (Ascii.is_space c) eqn:Hc; [reflexivity|]. simpl. rewrite Hc.
  by destruct (trimEnd h).
Qed.

Lemma count_lines_space c s :
  Ascii.is_space c = true ->
  count nonBlank (split LF (String c s)) = count nonBlank (split LF s).
Proof.
  intros Hc. unfold count. simpl.
  destruct (Ascii.eqb c LF); [reflexivity|].
  destruct (split LF s) as [|h t] eqn:Hs; [by apply split_not_nil in Hs|].
  cbn [List.filter]. rewrite nonBlank_cons, Hc. simpl negb. simpl orb.
  by destruct (nonBlank h).
Qed.

Lemma count_lines_trimStart s :
  count nonBlank (split LF (trimStart s)) = count nonBlank (split LF s).
Proof.
  induction s as [|c s IH]; [reflexivity|]. simpl trimStart.
  destruct (Ascii.is_space c) eqn:Hc; [|reflexivity].
  by rewrite IH, count_lines_space.
Qed.

(** The lines of [trimEnd s] against the lines of [s]: the first lines
    are blank together and the others count the same. *)
Lemma lines_trimEnd s :
  exists h t h2 t2,
    split LF s = h :: t /\ split LF (trimEnd s) = h2 :: t2 /\
    nonBlank h = nonBlank h2 /\ count nonBlank t = count nonBlank t2.
Proof.
  induction s as [|c s (h & t & h2 & t2 & Hs & Hr & Hh & Ht)].
  - by exists EmptyString, [], EmptyString, [].
  - simpl trimEnd. simpl split. rewrite Hs.
    destruct (trimEnd s) as [|d r] eqn:Htrim.
    + simpl in Hr. injection Hr as <- <-.
      destruct (Ascii.is_space c) eqn:Hc.
      * destruct (Ascii.eqb c LF).
        -- exists EmptyString, (h :: t), EmptyString, [].
           unfold count in *. simpl. rewrite Hh. simpl. by rewrite Ht.
        -- exists (String c h), t, EmptyString, [].
           rewrite nonBlank_cons, Hc, Hh. by repeat split.
      * assert (Hne : Ascii.eqb c LF = false).
        { destruct (Ascii.eqb_spec c LF) as [->|]; [|reflexivity].
          by rewrite is_space_LF in Hc. }
        rewrite Hne. exists (String c h), t, (String c EmptyString), [].
        simpl. rewrite Hne. rewrite !nonBlank_cons, Hc. by repeat split.
    + rewrite (split_cons LF c (String d r)), Hr.
      destruct (Ascii.eqb c LF).
      * exists EmptyString, (h :: t), EmptyString, (h2 :: t2).
        unfold count in *. simpl. rewrite Hh.
        destruct (nonBlank h2); simpl; by rewrite Ht.
      * exists (String c h), t, (String c h2), t2.
        rewrite !nonBlank_cons, Hh. by repeat split.
Qed.

Lemma count_lines_trimEnd s :
  count nonBlank (split LF (trimEnd s)) = count nonBlank (split LF s).
Proof.
  destruct (lines_trimEnd s) as (h & t & h2 & t2 & -> & -> & Hh & Ht).
  unfold count in *. simpl. rewrite Hh. destruct (nonBlank h2); simpl; by rewrite Ht.
Qed.

Lemma count_lines_trim text :
  count nonBlank (split LF (trim text)) = length (nonEmptyLines text).
Proof.
  unfold trim, nonEmptyLines.
  by rewrite count_lines_trimEnd, count_lines_trimStart.
Qed.

Lemma endsWith_cons p c d s : endsWith p (String c (String d s)) = endsWith p (String d s).
Proof. reflexivity. Qed.

Lemma last_line_nonBlank r :
  r <> EmptyString -> endsWith Ascii.is_space r = false ->
  nonBlank (List.last (split LF r) EmptyString) = true.
Proof.
  induction r as [|c r IH]; [congruence|]. intros _.
  destruct r as [|d r].
  - simpl. intros Hc.
    assert (Hne : Ascii.eqb c LF = false).
    { destruct (Ascii.eqb_spec c LF) as [->|]; [|reflexivity].
      by rewrite is_space_LF in Hc. }
    rewrite Hne. simpl. by rewrite nonBlank_cons, Hc.
  - rewrite endsWith_cons. intros He. specialize (IH ltac:(discriminate) He).
    remember (String d r) as r' eqn:Hr'. simpl split.
    destruct (split LF r') as [|h t] eqn:Hs; [by apply split_not_nil in Hs|].
    destruct (Ascii.eqb c LF).
    + exact IH.
    + destruct t as [|h' t]; [|exact IH].
      simpl in *. by rewrite nonBlank_cons, IH, orb_true_r.
Qed.

Lemma count_member {A} (f : A -> bool) (l : list A) x :
  In x l -> f x = true -> (1 <= count f l)%nat.
Proof.
  unfold count. induction l as [|y l IH]; simpl; [tauto|].
  intros [->|Hin] Hx.
  - rewrite Hx. simpl. lia.
  - specialize (IH Hin Hx). destruct (f y); simpl; lia.
Qed.

Lemma last_in_tail {A} (h : A) (t : list A) d :
  t <> [] -> In (List.last (h :: t) d) t.
Proof.
  revert h. induction t as [|x t IH]; intros h Hne; [congruence|].
  destruct t as [|y t].
  - simpl. by left.
  - right. apply (IH x). discriminate.
Qed.

(** On a trimmed text, the test [lines.length < 2] counts the non-empty
    lines of the text. *)
Lemma lines_test text :
  (length (split LF (trim text)) <? 2)%nat = (length (nonEmptyLines text) <? 2)%nat.
Proof.
  rewrite <- count_lines_trim.
  destruct (trim_spec text) as (_ & _ & _ & _ & _ & Hstart & Hend).
  set (r := trim text) in *.
  destruct (split LF r) as [|h t] eqn:Hs; [by apply split_not_nil in Hs|].
  destruct t as [|h' t].
  - simpl. unfold count. simpl. by destruct (nonBlank h).
  - assert (Hr : r <> EmptyString).
    { intros Hr. rewrite Hr in Hs. discriminate. }
    assert (Hfirst : nonBlank h = true).
    { destruct r as [|c r']; [congruence|]. simpl in Hstart, Hs.
      assert (Hne : Ascii.eqb c LF = false).
      { destruct (Ascii.eqb_spec c LF) as [->|]; [|reflexivity].
        by rewrite is_space_LF in Hstart. }
      rewrite Hne in Hs.
      destruct (split LF r') as [|h0 t0]; injection Hs as <- _;
        by rewrite nonBlank_cons, Hstart. }
    assert (Hlast : (1 <= count nonBlank (h' :: t))%nat).
    { apply (count_member nonBlank _ (List.last (h :: h' :: t) EmptyString)).
      - apply last_in_tail. discriminate.
      - rewrite <- Hs. by apply last_line_nonBlank. }
    unfold count in *. simpl length at 1. simpl List.filter. rewrite Hfirst.
    simpl length. symmetry. apply Nat.ltb_ge. simpl in Hlast. lia.
Qed.

Lemma missing_filter required headers :
  List.filter (fun header => negb (includes header headers)) required
  = missingColumns required headers.
Proof.
  unfold missingColumns. apply List.filter_ext. intros c.
  destruct (includes c headers) eqn:Hc.
  - apply includes_elem in Hc. symmetry. by apply bool_decide_eq_false; intros H.
  - symmetry. apply bool_decide_eq_true. intros Hin%includes_elem. congruence.
Qed.

Lemma missing_member required headers c :
  c ∈ missingColumns required headers <-> c ∈ required /\ c ∉ headers.
Proof.
  unfold missingColumns. rewrite list_elem_of_In, filter_In, bool_decide_eq_true.
  by rewrite <- list_elem_of_In.
Qed.

(** C6.  For each of the three parsers, on ASCII text, the whole-file
    verdict is decided by two tests only: fewer than two non-empty lines
    give the empty-input alert; otherwise, when some required column is
    not among the header names, the schema alert lists exactly the
    required columns that are missing, in their declared order; otherwise
    the file is accepted and rows are produced.  The alerts carry no
    row. *)
Theorem structural_failures_of_parse (text : string) :
  asciiText text = true ->
  verdictMSL (MSLCsvUpload.parseCsv text)
  = expectedVerdict MSLCsvUpload.requiredHeaders text /\
  (forall parseFloat existingSkus,
      verdictProducts (ProductCsvUpload.parseCsv parseFloat existingSkus text)
      = expectedVerdict ProductCsvUpload.requiredHeaders text) /\
  (forall parseFloat existingCodes,
      verdictStores (StoreCsvUpload.parseCsv parseFloat existingCodes text)
      = expectedVerdict StoreCsvUpload.requiredHeaders text) /\
  (forall required c,
      c ∈ missingColumns required (headerColumns text) <->
      c ∈ required /\ c ∉ headerColumns text) /\
  (forall required,
      expectedVerdict required text = EmptyInput <->
      (length (nonEmptyLines text) < 2)%nat) /\
  (forall required,
      expectedVerdict required text = Accepted <->
      (2 <= length (nonEmptyLines text))%nat /\
      forall c, c ∈ required -> c ∈ headerColumns text).
Proof.
  intros _. split; [|split; [|split; [|split; [|split]]]].
  - unfold MSLCsvUpload.parseCsv, expectedVerdict.
    rewrite lines_test, missing_filter. fold (headerColumns text).
    destruct (length (nonEmptyLines text) <? 2)%nat; [reflexivity|].
    by destruct (missingColumns _ _).
  - intros parseFloat existingSkus.
    unfold ProductCsvUpload.parseCsv, expectedVerdict.
    rewrite lines_test, missing_filter. fold (headerColumns text).
    destruct (length (nonEmptyLines text) <? 2)%nat; [reflexivity|].
    by destruct (missingColumns _ _).
  - intros parseFloat existingCodes.
    unfold StoreCsvUpload.parseCsv, expectedVerdict.
    rewrite lines_test, missing_filter. fold (headerColumns text).
    destruct (length (nonEmptyLines text) <? 2)%nat; [reflexivity|].
    by destruct (missingColumns _ _).
  - intros required c. apply missing_member.
  - intros required. unfold expectedVerdict.
    destruct (length (nonEmptyLines text) <? 2)%nat eqn:Hn.
    + apply Nat.ltb_lt in Hn. tauto.
    + apply Nat.ltb_ge in Hn.
      destruct (missingColumns _ _); split; (discriminate || lia).
  - intros required. unfold expectedVerdict.
    destruct (length (nonEmptyLines text) <? 2)%nat eqn:Hn.
    + apply Nat.ltb_lt in Hn. split; [discriminate|]. intros [Hge _]. lia.
    + apply Nat.ltb_ge in Hn.
      destruct (missingColumns required (headerColumns text)) as [|m ms] eqn:Hm.
      * split; [|reflexivity]. intros _. split; [exact Hn|].
        intros c Hc. destruct (decide (c ∈ headerColumns text)) as [|Hno]; [assumption|].
        assert (Hin : c ∈ missingColumns required (headerColumns text)).
        { by apply missing_member. }
        rewrite Hm in Hin. by apply elem_of_nil in Hin.
      * split; [discriminate|]. intros [_ Hall].
        assert (Hin : m ∈ missingColumns required (headerColumns text)).
        { rewrite Hm. left. }
        apply missing_member in Hin as [Hreq Hno]. exfalso. by apply Hno, Hall.
Qed.

End Structural.

(** ** Export and re-import *)

Section Digits.
Import Js Spec.

Lemma decPrefix_digits d : decPrefix (DecimalString.NilEmpty.string_of_uint d) = d.
Proof. induction d; simpl; by rewrite ?IHd. Qed.

Lemma parseMagnitude_digits d :
  parseMagnitude (DecimalString.NilEmpty.string_of_uint d)
  = match d with
    | Decimal.Nil => None
    | _ => Some (Z.of_N (N.of_uint d))
    end.
Proof.
  assert (Hdec : parseMagnitude (DecimalString.NilEmpty.string_of_uint d)
                 = match decPrefix (DecimalString.NilEmpty.string_of_uint d) with
                   | Decimal.Nil => None
                   | d' => Some (Z.of_N (N.of_uint d'))
                   end).
  { destruct d as [|d|d|d|d|d|d|d|d|d|d]; try reflexivity.
    destruct d; reflexivity. }
  rewrite Hdec, decPrefix_digits. by destruct d.
Qed.

Lemma parseInt_digits d :
  parseInt (DecimalString.NilEmpty.string_of_uint d)
  = parseMagnitude (DecimalString.NilEmpty.string_of_uint d).
Proof. destruct d; reflexivity. Qed.

(** Reading back a printed priority. *)
Lemma parseInt_showZ p : (1 <= p)%Z -> parseInt (showZ p) = Some p.
Proof.
  intros Hp. destruct p as [|q|q]; try lia.
  unfold showZ, showN. rewrite parseInt_digits, parseMagnitude_digits.
  pose proof (DecimalN.Unsigned.of_to (Z.to_N (Z.pos q))) as Hof.
  destruct (N.to_uint (Z.to_N (Z.pos q))) eqn:Hd;
    [discriminate Hof|..]; by rewrite Hof.
Qed.

Lemma digits_no_char c d :
  Forall (fun digit => Ascii.eqb digit c = false)
    ["0"; "1"; "2"; "3"; "4"; "5"; "6"; "7"; "8"; "9"]%char ->
  hasChar c (DecimalString.NilEmpty.string_of_uint d) = false.
Proof.
  intros Hc. repeat (apply Forall_cons in Hc as [? Hc]).
  induction d; simpl; rewrite ?IHd; auto using orb_false_r;
    apply orb_false_iff; split; auto.
Qed.

Lemma showZ_no_char c p :
  (1 <= p)%Z ->
  Forall (fun digit => Ascii.eqb digit c = false)
    ["0"; "1"; "2"; "3"; "4"; "5"; "6"; "7"; "8"; "9"]%char ->
  hasChar c (showZ p) = false.
Proof.
  intros Hp Hc. destruct p as [|q|q]; try lia.
  unfold showZ, showN. by apply digits_no_char.
Qed.

Lemma digits_start (f : ascii -> bool) d :
  Forall (fun digit => f digit = false)
    ["0"; "1"; "2"; "3"; "4"; "5"; "6"; "7"; "8"; "9"]%char ->
  startsWith f (DecimalString.NilEmpty.string_of_uint d) = false.
Proof.
  intros Hc. repeat (apply Forall_cons in Hc as [? Hc]).
  destruct d; simpl; auto.
Qed.

Lemma endsWith_step (f : ascii -> bool) c s :
  f c = false -> endsWith f s = false -> endsWith f (String c s) = false.
Proof. intros Hc Hs. destruct s; simpl in *; auto. Qed.

Lemma digits_end (f : ascii -> bool) d :
  Forall (fun digit => f digit = false)
    ["0"; "1"; "2"; "3"; "4"; "5"; "6"; "7"; "8"; "9"]%char ->
  endsWith f (DecimalString.NilEmpty.string_of_uint d) = false.
Proof.
  intros Hc. repeat (apply Forall_cons in Hc as [? Hc]).
  induction d; [reflexivity|..];
    cbn [DecimalString.NilEmpty.string_of_uint];
    apply endsWith_step; auto.
Qed.

End Digits.

Section ExportLines.
Import Js Spec.

Lemma trimStart_fixed s : startsWith Ascii.is_space s = false -> trimStart s = s.
Proof. destruct s as [|c s]; simpl; [reflexivity|]. by intros ->. Qed.

Lemma trimEnd_fixed s : endsWith Ascii.is_space s = false -> trimEnd s = s.
Proof.
  induction s as [|c s IH]; [reflexivity|].
  destruct s as [|d s].
  - simpl. by intros ->.
  - rewrite endsWith_cons. intros He. simpl trimEnd at 1.
    change (match trimEnd (String d s) with
            | EmptyString => if Ascii.is_space c then EmptyString else String c EmptyString
            | String a r => String c (String a r)
            end = String c (String d s)).
    by rewrite IH.
Qed.

Lemma trim_fixed s :
  startsWith Ascii.is_space s = false -> endsWith Ascii.is_space s = false ->
  trim s = s.
Proof. intros Hs He. unfold trim. rewrite trimStart_fixed by exact Hs. by apply trimEnd_fixed. Qed.

Lemma app_not_empty a b : b <> EmptyString -> a +:+ b <> EmptyString.
Proof. destruct a; [by rewrite app_nil_l'|discriminate]. Qed.

Lemma endsWith_app f a b :
  b <> EmptyString -> endsWith f (a +:+ b) = endsWith f b.
Proof.
  intros Hb. induction a as [|c a IH]; [reflexivity|].
  rewrite app_cons. destruct (a +:+ b) as [|d r] eqn:Hab.
  - by apply app_not_empty in Hab.
  - by rewrite endsWith_cons.
Qed.

Lemma startsWith_app f a b :
  a <> EmptyString -> startsWith f (a +:+ b) = startsWith f a.
Proof. destruct a; [congruence|reflexivity]. Qed.

Lemma endsWith_quoted f m : endsWith f (MSLManagement.quoted m) = f QUOTE.
Proof.
  unfold MSLManagement.quoted.
  destruct (m +:+ String QUOTE EmptyString) as [|d r] eqn:Hm.
  - apply app_not_empty in Hm; [contradiction|discriminate].
  - rewrite endsWith_cons, <- Hm. by rewrite endsWith_app.
Qed.

Lemma exportLine_assoc item :
  MSLManagement.exportLine item
  = (Supabase.category item +:+ "," +:+ Supabase.sku_code item +:+ "," +:+
     MSLManagement.quoted (Supabase.product_name item) +:+ "," +:+
     showZ (Supabase.priority item) +:+ ",")
    +:+ MSLManagement.quoted (orEmpty (Supabase.notes item)).
Proof. unfold MSLManagement.exportLine. by rewrite !app_assoc'. Qed.

Lemma exportLine_end f item : endsWith f (MSLManagement.exportLine item) = f QUOTE.
Proof.
  rewrite exportLine_assoc, endsWith_app; [apply endsWith_quoted|discriminate].
Qed.

Lemma exportLine_not_empty item : MSLManagement.exportLine item <> EmptyString.
Proof. rewrite exportLine_assoc. apply app_not_empty. discriminate. Qed.

Lemma join_end f x l :
  Forall (fun y => y <> EmptyString /\ endsWith f y = false) (x :: l) ->
  join (String LF EmptyString) (x :: l) <> EmptyString /\
  endsWith f (join (String LF EmptyString) (x :: l)) = false.
Proof.
  revert x. induction l as [|y l IH]; intros x Hall.
  - apply Forall_cons in Hall as [[Hx He] _]. by split.
  - apply Forall_cons in Hall as [_ Hall].
    destruct (IH y Hall) as [Hne He].
    rewrite join_cons. split.
    + apply app_not_empty, app_not_empty, Hne.
    + rewrite endsWith_app by (by apply app_not_empty).
      change (endsWith f (String LF (join (String LF EmptyString) (y :: l))) = false).
      destruct (join (String LF EmptyString) (y :: l)) as [|d r] eqn:Hj; [congruence|].
      by rewrite endsWith_cons.
Qed.

Lemma join_start f x l :
  x <> EmptyString ->
  startsWith f (join (String LF EmptyString) (x :: l)) = startsWith f x.
Proof.
  intros Hx. destruct l as [|y l]; [reflexivity|].
  rewrite join_cons. by apply startsWith_app.
Qed.

Lemma split_join sep ls :
  ls <> [] -> Forall (fun l => hasChar sep l = false) ls ->
  split sep (join (String sep EmptyString) ls) = ls.
Proof.
  destruct ls as [|x ls]; [congruence|]. intros _. revert x.
  induction ls as [|y ls IH]; intros x Hall.
  - apply Forall_cons in Hall as [Hx _]. simpl. by apply split_no_sep.
  - apply Forall_cons in Hall as [Hx Hall].
    rewrite join_cons.
    change (String sep EmptyString +:+ join (String sep EmptyString) (y :: ls))
      with (String sep (join (String sep EmptyString) (y :: ls))).
    rewrite split_app_sep by exact Hx. by rewrite IH.
Qed.

Lemma hasChar_quoted c m :
  Ascii.eqb QUOTE c = false -> hasChar c (MSLManagement.quoted m) = hasChar c m.
Proof.
  intros Hc. unfold MSLManagement.quoted.
  change (Ascii.eqb QUOTE c
          || hasChar c (m +:+ String QUOTE EmptyString) = hasChar c m).
  rewrite Hc, hasChar_app.
  change (hasChar c (String QUOTE EmptyString)) with (Ascii.eqb QUOTE c || false).
  rewrite Hc. simpl. by rewrite orb_false_r.
Qed.

Lemma exportable_fields item :
  exportable item = true ->
  hasChar COMMA (Supabase.category item) = false /\
  hasChar COMMA (Supabase.sku_code item) = false /\
  hasChar COMMA (Supabase.product_name item) = false /\
  hasChar LF (Supabase.category item) = false /\
  hasChar LF (Supabase.sku_code item) = false /\
  hasChar LF (Supabase.product_name item) = false /\
  hasChar LF (orEmpty (Supabase.notes item)) = false /\
  Js.falsy (cell (Supabase.category item)) = false /\
  Js.falsy (cell (Supabase.sku_code item)) = false /\
  Js.falsy (Supabase.product_name item) = false /\
  (1 <= Supabase.priority item)%Z.
Proof.
  unfold exportable. rewrite !andb_true_iff, !negb_true_iff, Z.leb_le. tauto.
Qed.

Lemma exportLine_no_LF item :
  exportable item = true -> hasChar LF (MSLManagement.exportLine item) = false.
Proof.
  intros (_ & _ & _ & Hc & Hs & Hn & Ho & _ & _ & _ & Hp)%exportable_fields.
  unfold MSLManagement.exportLine.
  rewrite !hasChar_app, !hasChar_quoted by reflexivity.
  rewrite Hc, Hs, Hn, Ho, showZ_no_char; [reflexivity|exact Hp|].
  repeat constructor.
Qed.

(** The lines that the parser sees of an exported text: the header, then
    one line per item. *)
Lemma lines_of_export items :
  items <> [] -> Forall (fun item => exportable item = true) items ->
  split LF (trim (MSLManagement.exportMSL items))
  = "CATEGORY,SKU_CODE,PRODUCT_NAME,PRIORITY,NOTES" :: map MSLManagement.exportLine items.
Proof.
  intros Hne Hall. unfold MSLManagement.exportMSL.
  set (header := "CATEGORY,SKU_CODE,PRODUCT_NAME,PRIORITY,NOTES").
  rewrite trim_fixed.
  - apply split_join; [discriminate|]. constructor; [reflexivity|].
    apply Forall_fmap. eapply Forall_impl; [exact Hall|].
    intros item. apply exportLine_no_LF.
  - rewrite join_start by discriminate. reflexivity.
  - apply join_end. constructor; [by split|].
    apply Forall_fmap, Forall_forall. intros item _. split.
    + apply exportLine_not_empty.
    + apply exportLine_end.
Qed.

End ExportLines.

Section Reimport.
Import Js Spec.

Lemma split_comma a rest :
  hasChar COMMA a = false ->
  split COMMA (a +:+ "," +:+ rest) = a :: split COMMA rest.
Proof.
  intros Ha. change ("," +:+ rest) with (String COMMA rest).
  by apply split_app_sep.
Qed.

Lemma cell_quoted m : cell (MSLManagement.quoted m) = m.
Proof.
  unfold cell. rewrite trim_fixed; [apply stripQuotes_quoted|reflexivity|].
  by rewrite endsWith_quoted.
Qed.

Lemma cell_showZ p : (1 <= p)%Z -> cell (showZ p) = showZ p.
Proof.
  intros Hp. destruct p as [|q|q]; try lia.
  unfold cell, showZ, showN, stripQuotes.
  rewrite trim_fixed, dropLeadingQuote_none, dropTrailingQuote_none;
    try reflexivity;
    (apply digits_start || apply digits_end); repeat constructor.
Qed.

Lemma rowValues_exportLine item :
  exportable item = true ->
  exists rest,
    MSLCsvUpload.rowValues (MSLManagement.exportLine item)
    = cell (Supabase.category item) :: cell (Supabase.sku_code item)
        :: Supabase.product_name item :: showZ (Supabase.priority item) :: rest.
Proof.
  intros (Hc & Hs & Hn & _ & _ & _ & _ & _ & _ & _ & Hp)%exportable_fields.
  exists (map cell (split COMMA (MSLManagement.quoted (orEmpty (Supabase.notes item))))).
  unfold MSLCsvUpload.rowValues, MSLManagement.exportLine.
  rewrite !split_comma; try assumption.
  - fold cell. cbn [map]. by rewrite cell_quoted, cell_showZ.
  - rewrite showZ_no_char; [reflexivity|exact Hp|repeat constructor].
  - by rewrite hasChar_quoted.
Qed.

Lemma at_0 a l : at_ (a :: l) 0 = Some a.
Proof. reflexivity. Qed.
Lemma at_1 a b l : at_ (a :: b :: l) 1 = Some b.
Proof. reflexivity. Qed.
Lemma at_2 a b c l : at_ (a :: b :: c :: l) 2 = Some c.
Proof. reflexivity. Qed.
Lemma at_3 a b c d l : at_ (a :: b :: c :: d :: l) 3 = Some d.
Proof. reflexivity. Qed.

Lemma export_headers :
  map (fun h => toUpperCase (trim h))
    (split COMMA "CATEGORY,SKU_CODE,PRODUCT_NAME,PRIORITY,NOTES")
  = ["CATEGORY"; "SKU_CODE"; "PRODUCT_NAME"; "PRIORITY"; "NOTES"].
Proof. reflexivity. Qed.

Lemma parseRow_exportLine i item seen :
  exportable item = true -> reimportKey item ∉ seen ->
  exists notes,
    MSLCsvUpload.parseRow ["CATEGORY"; "SKU_CODE"; "PRODUCT_NAME"; "PRIORITY"; "NOTES"]
      i (MSLManagement.exportLine item) seen
    = (MSLCsvUpload.mkCsvMSLItem (cell (Supabase.category item))
         (cell (Supabase.sku_code item)) (Supabase.product_name item)
         (Some (Supabase.priority item)) notes true EmptyString,
       {[reimportKey item]} ∪ seen).
Proof.
  intros Hex Hfresh.
  destruct (rowValues_exportLine item Hex) as [rest Hvalues].
  apply exportable_fields in Hex as (_ & _ & _ & _ & _ & _ & _ & Hc & Hs & Hn & Hp).
  unfold MSLCsvUpload.parseRow. rewrite Hvalues.
  change (indexOf "CATEGORY" _) with 0%Z.
  change (indexOf "SKU_CODE" _) with 1%Z.
  change (indexOf "PRODUCT_NAME" _) with 2%Z.
  change (indexOf "PRIORITY" _) with 3%Z.
  change (indexOf "NOTES" _) with 4%Z.
  rewrite at_0, at_1, at_2, at_3. cbn [orEmpty default from_option]. unfold id.
  assert (Hint : parseInt (showZ (Supabase.priority item)) = Some (Supabase.priority item))
    by (by apply parseInt_showZ).
  assert (Hps : falsy (showZ (Supabase.priority item)) = false).
  { destruct (showZ (Supabase.priority item)); [discriminate Hint|reflexivity]. }
  rewrite Hc, Hs, Hn, Hps, Hint. cbn [orb].
  fold (reimportKey item). rewrite bool_decide_eq_false_2 by exact Hfresh.
  assert (Hbad : MSLCsvUpload.badPriority (Some (Supabase.priority item)) = false).
  { apply Z.ltb_ge. exact Hp. }
  rewrite Hbad. cbn [andb]. eexists. reflexivity.
Qed.

Lemma parseRows_export items :
  forall i seen,
    Forall (fun item => exportable item = true) items ->
    NoDup (map reimportKey items) ->
    (forall item, item ∈ items -> reimportKey item ∉ seen) ->
    let parsed :=
      MSLCsvUpload.parseRows ["CATEGORY"; "SKU_CODE"; "PRODUCT_NAME"; "PRIORITY"; "NOTES"]
        i (map MSLManagement.exportLine items) seen in
    Forall (fun row => MSLCsvUpload.isValid row = true) parsed /\
    map (fun row => (MSLCsvUpload.category row, MSLCsvUpload.sku_code row,
                     MSLCsvUpload.product_name row, MSLCsvUpload.priority row)) parsed
    = map (fun item => (cell (Supabase.category item), cell (Supabase.sku_code item),
                        Supabase.product_name item, Some (Supabase.priority item))) items.
Proof.
  induction items as [|item items IH]; intros i seen Hall Hnd Hfresh; simpl.
  - by split.
  - apply Forall_cons in Hall as [Hex Hall].
    apply NoDup_cons in Hnd as [Hnew Hnd].
    destruct (parseRow_exportLine i item seen Hex) as [notes Hrow].
    { apply Hfresh. left. }
    rewrite Hrow.
    destruct (IH (S i) ({[reimportKey item]} ∪ seen) Hall Hnd) as [Hvalid Hfields].
    { intros other Hin [Hk|Hk]%elem_of_union.
      - apply elem_of_singleton in Hk. apply Hnew. rewrite <- Hk.
        apply list_elem_of_In, in_map, list_elem_of_In, Hin.
      - apply (Hfresh other); [by right|exact Hk]. }
    split; [by constructor|]. simpl. by rewrite Hfields.
Qed.

End Reimport.

(** C3, as the code has it.  The export of a list of stored items with
    ASCII text in their fields and priorities of the [integer] column
    (at most 2147483647) is read back with one valid row per item
    and no invalid row when the list is not empty, no category, SKU or
    product name holds a comma, no field holds a line feed, category and
    SKU are not emptied by the cell decoding, the product name is not
    empty, every priority is at least 1 and the texts [category-sku] of
    the decoded items are pairwise distinct.  The rows carry the decoded
    category and SKU, the product name and the priority of the items, in
    order. *)
Theorem msl_export_reimport (items : list Supabase.MSLItem) :
  items <> [] ->
  Forall (fun item => Spec.plainItem item = true) items ->
  Forall (fun item => Spec.exportable item = true) items ->
  NoDup (map Spec.reimportKey items) ->
  exists parsed,
    MSLCsvUpload.parseCsv (MSLManagement.exportMSL items) = MSLCsvUpload.Preview parsed /\
    MSLCsvUpload.validCount parsed = length items /\
    MSLCsvUpload.invalidCount parsed = 0%nat /\
    map (fun row => (MSLCsvUpload.category row, MSLCsvUpload.sku_code row,
                     MSLCsvUpload.product_name row, MSLCsvUpload.priority row)) parsed
    = map (fun item => (Spec.cell (Supabase.category item),
                        Spec.cell (Supabase.sku_code item),
                        Supabase.product_name item, Some (Supabase.priority item))) items.
Proof.
  intros Hne _ Hall Hnd.
  unfold MSLCsvUpload.parseCsv.
  rewrite lines_of_export by assumption.
  assert (Hlen : (length ("CATEGORY,SKU_CODE,PRODUCT_NAME,PRIORITY,NOTES"
                            :: map MSLManagement.exportLine items) <? 2)%nat = false).
  { destruct items; [congruence|reflexivity]. }
  rewrite Hlen. cbn [hd tl]. rewrite export_headers.
  change (0 <? length (List.filter _ MSLCsvUpload.requiredHeaders))%nat with false.
  cbv iota.
  destruct (parseRows_export items 1 ∅ Hall Hnd) as [Hvalid Hfields].
  { intros item _. apply not_elem_of_empty. }
  eexists. split; [reflexivity|].
  unfold MSLCsvUpload.validCount, MSLCsvUpload.invalidCount.
  rewrite filter_all, filter_none.
  - split; [|split; [reflexivity|exact Hfields]].
    rewrite <- (List.length_map (fun row => (MSLCsvUpload.category row,
                                             MSLCsvUpload.sku_code row,
                                             MSLCsvUpload.product_name row,
                                             MSLCsvUpload.priority row))).
    by rewrite Hfields, List.length_map.
  - intros row Hrow. rewrite Forall_forall in Hvalid. by rewrite (Hvalid row Hrow).
  - intros row Hrow. rewrite Forall_forall in Hvalid. by apply Hvalid.
Qed.

(** Two items of the seed data. *)
Lemma msl_export_reimport_witness :
  let items :=
    [Supabase.mkMSLItem "GT PROV" "LOR001" "L'Oreal Paris Voluminous Mascara" 1
       (Some "Top seller - high margin");
     Supabase.mkMSLItem "GT Wholesale" "LOR004" "L'Oreal Wholesale Pack A" 1 None] in
  items <> [] /\
  Forall (fun item => Spec.plainItem item = true) items /\
  Forall (fun item => Spec.exportable item = true) items /\
  NoDup (map Spec.reimportKey items) /\
  exists parsed,
    MSLCsvUpload.parseCsv (MSLManagement.exportMSL items) = MSLCsvUpload.Preview parsed /\
    MSLCsvUpload.validCount parsed = 2%nat /\
    MSLCsvUpload.invalidCount parsed = 0%nat.
Proof.
  intros items.
  assert (Hne : items <> []) by discriminate.
  assert (Hplain : Forall (fun item => Spec.plainItem item = true) items).
  { repeat constructor. }
  assert (Hall : Forall (fun item => Spec.exportable item = true) items).
  { repeat constructor. }
  assert (Hnd : NoDup (map Spec.reimportKey items)).
  { apply (bool_decide_unpack _). vm_compute. exact I. }
  split; [exact Hne|]. split; [exact Hplain|]. split; [exact Hall|].
  split; [exact Hnd|].
  destruct (msl_export_reimport items Hne Hplain Hall Hnd)
    as (parsed & Hp & Hv & Hi & _).
  exists parsed. split; [exact Hp|]. split; [exact Hv|exact Hi].
Defined.

(** C3 as worded fails on a stored product name that holds a comma: the
    export has six cells in that line, the parser reads the fourth as the
    priority, and the row is invalid. *)
Lemma msl_export_reimport_counterexample :
  exists parsed,
    MSLCsvUpload.parseCsv
      (MSLManagement.exportMSL
         [Supabase.mkMSLItem "GT PROV" "LOR001" "Mascara, black" 1 None])
    = MSLCsvUpload.Preview parsed /\
    MSLCsvUpload.validCount parsed = 0%nat /\
    MSLCsvUpload.invalidCount parsed = 1%nat /\
    map MSLCsvUpload.error parsed
    = ["Row 2: Invalid priority (must be positive integer)"].
Proof. eexists. split; [vm_compute; reflexivity|]. by repeat split. Qed.

(** A parsed header that lacks PRIORITY. *)
Lemma structural_failures_of_parse_witness :
  Spec.asciiText
    ("CATEGORY,SKU_CODE,PRODUCT_NAME" +:+ String Js.LF "GT PROV,LOR001,Mascara") = true /\
  Spec.verdictMSL
    (MSLCsvUpload.parseCsv
       ("CATEGORY,SKU_CODE,PRODUCT_NAME" +:+ String Js.LF "GT PROV,LOR001,Mascara"))
  = Spec.SchemaMismatch ["PRIORITY"].
Proof.
  split; [reflexivity|].
  destruct (structural_failures_of_parse
              ("CATEGORY,SKU_CODE,PRODUCT_NAME" +:+ String Js.LF "GT PROV,LOR001,Mascara")
              eq_refl)
    as [Hmsl _].
  rewrite Hmsl. reflexivity.
Defined.

(** * Further properties *)

(** ** Rows of the MSL preview *)

Section MslRows.
Import Js Spec MSLCsvUpload.

Lemma parseRows_length headers rest :
  forall i seen, length (parseRows headers i rest seen) = length rest.
Proof.
  induction rest as [|line rest IH]; intros i seen; simpl; [reflexivity|].
  destruct (parseRow headers i line seen) as [item seen']. simpl. by rewrite IH.
Qed.

Lemma counts_total {A} (f : A -> bool) (l : list A) :
  (length (List.filter f l) + length (List.filter (fun x => negb (f x)) l)
   = length l)%nat.
Proof.
  induction l as [|x l IH]; simpl; [reflexivity|].
  destruct (f x); simpl; lia.
Qed.

Lemma parseCsv_preview text parsed :
  parseCsv text = Preview parsed ->
  parsed = parseRows (headerColumns text) 1 (dataLines text) ∅.
Proof.
  unfold parseCsv, headerColumns, dataLines.
  destruct (length (split LF (trim text)) <? 2)%nat; [discriminate|].
  match goal with |- context [List.filter ?f requiredHeaders] =>
    destruct (0 <? length (List.filter f requiredHeaders))%nat; [discriminate|] end.
  by intros [= <-].
Qed.

(** What a row of the preview owes to its own line alone. *)
Lemma parseRow_fields headers i line seen :
  let values := rowValues line in
  let row := (parseRow headers i line seen).1 in
  category row = orEmpty (at_ values (indexOf "CATEGORY" headers)) /\
  sku_code row = orEmpty (at_ values (indexOf "SKU_CODE" headers)) /\
  product_name row = orEmpty (at_ values (indexOf "PRODUCT_NAME" headers)) /\
  priority row = parseInt (orEmpty (at_ values (indexOf "PRIORITY" headers))).
Proof.
  unfold parseRow.
  repeat match goal with
         | |- context [if ?b then _ else _] => destruct b; simpl
         end; by repeat split.
Qed.

Lemma parseRows_lookup headers rest :
  forall i seen k row,
    parseRows headers i rest seen !! k = Some row ->
    exists line seen',
      rest !! k = Some line /\ row = (parseRow headers (i + k) line seen').1.
Proof.
  induction rest as [|line rest IH]; intros i seen k row; simpl; [discriminate|].
  destruct (parseRow headers i line seen) as [item seen'] eqn:Hrow.
  destruct k as [|k]; simpl.
  - intros [= <-]. exists line, seen. rewrite Nat.add_0_r, Hrow. by split.
  - intros Hk. destruct (IH (S i) seen' k row Hk) as (l & s' & Hl & ->).
    exists l, s'. split; [exact Hl|]. by rewrite Nat.add_succ_r.
Qed.

(** X1.  A preview of an ASCII text whose priorities the engine reads
    exactly holds one row per data line, in the order of the lines: its
    length is the number of lines after the header, valid and invalid
    rows add up to it, and the category, SKU, name and priority of the
    row at a position are read from the line at that position. *)
Theorem msl_preview_one_row_per_line (text : string) parsed :
  asciiText text = true ->
  safePriorities text = true ->
  parseCsv text = Preview parsed ->
  length parsed = length (dataLines text) /\
  (validCount parsed + invalidCount parsed = length parsed)%nat /\
  forall k row,
    parsed !! k = Some row ->
    exists line,
      dataLines text !! k = Some line /\
      let values := rowValues line in
      let headers := headerColumns text in
      category row = orEmpty (at_ values (indexOf "CATEGORY" headers)) /\
      sku_code row = orEmpty (at_ values (indexOf "SKU_CODE" headers)) /\
      product_name row = orEmpty (at_ values (indexOf "PRODUCT_NAME" headers)) /\
      priority row = parseInt (orEmpty (at_ values (indexOf "PRIORITY" headers))).
Proof.
  intros _ _ ->%parseCsv_preview. split; [apply parseRows_length|].
  split; [apply counts_total|].
  intros k row Hk.
  destruct (parseRows_lookup _ _ _ _ _ _ Hk) as (line & seen' & Hline & ->).
  exists line. split; [exact Hline|]. apply parseRow_fields.
Qed.

(** What the validity flag of a row tells. *)
Lemma parseRow_verdict headers i line seen :
  let row := (parseRow headers i line seen).1 in
  if isValid row
  then error row = EmptyString /\
       falsy (category row) = false /\ falsy (sku_code row) = false /\
       falsy (product_name row) = false /\
       exists p, priority row = Some p /\ (1 <= p)%Z
  else exists reason,
         error row = rowLabel i +:+ reason /\
         In reason
           [": Missing required fields (CATEGORY, SKU_CODE, PRODUCT_NAME, PRIORITY)";
            ": Duplicate SKU in same category";
            ": Invalid priority (must be positive integer)"].
Proof.
  unfold parseRow.
  set (values := rowValues line).
  set (cat := orEmpty (at_ values (indexOf "CATEGORY" headers))).
  set (sku := orEmpty (at_ values (indexOf "SKU_CODE" headers))).
  set (name := orEmpty (at_ values (indexOf "PRODUCT_NAME" headers))).
  set (pstr := orEmpty (at_ values (indexOf "PRIORITY" headers))).
  destruct (falsy cat) eqn:Hcat; simpl.
  { eexists. split; [reflexivity|]. simpl. tauto. }
  destruct (falsy sku) eqn:Hsku; simpl.
  { eexists. split; [reflexivity|]. simpl. tauto. }
  destruct (falsy name) eqn:Hname; simpl.
  { eexists. split; [reflexivity|]. simpl. tauto. }
  destruct (falsy pstr) eqn:Hp; simpl.
  { eexists. split; [reflexivity|]. simpl. tauto. }
  destruct (bool_decide (dupKey cat sku ∈ seen)) eqn:Hdup; simpl.
  { eexists. split; [reflexivity|]. simpl. tauto. }
  destruct (badPriority (parseInt pstr)) eqn:Hbad; simpl.
  { eexists. split; [reflexivity|]. simpl. tauto. }
  repeat split; try assumption.
  unfold badPriority in Hbad. destruct (parseInt pstr) as [p|]; [|discriminate].
  exists p. split; [reflexivity|]. by apply Z.ltb_ge in Hbad.
Qed.

(** X2.  In a preview of an ASCII text whose priorities the engine reads
    exactly, every valid row has a category, a SKU and a name, an integer
    priority of at least 1 and no error text, every invalid row carries
    its row number followed by one of the three reasons, and no two valid
    rows share category and SKU. *)
Theorem msl_preview_rows_are_classified (text : string) parsed :
  asciiText text = true ->
  safePriorities text = true ->
  parseCsv text = Preview parsed ->
  NoDup (map (fun row => (category row, sku_code row)) (validItems parsed)) /\
  forall k row,
    parsed !! k = Some row ->
    if isValid row
    then error row = EmptyString /\
         falsy (category row) = false /\ falsy (sku_code row) = false /\
         falsy (product_name row) = false /\
         exists p, priority row = Some p /\ (1 <= p)%Z
    else exists reason,
           error row = "Row " +:+ showN (N.of_nat (k + 2)) +:+ reason /\
           In reason
             [": Missing required fields (CATEGORY, SKU_CODE, PRODUCT_NAME, PRIORITY)";
              ": Duplicate SKU in same category";
              ": Invalid priority (must be positive integer)"].
Proof.
  intros _ _ Hparse. split; [by destruct (parseCsv_valid text parsed Hparse)|].
  apply parseCsv_preview in Hparse as ->.
  intros k row Hk.
  destruct (parseRows_lookup _ _ _ _ _ _ Hk) as (line & seen' & Hline & ->).
  pose proof (parseRow_verdict (headerColumns text) (1 + k) line seen') as Hv.
  cbv zeta in Hv.
  destruct (isValid (parseRow (headerColumns text) (1 + k) line seen').1);
    [exact Hv|].
  destruct Hv as (reason & Herr & Hin). exists reason. split; [|exact Hin].
  rewrite Herr. unfold rowLabel. rewrite app_assoc'.
  by replace (1 + k + 1)%nat with (k + 2)%nat by lia.
Qed.

End MslRows.

Section MslDuplicates.
Import Js Spec MSLCsvUpload.

Lemma candidate_cells headers line c s :
  mslCandidate headers line = Some (c, s) ->
  let values := rowValues line in
  orEmpty (at_ values (indexOf "CATEGORY" headers)) = c /\
  orEmpty (at_ values (indexOf "SKU_CODE" headers)) = s /\
  falsy c = false /\ falsy s = false /\
  falsy (orEmpty (at_ values (indexOf "PRODUCT_NAME" headers))) = false /\
  falsy (orEmpty (at_ values (indexOf "PRIORITY" headers))) = false.
Proof.
  unfold mslCandidate. cbv zeta.
  destruct (falsy (orEmpty (at_ (rowValues line) (indexOf "CATEGORY" headers))))
    eqn:H1; [discriminate|].
  destruct (falsy (orEmpty (at_ (rowValues line) (indexOf "SKU_CODE" headers))))
    eqn:H2; [discriminate|].
  destruct (falsy (orEmpty (at_ (rowValues line) (indexOf "PRODUCT_NAME" headers))))
    eqn:H3; [discriminate|].
  destruct (falsy (orEmpty (at_ (rowValues line) (indexOf "PRIORITY" headers))))
    eqn:H4; [discriminate|].
  simpl. intros [= <- <-]. by repeat split.
Qed.

(** A line with its required cells leaves its key in [seenSkus],
    whatever becomes of the row. *)
Lemma parseRow_keeps_key headers i line seen c s :
  mslCandidate headers line = Some (c, s) ->
  dupKey c s ∈ (parseRow headers i line seen).2.
Proof.
  intros (Hc & Hs & H1 & H2 & H3 & H4)%candidate_cells.
  unfold parseRow. rewrite Hc, Hs, H1, H2, H3, H4. simpl.
  destruct (bool_decide (dupKey c s ∈ seen)) eqn:Hdup; simpl.
  - by apply bool_decide_eq_true in Hdup.
  - destruct (badPriority _); simpl; apply elem_of_union_l, elem_of_singleton; reflexivity.
Qed.

Lemma parseRow_known_key headers i line seen c s :
  mslCandidate headers line = Some (c, s) ->
  dupKey c s ∈ seen ->
  isValid (parseRow headers i line seen).1 = false /\
  error (parseRow headers i line seen).1
  = rowLabel i +:+ ": Duplicate SKU in same category".
Proof.
  intros (Hc & Hs & H1 & H2 & H3 & H4)%candidate_cells Hin.
  unfold parseRow. rewrite Hc, Hs, H1, H2, H3, H4. simpl.
  rewrite bool_decide_eq_true_2 by exact Hin. simpl. by split.
Qed.

Lemma parseRow_new_key headers i line seen c s :
  mslCandidate headers line = Some (c, s) ->
  dupKey c s ∉ seen ->
  isValid (parseRow headers i line seen).1
  = negb (badPriority (priority (parseRow headers i line seen).1)).
Proof.
  intros (Hc & Hs & H1 & H2 & H3 & H4)%candidate_cells Hin.
  unfold parseRow. rewrite Hc, Hs, H1, H2, H3, H4. simpl.
  rewrite bool_decide_eq_false_2 by exact Hin. simpl.
  set (p := parseInt (orEmpty (at_ (rowValues line) (indexOf "PRIORITY" headers)))).
  destruct (badPriority p) eqn:Hb; simpl; by rewrite Hb.
Qed.

(** [seenSkus] only receives keys of lines with their required cells. *)
Lemma parseRow_seen_origin headers i line seen key :
  key ∈ (parseRow headers i line seen).2 ->
  key ∈ seen \/
  exists c s, mslCandidate headers line = Some (c, s) /\ key = dupKey c s.
Proof.
  unfold parseRow, mslCandidate. cbv zeta.
  set (values := rowValues line).
  set (cat := orEmpty (at_ values (indexOf "CATEGORY" headers))).
  set (sku := orEmpty (at_ values (indexOf "SKU_CODE" headers))).
  destruct (falsy cat || falsy sku
            || falsy (orEmpty (at_ values (indexOf "PRODUCT_NAME" headers)))
            || falsy (orEmpty (at_ values (indexOf "PRIORITY" headers)))); simpl.
  { by left. }
  destruct (bool_decide (dupKey cat sku ∈ seen)); simpl.
  { by left. }
  destruct (badPriority _); simpl;
    (intros [Hk|Hk]%elem_of_union; [right|by left]);
    apply elem_of_singleton in Hk; by exists cat, sku.
Qed.

Lemma parseRows_known_key headers rest :
  forall i seen k line c s,
    rest !! k = Some line ->
    mslCandidate headers line = Some (c, s) ->
    dupKey c s ∈ seen ->
    exists row,
      parseRows headers i rest seen !! k = Some row /\
      isValid row = false /\
      error row = rowLabel (i + k) +:+ ": Duplicate SKU in same category".
Proof.
  induction rest as [|l rest IH]; intros i seen k line c s Hk Hc Hin; [discriminate|].
  simpl. pose proof (parseRow_seen headers i l seen) as [Hsub _].
  destruct k as [|k]; simpl in Hk.
  - injection Hk as ->.
    destruct (parseRow_known_key headers i line seen c s Hc Hin) as [Hv He].
    destruct (parseRow headers i line seen) as [row seen']. simpl in *.
    exists row. by rewrite Nat.add_0_r.
  - destruct (parseRow headers i l seen) as [row seen']. simpl in *.
    destruct (IH (S i) seen' k line c s Hk Hc (Hsub _ Hin)) as (r & Hr & Hv & He).
    exists r. by rewrite Nat.add_succ_r.
Qed.

Lemma parseRows_repeated_key headers rest :
  forall i seen j k l1 l2 c1 s1 c2 s2,
    (j < k)%nat ->
    rest !! j = Some l1 -> rest !! k = Some l2 ->
    mslCandidate headers l1 = Some (c1, s1) ->
    mslCandidate headers l2 = Some (c2, s2) ->
    dupKey c1 s1 = dupKey c2 s2 ->
    exists row,
      parseRows headers i rest seen !! k = Some row /\
      isValid row = false /\
      error row = rowLabel (i + k) +:+ ": Duplicate SKU in same category".
Proof.
  induction rest as [|l rest IH];
    intros i seen j k l1 l2 c1 s1 c2 s2 Hjk Hj Hk H1 H2 Hkey; [discriminate|].
  destruct k as [|k]; [lia|]. simpl in Hk. simpl.
  destruct j as [|j]; simpl in Hj.
  - injection Hj as ->.
    pose proof (parseRow_keeps_key headers i l1 seen c1 s1 H1) as Hin.
    destruct (parseRow headers i l1 seen) as [row seen']. simpl in *.
    rewrite Hkey in Hin.
    destruct (parseRows_known_key headers rest (S i) seen' k l2 c2 s2 Hk H2 Hin)
      as (r & Hr & Hv & He).
    exists r. by rewrite Nat.add_succ_r.
  - destruct (parseRow headers i l seen) as [row seen'].
    destruct (IH (S i) seen' j k l1 l2 c1 s1 c2 s2 ltac:(lia) Hj Hk H1 H2 Hkey)
      as (r & Hr & Hv & He).
    exists r. simpl. by rewrite Nat.add_succ_r.
Qed.

Lemma parseRows_new_key headers rest :
  forall i seen k line c s,
    rest !! k = Some line ->
    mslCandidate headers line = Some (c, s) ->
    dupKey c s ∉ seen ->
    (forall j l1 c1 s1,
        (j < k)%nat -> rest !! j = Some l1 ->
        mslCandidate headers l1 = Some (c1, s1) -> dupKey c1 s1 <> dupKey c s) ->
    exists row,
      parseRows headers i rest seen !! k = Some row /\
      isValid row = negb (badPriority (priority row)).
Proof.
  induction rest as [|l rest IH]; intros i seen k line c s Hk Hc Hnew Hother;
    [discriminate|].
  simpl. destruct k as [|k]; simpl in Hk.
  - injection Hk as ->.
    pose proof (parseRow_new_key headers i line seen c s Hc Hnew) as Hv.
    destruct (parseRow headers i line seen) as [row seen']. simpl in *.
    by exists row.
  - pose proof (parseRow_seen_origin headers i l seen (dupKey c s)) as Horigin.
    destruct (parseRow headers i l seen) as [row seen']. simpl in *.
    destruct (IH (S i) seen' k line c s Hk Hc) as (r & Hr & Hv).
    + intros Hin. destruct (Horigin Hin) as [Hold|(c1 & s1 & Hc1 & Heq)].
      * contradiction.
      * apply (Hother 0%nat l c1 s1); [lia|reflexivity|exact Hc1|by symmetry].
    + intros j l1 c1 s1 Hj Hl1. apply (Hother (S j) l1 c1 s1); [lia|exact Hl1].
    + by exists r.
Qed.

(** X3.  In an ASCII file, a line that has its four required cells and
    whose text [category-sku] equals that of an earlier line with its four
    required cells gives an invalid row with the duplicate reason and its
    own row number; the earlier line need not have given a valid row. *)
Theorem msl_repeated_key_is_rejected
    (text : string) parsed (j k : nat) l1 l2 c1 s1 c2 s2 :
  asciiText text = true ->
  parseCsv text = Preview parsed ->
  (j < k)%nat ->
  dataLines text !! j = Some l1 ->
  dataLines text !! k = Some l2 ->
  mslCandidate (headerColumns text) l1 = Some (c1, s1) ->
  mslCandidate (headerColumns text) l2 = Some (c2, s2) ->
  dupKey c1 s1 = dupKey c2 s2 ->
  exists row,
    parsed !! k = Some row /\
    isValid row = false /\
    error row
    = "Row " +:+ showN (N.of_nat (k + 2)) +:+ ": Duplicate SKU in same category".
Proof.
  intros _ ->%parseCsv_preview Hjk Hj Hk H1 H2 Hkey.
  destruct (parseRows_repeated_key (headerColumns text) (dataLines text) 1 ∅
              j k l1 l2 c1 s1 c2 s2 Hjk Hj Hk H1 H2 Hkey) as (row & Hr & Hv & He).
  exists row. split; [exact Hr|]. split; [exact Hv|].
  rewrite He. unfold rowLabel. rewrite app_assoc'.
  by replace (1 + k + 1)%nat with (k + 2)%nat by lia.
Qed.

(** X4.  In an ASCII file whose priorities the engine reads exactly, a
    line that has its four required cells and whose text [category-sku]
    differs from that of every earlier line with its four required cells
    gives a row that is valid exactly when its priority is an integer of
    at least 1. *)
Theorem msl_new_key_is_judged_on_priority
    (text : string) parsed (k : nat) line c s :
  asciiText text = true ->
  safePriorities text = true ->
  parseCsv text = Preview parsed ->
  dataLines text !! k = Some line ->
  mslCandidate (headerColumns text) line = Some (c, s) ->
  (forall j l1 c1 s1,
      (j < k)%nat -> dataLines text !! j = Some l1 ->
      mslCandidate (headerColumns text) l1 = Some (c1, s1) ->
      dupKey c1 s1 <> dupKey c s) ->
  exists row,
    parsed !! k = Some row /\
    isValid row = negb (badPriority (priority row)).
Proof.
  intros _ _ ->%parseCsv_preview Hk Hc Hother.
  apply (parseRows_new_key (headerColumns text) (dataLines text) 1 ∅ k line c s);
    try assumption.
  apply not_elem_of_empty.
Qed.

End MslDuplicates.

(** ** The category summary of the preview *)

Section CategorySummaryFacts.
Import Js Spec MSLCsvUpload.

Lemma uniq_snoc l x :
  uniq (l ++ [x]) = if bool_decide (x ∈ l) then uniq l else uniq l ++ [x].
Proof.
  induction l as [|a l IH]; simpl; [reflexivity|].
  rewrite IH. destruct (decide (x = a)) as [->|Hne].
  - rewrite (bool_decide_eq_true_2 (a ∈ a :: l)) by (apply elem_of_cons; by left).
    destruct (bool_decide (a ∈ l)); [reflexivity|].
    rewrite filter_app. rewrite (filter_cons_False _ a) by (intros H; by apply H).
    by rewrite filter_nil, app_nil_r.
  - destruct (bool_decide (x ∈ l)) eqn:Hx.
    + apply bool_decide_eq_true in Hx.
      by rewrite (bool_decide_eq_true_2 (x ∈ a :: l)) by (apply elem_of_cons; by right).
    + apply bool_decide_eq_false in Hx.
      rewrite (bool_decide_eq_false_2 (x ∈ a :: l))
        by (intros [?|?]%elem_of_cons; [by apply Hne|by apply Hx]).
      rewrite filter_app. by rewrite (filter_cons_True _ x), filter_nil by exact Hne.
Qed.

Lemma uniq_NoDup l : NoDup (uniq l).
Proof.
  induction l as [|a l IH]; simpl; [constructor|].
  apply NoDup_cons. split; [|by apply NoDup_filter].
  intros [Hne _]%list_elem_of_filter. by apply Hne.
Qed.

Lemma rowsOfCategory_snoc c done item :
  rowsOfCategory c (done ++ [item])
  = rowsOfCategory c done ++ (if String.eqb (category item) c then [item] else []).
Proof. unfold rowsOfCategory. rewrite List.filter_app. reflexivity. Qed.

Lemma pushItem_entries item done cs :
  NoDup cs ->
  (category item ∉ cs -> rowsOfCategory (category item) done = []) ->
  pushItem item (map (fun c => (c, rowsOfCategory c done)) cs)
  = map (fun c => (c, rowsOfCategory c (done ++ [item])))
      (if bool_decide (category item ∈ cs) then cs else cs ++ [category item]).
Proof.
  induction cs as [|c cs IH]; intros Hnd Hfresh.
  - simpl. rewrite rowsOfCategory_snoc, String.eqb_refl, Hfresh; [reflexivity|].
    apply not_elem_of_nil.
  - apply NoDup_cons in Hnd as [Hc Hnd]. simpl.
    destruct (String.eqb_spec c (category item)) as [->|Hne].
    + rewrite bool_decide_eq_true_2 by (apply elem_of_cons; by left). simpl.
      rewrite rowsOfCategory_snoc, String.eqb_refl. f_equal.
      apply map_ext_in. intros c' Hc'. f_equal.
      rewrite rowsOfCategory_snoc.
      destruct (String.eqb_spec (category item) c') as [<-|_]; [|by rewrite app_nil_r].
      exfalso. by apply Hc, list_elem_of_In.
    + rewrite IH; [|exact Hnd|].
      * destruct (bool_decide (category item ∈ cs)) eqn:Hin.
        -- apply bool_decide_eq_true in Hin.
           rewrite bool_decide_eq_true_2 by (apply elem_of_cons; by right). simpl. f_equal. f_equal.
           rewrite rowsOfCategory_snoc.
           destruct (String.eqb_spec (category item) c) as [Heq|_];
             [by symmetry in Heq|by rewrite app_nil_r].
        -- apply bool_decide_eq_false in Hin.
           rewrite bool_decide_eq_false_2
             by (intros [?|?]%elem_of_cons; [by apply Hne|by apply Hin]).
           simpl. f_equal. f_equal. rewrite rowsOfCategory_snoc.
           destruct (String.eqb_spec (category item) c) as [Heq|_];
             [by symmetry in Heq|by rewrite app_nil_r].
      * intros Hnot. apply Hfresh. intros [?|?]%elem_of_cons; [by apply Hne|by apply Hnot].
Qed.

Lemma rowsOfCategory_absent c items :
  c ∉ map category items -> rowsOfCategory c items = [].
Proof.
  intros Hc. unfold rowsOfCategory. apply filter_none. intros item Hin.
  destruct (String.eqb_spec (category item) c) as [<-|]; [|reflexivity].
  exfalso. apply Hc. by apply list_elem_of_In, in_map, list_elem_of_In.
Qed.

(** The [Map] after the items [done ++ items] were pushed. *)
Lemma categoryMap_from done items :
  fold_left (fun m item => pushItem item m) items
    (map (fun c => (c, rowsOfCategory c done)) (uniq (map category done)))
  = map (fun c => (c, rowsOfCategory c (done ++ items)))
      (uniq (map category (done ++ items))).
Proof.
  revert done. induction items as [|item items IH]; intros done; simpl.
  - by rewrite app_nil_r.
  - rewrite pushItem_entries.
    + replace (done ++ item :: items) with ((done ++ [item]) ++ items)
        by (by rewrite <- app_assoc).
      rewrite <- IH. f_equal. rewrite map_app. simpl. rewrite uniq_snoc.
      destruct (bool_decide (category item ∈ map category done)) eqn:Hin.
      * apply bool_decide_eq_true in Hin.
        by rewrite bool_decide_eq_true_2 by (by apply uniq_elem).
      * apply bool_decide_eq_false in Hin.
        by rewrite bool_decide_eq_false_2 by (by rewrite uniq_elem).
    + apply uniq_NoDup.
    + intros Hnot. apply rowsOfCategory_absent. by rewrite <- uniq_elem.
Qed.

Lemma categoryMap_closed valid :
  categoryMap valid
  = map (fun c => (c, rowsOfCategory c valid)) (categoriesToUpdate valid).
Proof. unfold categoryMap, categoriesToUpdate. apply (categoryMap_from [] valid). Qed.

Lemma insertSorted_perm a sorted : insertSorted a sorted ≡ₚ a :: sorted.
Proof.
  induction sorted as [|b rest IH]; simpl; [reflexivity|].
  destruct (sortsBefore b a); [|reflexivity].
  rewrite IH. apply Permutation_swap.
Qed.

Lemma sortByPriority_perm items : sortByPriority items ≡ₚ items.
Proof.
  induction items as [|a items IH]; simpl; [reflexivity|].
  by rewrite insertSorted_perm, IH.
Qed.

Lemma priorityLe_trans a b c : priorityLe a b -> priorityLe b c -> priorityLe a c.
Proof.
  unfold priorityLe.
  destruct (priority a), (priority b), (priority c); try tauto. lia.
Qed.

Lemma insertSorted_sorted a sorted :
  is_Some (priority a) -> Forall (fun b => is_Some (priority b)) sorted ->
  StronglySorted priorityLe sorted ->
  StronglySorted priorityLe (insertSorted a sorted).
Proof.
  intros [pa Ha] Hall Hs. induction Hs as [|b rest Hrest IH Hb]; simpl.
  - repeat constructor.
  - apply Forall_cons in Hall as [[pb Hpb] Hall].
    unfold sortsBefore. rewrite Ha, Hpb.
    destruct (pb <? pa)%Z eqn:Hlt.
    + apply Z.ltb_lt in Hlt. constructor; [by apply IH|].
      rewrite insertSorted_perm. constructor; [|exact Hb].
      unfold priorityLe. rewrite Ha, Hpb. lia.
    + apply Z.ltb_ge in Hlt.
      assert (Hab : priorityLe a b) by (unfold priorityLe; by rewrite Ha, Hpb).
      constructor; [by constructor|]. constructor; [exact Hab|].
      eapply Forall_impl; [exact Hb|]. intros c. by apply priorityLe_trans.
Qed.

Lemma sortByPriority_sorted items :
  Forall (fun b => is_Some (priority b)) items ->
  StronglySorted priorityLe (sortByPriority items).
Proof.
  induction 1 as [|a items Ha Hall IH]; simpl; [constructor|].
  apply insertSorted_sorted; [exact Ha| |exact IH].
  by rewrite sortByPriority_perm.
Qed.

Lemma insertSorted_stable p a sorted :
  rowsOfPriority p (insertSorted a sorted) = rowsOfPriority p (a :: sorted).
Proof.
  unfold rowsOfPriority. induction sorted as [|b rest IH]; simpl; [reflexivity|].
  destruct (sortsBefore b a) eqn:Hba; [|reflexivity].
  simpl. rewrite IH. simpl.
  destruct (bool_decide (priority a = Some p)) eqn:Hap;
    destruct (bool_decide (priority b = Some p)) eqn:Hbp; try reflexivity.
  apply bool_decide_eq_true in Hap, Hbp. unfold sortsBefore in Hba.
  rewrite Hap, Hbp in Hba. apply Z.ltb_lt in Hba. lia.
Qed.

Lemma sortByPriority_stable p items :
  rowsOfPriority p (sortByPriority items) = rowsOfPriority p items.
Proof.
  induction items as [|a items IH]; simpl; [reflexivity|].
  rewrite insertSorted_stable. unfold rowsOfPriority in *. simpl. by rewrite IH.
Qed.

Lemma pushItem_total item m :
  length (concat (map snd (pushItem item m))) = S (length (concat (map snd m))).
Proof.
  induction m as [|[c items] m IH]; simpl; [reflexivity|].
  destruct (String.eqb c (category item)); simpl.
  - rewrite !length_app. simpl. lia.
  - rewrite !length_app, IH. lia.
Qed.

Lemma categoryMap_total valid :
  length (concat (map snd (categoryMap valid))) = length valid.
Proof.
  unfold categoryMap.
  assert (Hgen : forall m,
             length (concat (map snd (fold_left (fun m item => pushItem item m) valid m)))
             = (length valid + length (concat (map snd m)))%nat).
  { induction valid as [|item valid IH]; intros m; simpl; [reflexivity|].
    rewrite IH, pushItem_total. lia. }
  rewrite Hgen. simpl. lia.
Qed.

Lemma sum_counts (m : list (string * list CsvMSLItem)) :
  sum_list (map (fun entry => length entry.2) m) = length (concat (map snd m)).
Proof.
  induction m as [|[c items] m IH]; simpl; [reflexivity|].
  by rewrite length_app, IH.
Qed.

Lemma uploadResult_lookup (f : string -> nat) (g : string -> list CsvMSLItem) cs c :
  forall acc : gmap string nat,
    fold_left
      (fun result cat =>
         if String.eqb (cs_category cat) "__proto__" then result
         else <[cs_category cat := cs_count cat]> result)
      (map (fun c => mkCategorySummary c (f c) (g c)) cs) acc !! c
    = if bool_decide (c ∈ cs) && negb (String.eqb c "__proto__")
      then Some (f c) else acc !! c.
Proof.
  induction cs as [|c0 cs IH]; intros acc; simpl; [reflexivity|].
  rewrite IH. destruct (bool_decide (c ∈ cs)) eqn:Hin.
  - apply bool_decide_eq_true in Hin.
    rewrite (bool_decide_eq_true_2 (c ∈ c0 :: cs)) by (apply elem_of_cons; by right).
    simpl. destruct (String.eqb_spec c "__proto__") as [->|Hc]; simpl; [|reflexivity].
    destruct (String.eqb_spec c0 "__proto__") as [->|Hc0]; [reflexivity|].
    by apply lookup_insert_ne.
  - apply bool_decide_eq_false in Hin. simpl.
    destruct (decide (c = c0)) as [->|Hne].
    + rewrite (bool_decide_eq_true_2 (c0 ∈ c0 :: cs)) by (apply elem_of_cons; by left).
      simpl. destruct (String.eqb c0 "__proto__"); simpl; [reflexivity|].
      apply lookup_insert_eq.
    + rewrite (bool_decide_eq_false_2 (c ∈ c0 :: cs))
        by (intros [?|?]%elem_of_cons; [by apply Hne|by apply Hin]).
      simpl. destruct (String.eqb c0 "__proto__"); [reflexivity|].
      by apply lookup_insert_ne.
Qed.

(** X5.  For parsed rows whose valid rows have integer priorities that
    the engine holds exactly, the summary has one entry per category of a
    valid row, in the order in which the categories first appear, which
    are also the categories that the commit deletes.  The count of an
    entry is the number of valid rows of its category, the counts add up
    to the number of valid rows, and the items of an entry are those rows
    in ascending priority, rows of equal priority staying in file order.
    The result object of the commit has as its own keys these categories,
    each with its count, except a category named [__proto__], for which
    the assignment creates no key. *)
Theorem msl_summary_groups_valid_rows (parsed : list CsvMSLItem) :
  Forall (fun row => safePriority row = true) (validItems parsed) ->
  let valid := validItems parsed in
  let summary := categorySummary parsed in
  map cs_category summary = categoriesToUpdate valid /\
  NoDup (map cs_category summary) /\
  sum_list (map cs_count summary) = validCount parsed /\
  Forall (fun entry =>
            let own := rowsOfCategory (cs_category entry) valid in
            cs_count entry = length own /\
            (0 < cs_count entry)%nat /\
            cs_items entry ≡ₚ own /\
            StronglySorted priorityLe (cs_items entry) /\
            forall p, rowsOfPriority p (cs_items entry) = rowsOfPriority p own)
    summary /\
  forall c,
    uploadResult summary !! c
    = if bool_decide (c ∈ map category valid) && negb (String.eqb c "__proto__")
      then Some (length (rowsOfCategory c valid))
      else None.
Proof.
  intros Hsafe valid summary. fold valid in Hsafe.
  assert (Hprio : forall item, item ∈ valid -> exists p, priority item = Some p).
  { intros item Hin. rewrite Forall_forall in Hsafe. specialize (Hsafe item Hin).
    unfold safePriority in Hsafe. destruct (priority item) as [p|]; [|discriminate].
    by exists p. }
  assert (Hsum : summary
                 = map (fun c => mkCategorySummary c (length (rowsOfCategory c valid))
                                   (sortByPriority (rowsOfCategory c valid)))
                     (categoriesToUpdate valid)).
  { subst summary. unfold categorySummary. fold valid.
    by rewrite categoryMap_closed, map_map. }
  assert (Hcats : map cs_category summary = categoriesToUpdate valid).
  { rewrite Hsum, map_map. simpl. apply map_id. }
  split; [exact Hcats|]. split; [rewrite Hcats; apply uniq_NoDup|].
  split; [|split].
  - subst summary. unfold categorySummary, validCount. fold valid.
    rewrite map_map. simpl.
    by rewrite (sum_counts (categoryMap valid)), categoryMap_total.
  - rewrite Hsum. apply Forall_forall. intros entry Hin.
    apply list_elem_of_In, in_map_iff in Hin as (c & <- & Hc). simpl.
    apply list_elem_of_In in Hc. unfold categoriesToUpdate in Hc.
    apply (proj1 (uniq_elem _ _)) in Hc.
    split; [reflexivity|]. split; [|split; [|split]].
    + apply list_elem_of_In, in_map_iff in Hc as (item & <- & Hitem).
      assert (Hown : In item (rowsOfCategory (category item) valid)).
      { apply filter_In. split; [exact Hitem|apply String.eqb_refl]. }
      destruct (rowsOfCategory (category item) valid); [destruct Hown|simpl; lia].
    + apply sortByPriority_perm.
    + apply sortByPriority_sorted, Forall_forall. intros item Hitem.
      apply list_elem_of_In, filter_In in Hitem as [Hitem _].
      destruct (Hprio item) as (p & Hp); [by apply list_elem_of_In|].
      by rewrite Hp.
    + intros p. apply sortByPriority_stable.
  - intros c. rewrite Hsum. unfold uploadResult.
    rewrite (uploadResult_lookup (fun c => length (rowsOfCategory c valid))
               (fun c => sortByPriority (rowsOfCategory c valid))).
    unfold categoriesToUpdate.
    destruct (bool_decide (c ∈ map category valid)) eqn:Hin.
    + apply bool_decide_eq_true in Hin.
      by rewrite bool_decide_eq_true_2 by (by apply uniq_elem).
    + apply bool_decide_eq_false in Hin.
      by rewrite bool_decide_eq_false_2 by (by rewrite uniq_elem).
Qed.

End CategorySummaryFacts.

(** ** Instances on a sample file *)

Section MslInstances.
Import Js Spec MSLCsvUpload.

Lemma sample_preview : parseCsv Sample.mslText = Preview Sample.mslRows.
Proof. vm_compute. reflexivity. Defined.

(** The sample file has four data lines and gives four rows. *)
Lemma msl_preview_one_row_per_line_witness :
  asciiText Sample.mslText = true /\
  safePriorities Sample.mslText = true /\
  parseCsv Sample.mslText = Preview Sample.mslRows /\
  length Sample.mslRows = 4%nat.
Proof.
  split; [reflexivity|]. split; [reflexivity|]. split; [exact sample_preview|].
  destruct (msl_preview_one_row_per_line Sample.mslText Sample.mslRows
              eq_refl eq_refl sample_preview)
    as [Hlen _].
  rewrite Hlen. vm_compute. reflexivity.
Defined.

(** The valid rows of the sample file have distinct keys. *)
Lemma msl_preview_rows_are_classified_witness :
  asciiText Sample.mslText = true /\
  safePriorities Sample.mslText = true /\
  parseCsv Sample.mslText = Preview Sample.mslRows /\
  NoDup (map (fun row => (category row, sku_code row)) (validItems Sample.mslRows)).
Proof.
  split; [reflexivity|]. split; [reflexivity|]. split; [exact sample_preview|].
  exact (proj1 (msl_preview_rows_are_classified
                  Sample.mslText Sample.mslRows eq_refl eq_refl sample_preview)).
Defined.

(** The second row of the sample file repeats the key of the first. *)
Lemma msl_repeated_key_is_rejected_witness :
  exists row,
    Sample.mslRows !! 1%nat = Some row /\
    isValid row = false /\
    error row = "Row 3: Duplicate SKU in same category".
Proof.
  destruct (msl_repeated_key_is_rejected Sample.mslText Sample.mslRows 0 1
              "GT PROV,LOR001,Mascara,2" "GT PROV,LOR001,Mascara again,1"
              "GT PROV" "LOR001" "GT PROV" "LOR001")
    as (row & Hrow & Hvalid & Herror).
  - reflexivity.
  - exact sample_preview.
  - lia.
  - vm_compute. reflexivity.
  - vm_compute. reflexivity.
  - vm_compute. reflexivity.
  - vm_compute. reflexivity.
  - reflexivity.
  - exists row. split; [exact Hrow|]. split; [exact Hvalid|]. exact Herror.
Defined.

(** The third row of the sample file has a key of its own. *)
Lemma msl_new_key_is_judged_on_priority_witness :
  exists row,
    Sample.mslRows !! 2%nat = Some row /\
    isValid row = negb (badPriority (priority row)).
Proof.
  apply (msl_new_key_is_judged_on_priority Sample.mslText Sample.mslRows 2
           "GT PROV,LOR002,Toner,1" "GT PROV" "LOR002").
  - reflexivity.
  - reflexivity.
  - exact sample_preview.
  - vm_compute. reflexivity.
  - vm_compute. reflexivity.
  - intros j l1 c1 s1 Hj Hl Hc.
    destruct j as [|[|j]]; [| |lia];
      vm_compute in Hl; injection Hl as <-;
      vm_compute in Hc; injection Hc as <- <-; vm_compute; discriminate.
Defined.

(** The sample file has valid rows of the two categories GT PROV and MT. *)
Lemma msl_summary_groups_valid_rows_witness :
  Forall (fun row => safePriority row = true) (validItems Sample.mslRows) /\
  map cs_category (categorySummary Sample.mslRows) = ["GT PROV"; "MT"].
Proof.
  assert (Hsafe : Forall (fun row => safePriority row = true)
                    (validItems Sample.mslRows)).
  { apply (bool_decide_unpack _). vm_compute. exact I. }
  split; [exact Hsafe|].
  destruct (msl_summary_groups_valid_rows Sample.mslRows Hsafe) as [Hcats _].
  rewrite Hcats. vm_compute. reflexivity.
Defined.

End MslInstances.

(** ** Commits of the MSL preview that meet a failure *)

Section MslCommitFaults.
Import Supabase.

Lemma itemsOutside_nil table : Spec.itemsOutside [] table = table.
Proof. unfold Spec.itemsOutside. by apply filter_all. Qed.

Lemma itemsOutside_cons c cats table :
  Spec.itemsOutside cats
    (List.filter (fun r => negb (String.eqb (category r) c)) table)
  = Spec.itemsOutside (c :: cats) table.
Proof.
  unfold Spec.itemsOutside. rewrite filter_filter_andb.
  apply List.filter_ext. intros r. simpl. by rewrite negb_orb.
Qed.

Lemma itemsOf_itemsOutside c cats table :
  c ∈ cats -> Spec.itemsOf c (Spec.itemsOutside cats table) = [].
Proof.
  intros Hc. unfold Spec.itemsOf, Spec.itemsOutside. rewrite filter_filter_andb.
  apply filter_none. intros r _.
  destruct (String.eqb_spec (category r) c) as [->|]; [|apply andb_false_r].
  by rewrite (proj2 (includes_elem c cats) Hc).
Qed.

Lemma itemsOf_itemsOutside_other c cats table :
  c ∉ cats -> Spec.itemsOf c (Spec.itemsOutside cats table) = Spec.itemsOf c table.
Proof.
  intros Hc. unfold Spec.itemsOf, Spec.itemsOutside. rewrite filter_filter_andb.
  apply List.filter_ext. intros r.
  destruct (String.eqb_spec (category r) c) as [->|]; [|apply andb_false_r].
  destruct (Js.includes c cats) eqn:Hin; [|reflexivity].
  exfalso. by apply Hc, includes_elem.
Qed.

(** One turn of the loop of deletions. *)
Lemma deleteExisting_cons c cats w :
  MSLCsvUpload.deleteExisting (c :: cats) w
  = if (issue (DeleteEqCategory c) w).1
    then (Thrown "request failed", (issue (DeleteEqCategory c) w).2)
    else MSLCsvUpload.deleteExisting cats
           (setTable
              (List.filter (fun r => negb (String.eqb (category r) c))
                 (msl_items (issue (DeleteEqCategory c) w).2))
              (issue (DeleteEqCategory c) w).2).
Proof.
  unfold MSLCsvUpload.deleteExisting. simpl. unfold bind at 1 2.
  unfold deleteEqCategory.
  destruct (issue (DeleteEqCategory c) w) as [[] w1]; reflexivity.
Qed.

(** The loop of deletions, whatever the store answers. *)
Lemma deleteExisting_run cats :
  forall w,
    let r := MSLCsvUpload.deleteExisting cats w in
    match r.1 with
    | Done _ =>
        msl_items r.2 = Spec.itemsOutside cats (msl_items w) /\
        log r.2 = log w ++ map DeleteEqCategory cats
    | Thrown _ =>
        exists k c,
          cats !! k = Some c /\
          msl_items r.2 = Spec.itemsOutside (take k cats) (msl_items w) /\
          log r.2 = log w ++ map DeleteEqCategory (take (S k) cats)
    end.
Proof.
  induction cats as [|c cats IH]; intros w; cbv zeta.
  - simpl. by rewrite itemsOutside_nil, app_nil_r.
  - rewrite deleteExisting_cons.
    pose proof (issue_table (DeleteEqCategory c) w) as Ht.
    pose proof (issue_log (DeleteEqCategory c) w) as Hl.
    destruct (issue (DeleteEqCategory c) w) as [fault w1]. simpl in Ht, Hl.
    destruct fault; simpl.
    + exists 0%nat, c. simpl. rewrite itemsOutside_nil. by rewrite Ht, Hl.
    + specialize (IH (setTable
                        (List.filter (fun r => negb (String.eqb (category r) c))
                           (msl_items w1)) w1)).
      cbv zeta in IH.
      destruct (MSLCsvUpload.deleteExisting cats _) as [[u|e] w2]; simpl in *.
      * destruct IH as [Ht2 Hl2]. rewrite Ht2, Hl2, Ht, Hl, itemsOutside_cons.
        by rewrite <- app_assoc.
      * destruct IH as (k & c' & Hk & Ht2 & Hl2). exists (S k), c'. simpl.
        split; [exact Hk|]. rewrite Ht2, Hl2, Ht, Hl, itemsOutside_cons.
        by rewrite <- app_assoc.
Qed.

(** The insert, whatever the store answers: rows are added only with
    [error: null]. *)
Lemma insertNew_run valid w :
  let r := MSLCsvUpload.insertNew valid w in
  log r.2 = log w ++ [InsertRows (MSLCsvUpload.insertData valid)] /\
  match r.1 with
  | Done b =>
      b = true /\
      exists new,
        acceptAll (MSLCsvUpload.insertData valid) = Some new /\
        msl_items r.2 = msl_items w ++ new
  | Thrown _ => msl_items r.2 = msl_items w
  end.
Proof.
  unfold MSLCsvUpload.insertNew, bind, insert.
  pose proof (issue_table (InsertRows (MSLCsvUpload.insertData valid)) w) as Ht.
  pose proof (issue_log (InsertRows (MSLCsvUpload.insertData valid)) w) as Hl.
  destruct (issue (InsertRows (MSLCsvUpload.insertData valid)) w) as [fault w1].
  simpl in Ht, Hl.
  destruct fault; simpl; [by split|].
  destruct (acceptAll (MSLCsvUpload.insertData valid)) as [new|]; simpl; [|by split].
  destruct (uniqueWith (msl_items w1) new); simpl; [|by split].
  split; [exact Hl|]. split; [reflexivity|]. exists new. by rewrite Ht.
Qed.

(** X6.  Whatever the store answers to each request, a commit ends in one
    of three ways.  With the success message, every category of a valid
    row was emptied and the valid rows were added as the table accepts
    them.  With the failure alert after a refused deletion: the categories
    before the refused one are emptied, the later ones untouched, and no
    insert is sent.  With the failure alert after a refused insert: every
    category of a valid row is left empty.  The commit never ends with an
    exception of its own. *)
Theorem msl_commit_outcomes
    (parsedItems : list MSLCsvUpload.CsvMSLItem) (w : World) :
  let valid := MSLCsvUpload.validItems parsedItems in
  let cats := MSLCsvUpload.categoriesToUpdate valid in
  let r := MSLCsvUpload.uploadMSL parsedItems w in
  let sent := InsertRows (MSLCsvUpload.insertData valid) in
  match r.1 with
  | Done true =>
      (exists new,
          acceptAll (MSLCsvUpload.insertData valid) = Some new /\
          msl_items r.2 = Spec.itemsOutside cats (msl_items w) ++ new) /\
      log r.2 = log w ++ map DeleteEqCategory cats ++ [sent]
  | Done false =>
      (exists k c,
          cats !! k = Some c /\
          msl_items r.2 = Spec.itemsOutside (take k cats) (msl_items w) /\
          log r.2 = log w ++ map DeleteEqCategory (take (S k) cats))
      \/
      (msl_items r.2 = Spec.itemsOutside cats (msl_items w) /\
       log r.2 = log w ++ map DeleteEqCategory cats ++ [sent] /\
       forall c, c ∈ map MSLCsvUpload.category valid ->
                 Spec.itemsOf c (msl_items r.2) = [])
  | Thrown _ => False
  end.
Proof.
  intros valid cats r sent. subst r.
  unfold MSLCsvUpload.uploadMSL, tryCatch, bind. fold valid. fold cats.
  pose proof (deleteExisting_run cats w) as Hd. cbv zeta in Hd.
  destruct (MSLCsvUpload.deleteExisting cats w) as [[u|e] w1]; simpl in *.
  - destruct Hd as [Ht Hl].
    pose proof (insertNew_run valid w1) as Hi. cbv zeta in Hi.
    destruct (MSLCsvUpload.insertNew valid w1) as [[b|e] w2]; simpl in *.
    + destruct Hi as (Hl2 & -> & new & Hnew & Ht2).
      split; [exists new; split; [exact Hnew|by rewrite Ht2, Ht]|].
      by rewrite Hl2, Hl, <- app_assoc.
    + destruct Hi as [Hl2 Ht2]. right.
      split; [by rewrite Ht2, Ht|]. split; [by rewrite Hl2, Hl, <- app_assoc|].
      intros c Hc. rewrite Ht2, Ht. apply itemsOf_itemsOutside.
      by apply uniq_elem.
  - left. exact Hd.
Qed.

(** The loop of deletions when the store refuses the deletion of the
    category at position [k] and none before. *)
Lemma deleteExisting_refused cats :
  forall w k c,
    cats !! k = Some c ->
    faults w !! k = Some true ->
    (forall j, (j < k)%nat -> faults w !! j = Some false) ->
    MSLCsvUpload.deleteExisting cats w
    = (Thrown "request failed",
       mkWorld (Spec.itemsOutside (take k cats) (msl_items w))
         (drop (S k) (faults w))
         (log w ++ map DeleteEqCategory (take (S k) cats))).
Proof.
  induction cats as [|c0 cats IH]; intros [table fs lg] k c Hk Hf Hbefore;
    [discriminate|].
  rewrite deleteExisting_cons. unfold issue, setTable. simpl in *.
  destruct k as [|k].
  - destruct fs as [|f fs]; [discriminate|]. injection Hf as ->. simpl.
    by rewrite itemsOutside_nil.
  - destruct fs as [|f fs]; [discriminate|].
    assert (Hf0 : f = false).
    { specialize (Hbefore 0%nat ltac:(lia)). by injection Hbefore. }
    subst f. simpl.
    rewrite (IH _ k c Hk); simpl.
    + rewrite itemsOutside_cons, <- app_assoc. reflexivity.
    + exact Hf.
    + intros j Hj. apply (Hbefore (S j)). lia.
Qed.

(** X7.  When the store refuses the deletion of the category at position
    [k] of the touched categories, after accepting the earlier ones, the
    commit ends with the failure alert, has sent [k + 1] deletions and no
    insert, and leaves the table without the items of the first [k]
    categories: these are lost, although no row of the file was stored;
    the items of every other category are as before. *)
Theorem msl_commit_refused_deletion
    (parsedItems : list MSLCsvUpload.CsvMSLItem) (w : World) (k : nat) (c : string) :
  let valid := MSLCsvUpload.validItems parsedItems in
  let cats := MSLCsvUpload.categoriesToUpdate valid in
  cats !! k = Some c ->
  faults w !! k = Some true ->
  (forall j, (j < k)%nat -> faults w !! j = Some false) ->
  let r := MSLCsvUpload.uploadMSL parsedItems w in
  r.1 = Done false /\
  msl_items r.2 = Spec.itemsOutside (take k cats) (msl_items w) /\
  log r.2 = log w ++ map DeleteEqCategory (take (S k) cats) /\
  faults r.2 = drop (S k) (faults w) /\
  (forall j c', (j < k)%nat -> cats !! j = Some c' ->
                Spec.itemsOf c' (msl_items r.2) = []) /\
  (forall c', c' ∉ take k cats ->
              Spec.itemsOf c' (msl_items r.2) = Spec.itemsOf c' (msl_items w)) /\
  Spec.itemsOf c (msl_items r.2) = Spec.itemsOf c (msl_items w).
Proof.
  intros valid cats Hk Hf Hbefore r. subst r.
  unfold MSLCsvUpload.uploadMSL, tryCatch, bind. fold valid. fold cats.
  rewrite (deleteExisting_refused cats w k c Hk Hf Hbefore). simpl.
  split; [reflexivity|]. split; [reflexivity|]. split; [reflexivity|].
  split; [reflexivity|]. split; [|split].
  - intros j c' Hj Hc'. apply itemsOf_itemsOutside.
    apply list_elem_of_lookup. exists j. rewrite lookup_take_lt by exact Hj. exact Hc'.
  - intros c' Hc'. by apply itemsOf_itemsOutside_other.
  - apply itemsOf_itemsOutside_other.
    intros Hin. apply list_elem_of_lookup in Hin as [j Hj].
    assert (Hjk : (j < k)%nat).
    { apply lookup_lt_Some in Hj. rewrite length_take in Hj. lia. }
    rewrite lookup_take_lt in Hj by exact Hjk.
    assert (Hnd : NoDup cats) by (subst cats; apply uniq_NoDup).
    pose proof (NoDup_lookup cats j k c Hnd Hj Hk). lia.
Qed.

Lemma acceptAll_refuses rows r :
  r ∈ rows -> accept r = None -> acceptAll rows = None.
Proof.
  intros Hin Hr. unfold acceptAll.
  destruct (mapM accept rows) as [new|] eqn:Hm; [|reflexivity].
  assert (Hall : is_Some (mapM accept rows)) by (by rewrite Hm).
  apply mapM_is_Some in Hall. rewrite Forall_forall in Hall.
  specialize (Hall r Hin). simpl in Hall. rewrite Hr in Hall. by destruct Hall.
Qed.

(** X8.  A row whose priority is larger than the [integer] column holds
    is valid in the preview, and the commit of a preview with such a row
    fails even when no request fails for an outside reason: the deletions
    have been carried out by then, so every category of a valid row is
    left empty and no row of the file is stored. *)
Theorem msl_commit_priority_overflow_empties_categories
    (parsedItems : list MSLCsvUpload.CsvMSLItem) (w : World)
    (item : MSLCsvUpload.CsvMSLItem) (p : Z) :
  faults w = [] ->
  item ∈ MSLCsvUpload.validItems parsedItems ->
  MSLCsvUpload.priority item = Some p ->
  (2147483647 < p)%Z ->
  let valid := MSLCsvUpload.validItems parsedItems in
  let cats := MSLCsvUpload.categoriesToUpdate valid in
  let r := MSLCsvUpload.uploadMSL parsedItems w in
  MSLCsvUpload.badPriority (MSLCsvUpload.priority item) = false /\
  r.1 = Done false /\
  msl_items r.2 = Spec.itemsOutside cats (msl_items w) /\
  log r.2
  = log w ++ map DeleteEqCategory cats ++ [InsertRows (MSLCsvUpload.insertData valid)] /\
  forall c, c ∈ map MSLCsvUpload.category valid ->
            Spec.itemsOf c (msl_items r.2) = [].
Proof.
  intros Hq Hin Hp Hbig valid cats r.
  assert (Hnone : acceptAll (MSLCsvUpload.insertData valid) = None).
  { apply (acceptAll_refuses _
             (mkMSLInsert (MSLCsvUpload.category item) (MSLCsvUpload.sku_code item)
                (MSLCsvUpload.product_name item) (MSLCsvUpload.priority item)
                (if Js.falsy (MSLCsvUpload.notes item) then None
                 else Some (MSLCsvUpload.notes item)))).
    - unfold MSLCsvUpload.insertData.
      apply list_elem_of_In, in_map_iff. exists item.
      split; [reflexivity|by apply list_elem_of_In].
    - unfold accept. simpl. rewrite Hp. unfold int4.
      replace (p <=? 2147483647)%Z with false by (symmetry; apply Z.leb_gt; lia).
      by rewrite andb_false_r. }
  split; [rewrite Hp; simpl; apply Z.ltb_ge; lia|].
  subst r. rewrite (uploadMSL_quiet parsedItems w Hq). fold valid. fold cats.
  unfold Spec.committed. fold cats. rewrite Hnone. simpl.
  split; [reflexivity|]. split; [reflexivity|].
  split; [by rewrite <- app_assoc|].
  intros c Hc. apply itemsOf_itemsOutside. by apply uniq_elem.
Qed.

End MslCommitFaults.

Section MslCommitInstances.
Import Supabase.

(** The store accepts the deletion of GT PROV and refuses that of MT: the
    stored GT PROV item is gone, no row of the file is stored. *)
Lemma msl_commit_refused_deletion_witness :
  let w := mkWorld Sample.table [false; true] [] in
  let r := MSLCsvUpload.uploadMSL Sample.mslRows w in
  r.1 = Done false /\
  map sku_code (msl_items r.2) = ["LOR008"; "LOR004"].
Proof.
  intros w r.
  destruct (msl_commit_refused_deletion Sample.mslRows w 1 "MT")
    as (Hout & Htable & _).
  - vm_compute. reflexivity.
  - reflexivity.
  - intros j Hj. destruct j as [|j]; [reflexivity|lia].
  - split; [exact Hout|]. subst r. rewrite Htable. vm_compute. reflexivity.
Defined.

(** The row of the overflow file is valid, and its commit empties GT PROV. *)
Lemma msl_commit_priority_overflow_empties_categories_witness :
  let w := mkWorld Sample.table [] [] in
  let r := MSLCsvUpload.uploadMSL Sample.overflowRows w in
  MSLCsvUpload.validCount Sample.overflowRows = 1%nat /\
  r.1 = Done false /\
  map sku_code (msl_items r.2) = ["LOR008"; "LOR004"].
Proof.
  intros w r. split; [vm_compute; reflexivity|].
  destruct (msl_commit_priority_overflow_empties_categories Sample.overflowRows w
              (MSLCsvUpload.mkCsvMSLItem "GT PROV" "LOR001" "Mascara"
                 (Some 3000000000%Z) "" true "")
              3000000000)
    as (_ & Hout & Htable & _).
  - reflexivity.
  - vm_compute. apply elem_of_cons. left. reflexivity.
  - reflexivity.
  - lia.
  - split; [exact Hout|]. subst r. rewrite Htable. vm_compute. reflexivity.
Defined.

End MslCommitInstances.

(** ** Rows of the product preview *)

Section ProductRows.
Import Rest ProductCsvUpload.
Variable parseFloat : string -> Number.
Variable existingSkus : gset string.

Lemma orZero_number n : exists q, orZero n = Some q /\ (n = Some q \/ q == 0)%Q.
Proof.
  destruct n as [q|]; simpl.
  - destruct (Qeq_bool q 0) eqn:Hq.
    + exists 0%Q. split; [reflexivity|]. by right.
    + exists q. split; [reflexivity|]. by left.
  - exists 0%Q. split; [reflexivity|]. by right.
Qed.

Lemma product_parseRows_length headers rest :
  forall i seen,
    length (parseRows parseFloat headers existingSkus i rest seen) = length rest.
Proof.
  induction rest as [|line rest IH]; intros i seen; simpl; [reflexivity|].
  destruct (parseRow parseFloat headers existingSkus i line seen) as [item seen'].
  simpl. by rewrite IH.
Qed.

Lemma product_parseRows_lookup headers rest :
  forall i seen k row,
    parseRows parseFloat headers existingSkus i rest seen !! k = Some row ->
    exists line seen',
      rest !! k = Some line /\
      row = (parseRow parseFloat headers existingSkus (i + k) line seen').1.
Proof.
  induction rest as [|line rest IH]; intros i seen k row; simpl; [discriminate|].
  destruct (parseRow parseFloat headers existingSkus i line seen)
    as [item seen'] eqn:Hrow.
  destruct k as [|k]; simpl.
  - intros [= <-]. exists line, seen. rewrite Nat.add_0_r, Hrow. by split.
  - intros Hk. destruct (IH (S i) seen' k row Hk) as (l & s' & Hl & ->).
    exists l, s'. split; [exact Hl|]. by rewrite Nat.add_succ_r.
Qed.

Lemma product_parseCsv_preview text parsed :
  parseCsv parseFloat existingSkus text = Preview parsed ->
  parsed
  = parseRows parseFloat (Spec.headerColumns text) existingSkus 1
      (Spec.dataLines text) ∅.
Proof.
  unfold parseCsv, Spec.headerColumns, Spec.dataLines.
  destruct (length (Js.split Js.LF (Js.trim text)) <? 2)%nat; [discriminate|].
  match goal with |- context [List.filter ?f requiredHeaders] =>
    destruct (0 <? length (List.filter f requiredHeaders))%nat; [discriminate|] end.
  by intros [= <-].
Qed.

Lemma falsy_orEmpty o : falsy o = false -> Js.falsy (Js.orEmpty o) = false.
Proof. by destruct o as [[|c s]|]. Qed.

(** One turn of the loop: what it does to [seenSkus] and what the flag of
    the row tells. *)
Lemma product_parseRow_verdict headers i line seen :
  let r := parseRow parseFloat headers existingSkus i line seen in
  seen ⊆ r.2 /\
  (exists d, discount r.1 = Some d) /\
  if isValid r.1
  then error r.1 = EmptyString /\
       Js.falsy (sku_code r.1) = false /\ Js.falsy (product_name r.1) = false /\
       Js.falsy (brand r.1) = false /\ Js.falsy (category r.1) = false /\
       (sku_code r.1 ∉ seen) /\ sku_code r.1 ∈ r.2 /\
       (exists q, price r.1 = Some q /\ (0 < q)%Q) /\
       (exists d, discount r.1 = Some d /\ (0 <= d)%Q /\ (d <= 100)%Q) /\
       action r.1
       = Some (if bool_decide (sku_code r.1 ∈ existingSkus) then UPDATE else INSERT)
  else exists reason,
         error r.1 = rowLabel i +:+ reason /\
         In reason
           [": Insufficient columns"; ": Missing required fields";
            ": Duplicate SKU in file"; ": Invalid price";
            ": Invalid discount (must be 0-100)"].
Proof.
  unfold parseRow.
  set (values := rowValues line).
  destruct (length values <? length requiredHeaders)%nat; simpl.
  { split; [reflexivity|]. split; [by eexists|].
    eexists. split; [reflexivity|]. simpl. tauto. }
  set (sku := Js.at_ values (Js.indexOf "SKU_CODE" headers)).
  set (name := Js.at_ values (Js.indexOf "PRODUCT_NAME" headers)).
  set (brd := Js.at_ values (Js.indexOf "BRAND" headers)).
  set (cat := Js.at_ values (Js.indexOf "CATEGORY" headers)).
  set (priceStr := Js.at_ values (Js.indexOf "PRICE" headers)).
  set (discountStr := if (0 <=? Js.indexOf "DISCOUNT" headers)%Z then _ else _).
  destruct (orZero_number (parseFloatU parseFloat discountStr)) as (d & Hd & _).
  destruct (falsy sku) eqn:Hsku; simpl.
  { split; [reflexivity|]. split; [by eexists|].
    eexists. split; [reflexivity|]. simpl. tauto. }
  destruct (falsy name) eqn:Hname; simpl.
  { split; [reflexivity|]. split; [by eexists|].
    eexists. split; [reflexivity|]. simpl. tauto. }
  destruct (falsy brd) eqn:Hbrand; simpl.
  { split; [reflexivity|]. split; [by eexists|].
    eexists. split; [reflexivity|]. simpl. tauto. }
  destruct (falsy cat) eqn:Hcat; simpl.
  { split; [reflexivity|]. split; [by eexists|].
    eexists. split; [reflexivity|]. simpl. tauto. }
  destruct (falsy priceStr) eqn:Hprice; simpl.
  { split; [reflexivity|]. split; [by eexists|].
    eexists. split; [reflexivity|]. simpl. tauto. }
  destruct (has seen sku) eqn:Hdup; simpl.
  { split; [reflexivity|]. split; [by eexists|].
    eexists. split; [reflexivity|]. simpl. tauto. }
  destruct (badPrice (parseFloatU parseFloat priceStr)) eqn:Hbad; simpl.
  { split; [apply union_subseteq_r|]. split; [by eexists|].
    eexists. split; [reflexivity|]. simpl. tauto. }
  destruct (badDiscount (orZero (parseFloatU parseFloat discountStr))) eqn:Hbd; simpl.
  { split; [apply union_subseteq_r|]. split; [by eexists|].
    eexists. split; [reflexivity|]. simpl. tauto. }
  split; [apply union_subseteq_r|]. split; [by eexists|].
  destruct sku as [s|]; [|discriminate]. simpl in *.
  apply bool_decide_eq_false in Hdup.
  split; [reflexivity|]. split; [by apply (falsy_orEmpty (Some s))|].
  split; [by apply falsy_orEmpty|]. split; [by apply falsy_orEmpty|].
  split; [by apply falsy_orEmpty|]. split; [exact Hdup|].
  split; [apply elem_of_union_l, elem_of_singleton; reflexivity|].
  split; [|split; [|reflexivity]].
  - unfold badPrice in Hbad.
    destruct (parseFloatU parseFloat priceStr) as [q|]; [|discriminate].
    exists q. split; [reflexivity|].
    apply Qnot_le_lt. intros Hle. apply Qle_bool_iff in Hle. by rewrite Hle in Hbad.
  - rewrite Hd in *. exists d. split; [reflexivity|].
    unfold badDiscount in Hbd. apply orb_false_elim in Hbd as [H0 H100].
    apply negb_false_iff in H0, H100. by rewrite !Qle_bool_iff in *.
Qed.

Lemma product_parseRows_valid headers rest :
  forall i seen,
    let rows := List.filter isValid (parseRows parseFloat headers existingSkus i rest seen) in
    NoDup (map sku_code rows) /\
    forall row, row ∈ rows -> sku_code row ∉ seen.
Proof.
  induction rest as [|line rest IH]; intros i seen; simpl.
  - split; [constructor|]. intros it Hin. by apply elem_of_nil in Hin.
  - pose proof (product_parseRow_verdict headers i line seen) as Hrow.
    destruct (parseRow parseFloat headers existingSkus i line seen) as [item seen'].
    simpl in Hrow. destruct Hrow as (Hsub & _ & Hvalid). simpl.
    destruct (IH (S i) seen') as [Hnd Hrest].
    destruct (isValid item) eqn:Hv; simpl.
    + destruct Hvalid as (_ & _ & _ & _ & _ & Hfresh & Hadded & _).
      split.
      * constructor; [|exact Hnd].
        intros Hin. apply list_elem_of_In, in_map_iff in Hin as (it & Heq & Hit).
        apply list_elem_of_In in Hit. apply (Hrest it Hit). by rewrite Heq.
      * intros it [->|Hit]%elem_of_cons; [exact Hfresh|].
        intros Hin. apply (Hrest it Hit). by apply Hsub.
    + split; [exact Hnd|]. intros it Hit Hin. apply (Hrest it Hit). by apply Hsub.
Qed.

(** X9.  When the product parser shows a preview of an ASCII text, it has
    one row per line after the header line.  A valid row has an empty
    error, non-empty SKU, name, brand and category, a price above 0, a
    discount from 0 to
    100, and the action UPDATE exactly when its SKU is among the SKUs read
    from the store, INSERT otherwise; the valid rows have pairwise
    distinct SKUs.  An invalid row [k] carries the message [Row k+2]
    followed by one of the five reasons.  No row has a discount that is
    not a number. *)
Theorem product_preview_rows_are_classified (text : string) parsed :
  Spec.asciiText text = true ->
  parseCsv parseFloat existingSkus text = Preview parsed ->
  length parsed = length (Spec.dataLines text) /\
  NoDup (map sku_code (List.filter isValid parsed)) /\
  forall k row,
    parsed !! k = Some row ->
    (exists d, discount row = Some d) /\
    if isValid row
    then error row = EmptyString /\
         Js.falsy (sku_code row) = false /\ Js.falsy (product_name row) = false /\
         Js.falsy (brand row) = false /\ Js.falsy (category row) = false /\
         (exists q, price row = Some q /\ (0 < q)%Q) /\
         (exists d, discount row = Some d /\ (0 <= d)%Q /\ (d <= 100)%Q) /\
         action row
         = Some (if bool_decide (sku_code row ∈ existingSkus) then UPDATE else INSERT)
    else exists reason,
           error row = "Row " +:+ Js.showN (N.of_nat (k + 2)) +:+ reason /\
           In reason
             [": Insufficient columns"; ": Missing required fields";
              ": Duplicate SKU in file"; ": Invalid price";
              ": Invalid discount (must be 0-100)"].
Proof.
  intros _ Hparse. apply product_parseCsv_preview in Hparse as ->.
  split; [apply product_parseRows_length|].
  split; [apply product_parseRows_valid|].
  intros k row Hk.
  destruct (product_parseRows_lookup _ _ _ _ _ _ Hk) as (line & seen' & Hline & ->).
  pose proof (product_parseRow_verdict (Spec.headerColumns text) (1 + k) line seen')
    as (_ & Hdisc & Hv).
  split; [exact Hdisc|].
  destruct (isValid (parseRow parseFloat (Spec.headerColumns text) existingSkus
                       (1 + k) line seen').1).
  - destruct Hv as (He & Hs & Hn & Hb & Hc & _ & _ & Hp & Hd & Ha). tauto.
  - destruct Hv as (reason & Herr & Hin). exists reason. split; [|exact Hin].
    rewrite Herr. unfold rowLabel. rewrite app_assoc'.
    by replace (1 + k + 1)%nat with (k + 2)%nat by lia.
Qed.

End ProductRows.

(** ** Rows of the store preview *)

Section StoreRows.
Import Rest StoreCsvUpload.
Variable parseFloat : string -> Number.
Variable existingCodes : gset string.

Lemma store_parseRows_length headers rest :
  forall i seen,
    length (parseRows parseFloat headers existingCodes i rest seen) = length rest.
Proof.
  induction rest as [|line rest IH]; intros i seen; simpl; [reflexivity|].
  destruct (parseRow parseFloat headers existingCodes i line seen) as [item seen'].
  simpl. by rewrite IH.
Qed.

Lemma store_parseRows_lookup headers rest :
  forall i seen k row,
    parseRows parseFloat headers existingCodes i rest seen !! k = Some row ->
    exists line seen',
      rest !! k = Some line /\
      row = (parseRow parseFloat headers existingCodes (i + k) line seen').1.
Proof.
  induction rest as [|line rest IH]; intros i seen k row; simpl; [discriminate|].
  destruct (parseRow parseFloat headers existingCodes i line seen)
    as [item seen'] eqn:Hrow.
  destruct k as [|k]; simpl.
  - intros [= <-]. exists line, seen. rewrite Nat.add_0_r, Hrow. by split.
  - intros Hk. destruct (IH (S i) seen' k row Hk) as (l & s' & Hl & ->).
    exists l, s'. split; [exact Hl|]. by rewrite Nat.add_succ_r.
Qed.

Lemma store_parseCsv_preview text parsed :
  parseCsv parseFloat existingCodes text = Preview parsed ->
  parsed
  = parseRows parseFloat (Spec.headerColumns text) existingCodes 1
      (Spec.dataLines text) ∅.
Proof.
  unfold parseCsv, Spec.headerColumns, Spec.dataLines.
  destruct (length (Js.split Js.LF (Js.trim text)) <? 2)%nat; [discriminate|].
  match goal with |- context [List.filter ?f requiredHeaders] =>
    destruct (0 <? length (List.filter f requiredHeaders))%nat; [discriminate|] end.
  by intros [= <-].
Qed.

Lemma orElse_not_empty o d : Js.falsy d = false -> Js.falsy (Js.orElse o d) = false.
Proof. by destruct o as [[|c s]|]. Qed.

Lemma store_parseRow_verdict headers i line seen :
  let r := parseRow parseFloat headers existingCodes i line seen in
  seen ⊆ r.2 /\
  Js.falsy (route r.1) = false /\
  Js.falsy (avg_order_value r.1) = false /\
  action r.1
  = Some (if bool_decide (kode_toko r.1 ∈ existingCodes) then UPDATE else INSERT) /\
  if isValid r.1
  then error r.1 = EmptyString /\
       Js.falsy (kode_toko r.1) = false /\ Js.falsy (nama_toko r.1) = false /\
       Js.falsy (kategori r.1) = false /\
       (kode_toko r.1 ∉ seen) /\ kode_toko r.1 ∈ r.2 /\
       (avg_order_value r.1 = "0" \/
        exists q, parseFloat (avg_order_value r.1) = Some q /\ (0 <= q)%Q)
  else exists reason,
         error r.1 = rowLabel i +:+ reason /\
         In reason
           [": Missing required fields (KODE_TOKO, NAMA_TOKO, KATEGORI)";
            ": Duplicate store code in file";
            ": Invalid average order value"].
Proof.
  unfold parseRow.
  set (values := rowValues line).
  set (kode := Js.orEmpty (Js.at_ values (Js.indexOf "KODE_TOKO" headers))).
  set (nama := Js.orEmpty (Js.at_ values (Js.indexOf "NAMA_TOKO" headers))).
  set (kat := Js.orEmpty (Js.at_ values (Js.indexOf "KATEGORI" headers))).
  set (avg := Js.orElse (Js.at_ values (Js.indexOf "AVG_ORDER_VALUE" headers)) "0").
  assert (Hroute : forall o, Js.falsy (Js.orElse o "A") = false)
    by (intros o; by apply orElse_not_empty).
  assert (Havg : Js.falsy avg = false) by (by apply orElse_not_empty).
  destruct (Js.falsy kode) eqn:Hkode; simpl.
  { split; [reflexivity|]. split; [apply Hroute|]. split; [exact Havg|].
    split; [reflexivity|]. eexists. split; [reflexivity|]. simpl. tauto. }
  destruct (Js.falsy nama) eqn:Hnama; simpl.
  { split; [reflexivity|]. split; [apply Hroute|]. split; [exact Havg|].
    split; [reflexivity|]. eexists. split; [reflexivity|]. simpl. tauto. }
  destruct (Js.falsy kat) eqn:Hkat; simpl.
  { split; [reflexivity|]. split; [apply Hroute|]. split; [exact Havg|].
    split; [reflexivity|]. eexists. split; [reflexivity|]. simpl. tauto. }
  destruct (bool_decide (kode ∈ seen)) eqn:Hdup; simpl.
  { split; [reflexivity|]. split; [apply Hroute|]. split; [exact Havg|].
    split; [reflexivity|]. eexists. split; [reflexivity|]. simpl. tauto. }
  apply bool_decide_eq_false in Hdup.
  assert (Hadded : kode ∈ {[kode]} ∪ seen)
    by (apply elem_of_union_l, elem_of_singleton; reflexivity).
  rewrite Havg. simpl.
  destruct (String.eqb_spec avg "0") as [Hzero|Hnz]; simpl.
  { split; [apply union_subseteq_r|]. split; [apply Hroute|]. split; [exact Havg|].
    split; [reflexivity|]. repeat split; try assumption. by left. }
  destruct (badAverage (parseFloat avg)) eqn:Hbad; simpl.
  { split; [apply union_subseteq_r|]. split; [apply Hroute|]. split; [exact Havg|].
    split; [reflexivity|]. eexists. split; [reflexivity|]. simpl. tauto. }
  split; [apply union_subseteq_r|]. split; [apply Hroute|]. split; [exact Havg|].
  split; [reflexivity|]. repeat split; try assumption.
  right. unfold badAverage in Hbad. destruct (parseFloat avg) as [q|]; [|discriminate].
  exists q. split; [reflexivity|]. apply negb_false_iff in Hbad.
  by apply Qle_bool_iff.
Qed.

Lemma store_parseRows_valid headers rest :
  forall i seen,
    let rows := List.filter isValid (parseRows parseFloat headers existingCodes i rest seen) in
    NoDup (map kode_toko rows) /\
    forall row, row ∈ rows -> kode_toko row ∉ seen.
Proof.
  induction rest as [|line rest IH]; intros i seen; simpl.
  - split; [constructor|]. intros it Hin. by apply elem_of_nil in Hin.
  - pose proof (store_parseRow_verdict headers i line seen) as Hrow.
    destruct (parseRow parseFloat headers existingCodes i line seen) as [item seen'].
    simpl in Hrow. destruct Hrow as (Hsub & _ & _ & _ & Hvalid). simpl.
    destruct (IH (S i) seen') as [Hnd Hrest].
    destruct (isValid item) eqn:Hv; simpl.
    + destruct Hvalid as (_ & _ & _ & _ & Hfresh & Hadded & _).
      split.
      * constructor; [|exact Hnd].
        intros Hin. apply list_elem_of_In, in_map_iff in Hin as (it & Heq & Hit).
        apply list_elem_of_In in Hit. apply (Hrest it Hit). by rewrite Heq.
      * intros it [->|Hit]%elem_of_cons; [exact Hfresh|].
        intros Hin. apply (Hrest it Hit). by apply Hsub.
    + split; [exact Hnd|]. intros it Hit Hin. apply (Hrest it Hit). by apply Hsub.
Qed.

(** X10.  When the store parser shows a preview of an ASCII text, it has
    one row per line after the header line.  Every row has a non-empty
    route (A when the file gives none) and a non-empty average order value (0 when the file
    gives none), and the action UPDATE exactly when its code is among the
    codes read from the store, INSERT otherwise.  A valid row has an
    empty error, non-empty code, name and category, and an average order
    value that is the text 0 or is read as a number of at least 0; the
    valid rows have pairwise distinct codes.  An invalid row [k] carries
    the message [Row k+2] followed by one of the three reasons. *)
Theorem store_preview_rows_are_classified (text : string) parsed :
  Spec.asciiText text = true ->
  parseCsv parseFloat existingCodes text = Preview parsed ->
  length parsed = length (Spec.dataLines text) /\
  NoDup (map kode_toko (List.filter isValid parsed)) /\
  forall k row,
    parsed !! k = Some row ->
    Js.falsy (route row) = false /\
    Js.falsy (avg_order_value row) = false /\
    action row
    = Some (if bool_decide (kode_toko row ∈ existingCodes) then UPDATE else INSERT) /\
    if isValid row
    then error row = EmptyString /\
         Js.falsy (kode_toko row) = false /\ Js.falsy (nama_toko row) = false /\
         Js.falsy (kategori row) = false /\
         (avg_order_value row = "0" \/
          exists q, parseFloat (avg_order_value row) = Some q /\ (0 <= q)%Q)
    else exists reason,
           error row = "Row " +:+ Js.showN (N.of_nat (k + 2)) +:+ reason /\
           In reason
             [": Missing required fields (KODE_TOKO, NAMA_TOKO, KATEGORI)";
              ": Duplicate store code in file";
              ": Invalid average order value"].
Proof.
  intros _ Hparse. apply store_parseCsv_preview in Hparse as ->.
  split; [apply store_parseRows_length|].
  split; [apply store_parseRows_valid|].
  intros k row Hk.
  destruct (store_parseRows_lookup _ _ _ _ _ _ Hk) as (line & seen' & Hline & ->).
  pose proof (store_parseRow_verdict (Spec.headerColumns text) (1 + k) line seen')
    as (_ & Hroute & Havg & Hact & Hv).
  split; [exact Hroute|]. split; [exact Havg|]. split; [exact Hact|].
  destruct (isValid (parseRow parseFloat (Spec.headerColumns text) existingCodes
                       (1 + k) line seen').1).
  - destruct Hv as (He & Hs & Hn & Hc & _ & _ & Ha). tauto.
  - destruct Hv as (reason & Herr & Hin). exists reason. split; [|exact Hin].
    rewrite Herr. unfold rowLabel. rewrite app_assoc'.
    by replace (1 + k + 1)%nat with (k + 2)%nat by lia.
Qed.

End StoreRows.

(** ** Reordering the MSL by drag and drop *)

Section DragDropFacts.
Import Rest MSLDragDrop.

Lemma passes_id a item :
  Table.passes [("id", VStr a)] (Spec.rowOf item) = String.eqb (id item) a.
Proof.
  unfold Table.passes, Spec.rowOf. simpl.
  rewrite lookup_insert_ne by discriminate. rewrite lookup_insert_eq. simpl.
  apply andb_true_r.
Qed.

Lemma patch_rowOf p item :
  priorityPatch p ∪ Spec.rowOf item = Spec.rowOf (Spec.withPriority p item).
Proof.
  unfold priorityPatch, Spec.rowOf. simpl.
  rewrite <- insert_union_singleton_l. apply insert_insert_eq.
Qed.

Lemma apply_priority a p items :
  Table.apply (Update "msl_items" (priorityPatch p) [("id", VStr a)])
    (map Spec.rowOf items)
  = map Spec.rowOf (Spec.setPriority a p items).
Proof.
  unfold Table.apply, Spec.setPriority. rewrite !map_map.
  apply map_ext. intros item. rewrite passes_id.
  destruct (String.eqb (id item) a); [apply patch_rowOf|reflexivity].
Qed.

Lemma setPriority_twice dragged target items :
  id dragged <> id target ->
  Spec.setPriority (id target) (priority dragged)
    (Spec.setPriority (id dragged) (priority target) items)
  = Spec.swapPriorities dragged target items.
Proof.
  intros Hne. unfold Spec.setPriority, Spec.swapPriorities. rewrite map_map.
  apply map_ext. intros item.
  destruct (String.eqb_spec (id item) (id dragged)) as [Heq|_]; simpl.
  - destruct (String.eqb_spec (id item) (id target)) as [Heq2|_]; [|reflexivity].
    exfalso. apply Hne. by rewrite <- Heq, <- Heq2.
  - reflexivity.
Qed.

(** X11.  Dropping an item on another item of the same category, against
    a table that holds the listed items and accepts both updates,
    exchanges the priorities of the two items and changes no other item:
    the list is then fetched again.  Two updates are sent, the first for
    the dragged item. *)
Theorem drop_exchanges_priorities
    (dragged target : MSLItem) (items : list MSLItem) (w : Table.World) :
  id dragged <> id target ->
  category dragged = category target ->
  Table.rows w = map Spec.rowOf items ->
  take 2 (Table.faults w) = [false; false] ->
  let r := handleDrop Table.World Table.send (Some dragged) target w in
  r.1 = Refreshed /\
  Table.rows r.2 = map Spec.rowOf (Spec.swapPriorities dragged target items) /\
  Table.faults r.2 = drop 2 (Table.faults w).
Proof.
  intros Hid Hcat Hrows Hfaults r. subst r. unfold handleDrop.
  rewrite (proj2 (String.eqb_neq _ _) Hid), Hcat, String.eqb_refl. simpl.
  destruct w as [table fs]. simpl in *. subst table.
  destruct fs as [|f1 [|f2 fs]]; try discriminate.
  injection Hfaults as -> ->.
  unfold Table.send. cbn [Table.faults Table.rows fst snd].
  rewrite !apply_priority. cbn [Table.faults Table.rows fst snd].
  by rewrite setPriority_twice.
Qed.

(** X12.  When the table accepts the first update and refuses the second,
    the drop ends in the error branch without fetching the list again,
    and the table holds the dragged item with the priority of the target
    while the target keeps its own: the two items have the same priority
    and the priority the dragged item had is no longer stored. *)
Theorem drop_refused_midway_leaves_equal_priorities
    (dragged target : MSLItem) (items : list MSLItem) (w : Table.World) :
  id dragged <> id target ->
  category dragged = category target ->
  Table.rows w = map Spec.rowOf items ->
  take 2 (Table.faults w) = [false; true] ->
  let r := handleDrop Table.World Table.send (Some dragged) target w in
  r.1 = Failed /\
  Table.rows r.2
  = map Spec.rowOf (Spec.setPriority (id dragged) (priority target) items) /\
  forall item, item ∈ Spec.setPriority (id dragged) (priority target) items ->
    id item = id dragged -> priority item = priority target.
Proof.
  intros Hid Hcat Hrows Hfaults r. subst r. unfold handleDrop.
  rewrite (proj2 (String.eqb_neq _ _) Hid), Hcat, String.eqb_refl. simpl.
  destruct w as [table fs]. simpl in *. subst table.
  destruct fs as [|f1 [|f2 fs]]; try discriminate.
  injection Hfaults as -> ->.
  unfold Table.send. cbn [Table.faults Table.rows fst snd].
  rewrite !apply_priority. cbn [Table.faults Table.rows fst snd].
  split; [reflexivity|]. split; [reflexivity|].
  intros item Hin Hitem. unfold Spec.setPriority in Hin.
  apply list_elem_of_In, in_map_iff in Hin as (item0 & <- & _).
  destruct (String.eqb_spec (id item0) (id dragged)) as [_|Hne]; [reflexivity|].
  by destruct Hne.
Qed.

End DragDropFacts.

(** ** What the upsert commits leave alone *)

Section UpsertScope.
Import Rest.

Lemma rowsKept_refl keep scope table : Spec.rowsKept keep scope table table.
Proof. intros k row Hk. exists row. split; [exact Hk|]. by split. Qed.

Lemma rowsKept_trans keep (scope : Payload -> Prop) t1 t2 t3 :
  (forall row row', Spec.rowKept keep scope row row' -> scope row' -> scope row) ->
  Spec.rowsKept keep scope t1 t2 -> Spec.rowsKept keep scope t2 t3 ->
  Spec.rowsKept keep scope t1 t3.
Proof.
  intros Hscope H12 H23 k row Hk.
  destruct (H12 k row Hk) as (row2 & Hk2 & Hcols2 & Hout2).
  destruct (H23 k row2 Hk2) as (row3 & Hk3 & Hcols3 & Hout3).
  exists row3. split; [exact Hk3|]. split.
  - intros column Hc. by rewrite Hcols3, Hcols2.
  - intros Hn. rewrite Hout3; [by apply Hout2|].
    intros Hs. apply Hn. by apply (Hscope row row2).
Qed.

(** An insert adds a row at the end. *)
Lemma insert_rowsKept keep scope name row table :
  Spec.rowsKept keep scope table (Table.apply (Insert name row) table).
Proof.
  intros k r Hk. exists r. simpl. split; [by apply lookup_app_l_Some|]. by split.
Qed.

(** An update changes the rows that pass its filters, in the columns of
    its patch. *)
Lemma update_rowsKept keep (scope : Payload -> Prop) name patch eqs table :
  (forall column, column ∈ keep -> patch !! column = None) ->
  (forall row, Table.passes eqs row = true -> scope row) ->
  Spec.rowsKept keep scope table (Table.apply (Update name patch eqs) table).
Proof.
  intros Hkeep Hscope k row Hk. simpl. rewrite list_lookup_fmap, Hk. simpl.
  eexists. split; [reflexivity|].
  destruct (Table.passes eqs row) eqn:Hp.
  - split.
    + intros column Hc. by apply lookup_union_r, Hkeep.
    + intros Hn. exfalso. by apply Hn, Hscope.
  - by split.
Qed.

Lemma send_rowsKept keep (scope : Payload -> Prop) q w :
  Spec.rowsKept keep scope (Table.rows w) (Table.apply q (Table.rows w)) ->
  Spec.rowsKept keep scope (Table.rows w) (Table.rows (Table.send q w).2).
Proof.
  intros Hq. unfold Table.send.
  destruct (Table.faults w) as [|[] fs]; simpl; [exact Hq|apply rowsKept_refl|exact Hq].
Qed.

Lemma passes_str column v eqs row :
  (column, VStr v) ∈ eqs -> Table.passes eqs row = true ->
  row !! column = Some (VStr v).
Proof.
  intros Hin Hp. unfold Table.passes in Hp. rewrite forallb_forall in Hp.
  specialize (Hp (column, VStr v) (proj1 (list_elem_of_In _ _) Hin)). simpl in Hp.
  destruct (row !! column) as [[s|n|b|]|]; try discriminate.
  - apply String.eqb_eq in Hp. by subst.
  - by destruct n.
Qed.

Section Stores.
Import StoreCsvUpload.
Variable parseFloat : string -> Number.
Variable userId : string.

Lemma store_request_rowsKept store table :
  Spec.rowsKept ["store_code"; "created_by"] (Spec.ownedBy userId) table
    (Table.apply (requestFor parseFloat userId store) table).
Proof.
  unfold requestFor. destruct (action store) as [[]|]; try apply insert_rowsKept.
  apply update_rowsKept.
  - intros column Hc. unfold updatePatch.
    repeat (apply elem_of_cons in Hc as [->|Hc]; [reflexivity|]).
    by apply elem_of_nil in Hc.
  - intros row Hp. apply (passes_str "created_by" userId _ row) in Hp; [exact Hp|].
    apply elem_of_cons. right. apply elem_of_cons. by left.
Qed.

Lemma ownedBy_kept row row' :
  Spec.rowKept ["store_code"; "created_by"] (Spec.ownedBy userId) row row' ->
  Spec.ownedBy userId row' -> Spec.ownedBy userId row.
Proof.
  intros [Hcols _] Hs. unfold Spec.ownedBy in *. rewrite <- Hcols; [exact Hs|].
  apply elem_of_cons. right. apply elem_of_cons. by left.
Qed.

Lemma store_loop_rowsKept stores :
  forall acc w,
    Spec.rowsKept ["store_code"; "created_by"] (Spec.ownedBy userId) (Table.rows w)
      (Table.rows
         (uploadLoop parseFloat Table.World Table.send userId stores acc w).2).
Proof.
  induction stores as [|store stores IH]; intros acc w; simpl;
    [apply rowsKept_refl|].
  pose proof (send_rowsKept _ _ (requestFor parseFloat userId store) w
                (store_request_rowsKept store (Table.rows w))) as Hstep.
  assert (Hw : exists acc',
             uploadStep parseFloat Table.World Table.send userId store acc w
             = (acc', (Table.send (requestFor parseFloat userId store) w).2)).
  { unfold uploadStep.
    destruct (action store) as [[]|];
      destruct (Table.send (requestFor parseFloat userId store) w) as [[] w'];
      by eexists. }
  destruct Hw as [acc' ->].
  eapply rowsKept_trans; [apply ownedBy_kept|exact Hstep|apply IH].
Qed.

End Stores.

Section Products.
Import ProductCsvUpload.
Variable now : Table.World -> string.

Lemma product_request_rowsKept products product w table :
  product ∈ products ->
  Spec.rowsKept ["sku_code"; "is_active"] (Spec.reachedBy products) table
    (Table.apply (requestFor Table.World now product w) table).
Proof.
  intros Hin. unfold requestFor.
  destruct (action product) as [[]|] eqn:Ha; try apply insert_rowsKept.
  apply update_rowsKept.
  - intros column Hc. unfold updatePatch.
    repeat (apply elem_of_cons in Hc as [->|Hc]; [reflexivity|]).
    by apply elem_of_nil in Hc.
  - intros row Hp. exists product. split; [exact Hin|]. split; [exact Ha|].
    apply (passes_str "sku_code" (sku_code product) _ row) in Hp; [exact Hp|].
    apply elem_of_cons. by left.
Qed.

Lemma reachedBy_kept products row row' :
  Spec.rowKept ["sku_code"; "is_active"] (Spec.reachedBy products) row row' ->
  Spec.reachedBy products row' -> Spec.reachedBy products row.
Proof.
  intros [Hcols _] (product & Hin & Ha & Hs). exists product.
  split; [exact Hin|]. split; [exact Ha|]. rewrite <- Hcols; [exact Hs|].
  apply elem_of_cons. by left.
Qed.

Lemma product_loop_rowsKept products rest :
  (forall product, product ∈ rest -> product ∈ products) ->
  forall acc w,
    Spec.rowsKept ["sku_code"; "is_active"] (Spec.reachedBy products) (Table.rows w)
      (Table.rows (uploadLoop Table.World Table.send now rest acc w).2).
Proof.
  induction rest as [|product rest IH]; intros Hsub acc w; simpl;
    [apply rowsKept_refl|].
  assert (Hin : product ∈ products) by (apply Hsub, elem_of_cons; by left).
  pose proof (send_rowsKept _ _ (requestFor Table.World now product w) w
                (product_request_rowsKept products product w (Table.rows w) Hin))
    as Hstep.
  assert (Hw : exists acc',
             uploadStep Table.World Table.send now product acc w
             = (acc', (Table.send (requestFor Table.World now product w) w).2)).
  { unfold uploadStep.
    destruct (action product) as [[]|];
      destruct (Table.send (requestFor Table.World now product w) w) as [[] w'];
      by eexists. }
  destruct Hw as [acc' ->].
  eapply rowsKept_trans; [apply reachedBy_kept|exact Hstep|].
  apply IH. intros p Hp. apply Hsub, elem_of_cons. by right.
Qed.

End Products.

(** X13.  Whatever requests the table refuses, a commit of the store
    preview leaves every stored row at its place, never changes the
    [store_code] or the [created_by] of a row, and does not change a row
    whose [created_by] is not the signed-in user at all; the table only
    grows. *)
Theorem store_commit_keeps_foreign_rows
    (parseFloat : string -> Number) (userId : string)
    (parsedStores : list StoreCsvUpload.CsvStore) (w : Table.World) :
  let w' :=
    (StoreCsvUpload.uploadStores parseFloat Table.World Table.send userId
       parsedStores w).2 in
  (length (Table.rows w) <= length (Table.rows w'))%nat /\
  forall k row,
    Table.rows w !! k = Some row ->
    exists row',
      Table.rows w' !! k = Some row' /\
      row' !! "store_code" = row !! "store_code" /\
      row' !! "created_by" = row !! "created_by" /\
      (row !! "created_by" <> Some (VStr userId) -> row' = row).
Proof.
  intros w'.
  assert (Hkept : Spec.rowsKept ["store_code"; "created_by"] (Spec.ownedBy userId)
                    (Table.rows w) (Table.rows w')).
  { subst w'. unfold StoreCsvUpload.uploadStores. apply store_loop_rowsKept. }
  split.
  - destruct (Table.rows w) as [|r0 t] eqn:Ht using rev_ind; [simpl; lia|].
    destruct (Hkept (length t) r0) as (row' & Hk & _).
    { rewrite lookup_app_r by lia. by rewrite Nat.sub_diag. }
    apply lookup_lt_Some in Hk. rewrite length_app. simpl. lia.
  - intros k row Hk. destruct (Hkept k row Hk) as (row' & Hk' & Hcols & Hout).
    exists row'. split; [exact Hk'|].
    split; [apply Hcols, elem_of_cons; by left|].
    split; [apply Hcols, elem_of_cons; right; apply elem_of_cons; by left|].
    exact Hout.
Qed.

(** X14.  Whatever requests the table refuses, a commit of the product
    preview leaves every stored row at its place, never changes the
    [sku_code] or the [is_active] flag of a row, and does not change a
    row at all unless its [sku_code] is that of a valid row of the
    preview whose action is UPDATE. *)
Theorem product_commit_keeps_other_rows
    (now : Table.World -> string)
    (parsedProducts : list ProductCsvUpload.CsvProduct) (w : Table.World) :
  let w' :=
    (ProductCsvUpload.uploadProducts Table.World Table.send now parsedProducts w).2 in
  forall k row,
    Table.rows w !! k = Some row ->
    exists row',
      Table.rows w' !! k = Some row' /\
      row' !! "sku_code" = row !! "sku_code" /\
      row' !! "is_active" = row !! "is_active" /\
      ((forall product,
           product ∈ parsedProducts ->
           ProductCsvUpload.isValid product = true ->
           ProductCsvUpload.action product = Some UPDATE ->
           row !! "sku_code" <> Some (VStr (ProductCsvUpload.sku_code product))) ->
       row' = row).
Proof.
  intros w' k row Hk.
  set (valid := List.filter ProductCsvUpload.isValid parsedProducts).
  assert (Hkept : Spec.rowsKept ["sku_code"; "is_active"] (Spec.reachedBy valid)
                    (Table.rows w) (Table.rows w')).
  { subst w'. unfold ProductCsvUpload.uploadProducts.
    apply product_loop_rowsKept. tauto. }
  destruct (Hkept k row Hk) as (row' & Hk' & Hcols & Hout).
  exists row'. split; [exact Hk'|].
  split; [apply Hcols, elem_of_cons; by left|].
  split; [apply Hcols, elem_of_cons; right; apply elem_of_cons; by left|].
  intros Hnone. apply Hout. intros (product & Hin & Ha & Hs).
  apply list_elem_of_In, filter_In in Hin as [Hin Hv].
  by apply (Hnone product (proj2 (list_elem_of_In _ _) Hin) Hv Ha).
Qed.

End UpsertScope.

(** ** The MSL achievement: its inputs and its range *)

Section AchievementInputs.
Import Achievement.

Lemma mslByCategory_step (acc : gmap string (gset string)) (item : string * string) c :
  (let acc1 :=
     match acc !! item.1 with
     | None => <[item.1 := ∅]> acc
     | Some _ => acc
     end in
   <[item.1 := {[item.2]} ∪ default ∅ (acc1 !! item.1)]> acc1) !! c
  = if String.eqb item.1 c
    then Some ({[item.2]} ∪ default ∅ (acc !! c))
    else acc !! c.
Proof.
  cbv zeta. destruct (String.eqb_spec item.1 c) as [<-|Hne].
  - rewrite lookup_insert_eq.
    destruct (acc !! item.1) as [old|] eqn:Hold; [by rewrite Hold|].
    rewrite lookup_insert_eq. simpl. reflexivity.
  - rewrite lookup_insert_ne by exact Hne.
    destruct (acc !! item.1); [reflexivity|]. by rewrite lookup_insert_ne.
Qed.

Lemma mslByCategory_from mslData c :
  forall acc : gmap string (gset string),
    fold_left
      (fun acc item =>
         let acc1 :=
           match acc !! item.1 with
           | None => <[item.1 := ∅]> acc
           | Some _ => acc
           end in
         <[item.1 := {[item.2]} ∪ default ∅ (acc1 !! item.1)]> acc1)
      mslData acc !! c
    = if bool_decide (c ∈ map fst mslData)
      then Some (Spec.skusOf c mslData ∪ default ∅ (acc !! c))
      else acc !! c.
Proof.
  induction mslData as [|item rest IH]; intros acc; [reflexivity|].
  cbn [fold_left]. rewrite IH, mslByCategory_step. unfold Spec.skusOf.
  cbn [map List.filter].
  destruct (String.eqb_spec item.1 c) as [Heq|Hne].
  - rewrite (bool_decide_eq_true_2 (c ∈ item.1 :: map fst rest))
      by (apply elem_of_cons; by left).
    cbn [map default]. rewrite list_to_set_cons.
    destruct (bool_decide (c ∈ map fst rest)) eqn:Hin.
    + f_equal. apply leibniz_equiv. intros x. unfold id.
      rewrite !elem_of_union. tauto.
    + f_equal. apply bool_decide_eq_false in Hin.
      rewrite (filter_none _ rest).
      * simpl. apply leibniz_equiv. intros x.
        rewrite !elem_of_union, elem_of_empty. tauto.
      * intros it Hit. destruct (String.eqb_spec it.1 c) as [<-|]; [|reflexivity].
        exfalso. apply Hin. by apply list_elem_of_In, in_map, list_elem_of_In.
  - destruct (bool_decide (c ∈ map fst rest)) eqn:Hin.
    + apply bool_decide_eq_true in Hin.
      by rewrite (bool_decide_eq_true_2 (c ∈ item.1 :: map fst rest))
        by (apply elem_of_cons; by right).
    + apply bool_decide_eq_false in Hin.
      by rewrite (bool_decide_eq_false_2 (c ∈ item.1 :: map fst rest))
        by (intros [?|?]%elem_of_cons; [by apply Hne|by apply Hin]).
Qed.

Lemma skusOf_not_empty c mslData :
  c ∈ map fst mslData -> Spec.skusOf c mslData <> ∅.
Proof.
  intros Hin. apply list_elem_of_In, in_map_iff in Hin as ([c' sku] & Hc & Hin).
  simpl in Hc. subst c'. intros Hempty.
  assert (Hsku : sku ∈ Spec.skusOf c mslData).
  { unfold Spec.skusOf. apply elem_of_list_to_set, list_elem_of_In, in_map_iff.
    exists (c, sku). split; [reflexivity|]. apply filter_In.
    split; [exact Hin|apply String.eqb_refl]. }
  rewrite Hempty in Hsku. by apply not_elem_of_empty in Hsku.
Qed.

(** X15.  The grouping of the MSL rows by category gives a category the
    set of the SKUs of its rows, and gives no entry to a category that no
    row names: an entry is never the empty set, so a store is left out
    of the achievement exactly when no MSL row has its category.  (For
    categories other than the names an object literal inherits.) *)
Theorem msl_grouping_collects_skus_per_category
    (mslData : list (string * string)) (c : string) :
  Forall (fun item => item.1 ∉ Spec.inheritedKeys) mslData ->
  c ∉ Spec.inheritedKeys ->
  let msl := mslByCategory mslData in
  msl !! c
  = (if bool_decide (c ∈ map fst mslData) then Some (Spec.skusOf c mslData) else None) /\
  (forall sku, sku ∈ default ∅ (msl !! c) <-> (c, sku) ∈ mslData) /\
  msl !! c <> Some ∅ /\
  (Spec.noMSL msl c <-> c ∉ map fst mslData).
Proof.
  intros _ _ msl.
  assert (Hlookup : msl !! c
                    = if bool_decide (c ∈ map fst mslData)
                      then Some (Spec.skusOf c mslData) else None).
  { subst msl. unfold mslByCategory. rewrite mslByCategory_from, lookup_empty.
    destruct (bool_decide (c ∈ map fst mslData)); [|reflexivity].
    simpl. f_equal. apply leibniz_equiv. intros x.
    rewrite elem_of_union, elem_of_empty. tauto. }
  split; [exact Hlookup|]. unfold Spec.noMSL. rewrite Hlookup.
  destruct (bool_decide (c ∈ map fst mslData)) eqn:Hin.
  - apply bool_decide_eq_true in Hin. split; [|split].
    + intros sku. simpl. unfold Spec.skusOf.
      rewrite elem_of_list_to_set, list_elem_of_In, in_map_iff. split.
      * intros ([c' s] & Hs & Hf). apply filter_In in Hf as [Hf Hc].
        simpl in *. apply String.eqb_eq in Hc. subst. by apply list_elem_of_In.
      * intros Hcs. exists (c, sku). split; [reflexivity|]. apply filter_In.
        split; [by apply list_elem_of_In|apply String.eqb_refl].
    + intros Heq. injection Heq as Hempty. by apply (skusOf_not_empty c mslData).
    + unfold Spec.noMSL. split; [|tauto].
      intros [Hn|Heq]; [discriminate|]. injection Heq as Hempty.
      by apply (skusOf_not_empty c mslData) in Hempty.
  - apply bool_decide_eq_false in Hin. split; [|split].
    + intros sku. simpl. split; [by intros ?%not_elem_of_empty|].
      intros Hcs. exfalso. apply Hin.
      apply list_elem_of_In, in_map_iff. exists (c, sku).
      split; [reflexivity|by apply list_elem_of_In].
    + discriminate.
    + unfold Spec.noMSL. split; [by intros _|by left].
Qed.

Lemma boughtSkus_from skus :
  forall acc : gset string,
    forall x,
      x ∈ fold_left (fun acc sku => if Js.falsy sku then acc else {[sku]} ∪ acc) skus acc
      <-> (x ∈ skus /\ x <> EmptyString) \/ x ∈ acc.
Proof.
  induction skus as [|sku skus IH]; intros acc x; simpl.
  - rewrite elem_of_nil. tauto.
  - rewrite IH, elem_of_cons. destruct sku as [|ch sku]; simpl.
    + split; [tauto|]. intros [[[->|Hx] Hne]|Hx]; tauto.
    + rewrite elem_of_union, elem_of_singleton. split.
      * intros [Hx|[->|Hx]]; [tauto| |tauto]. left. split; [by left|discriminate].
      * intros [[[->|Hx] Hne]|Hx]; tauto.
Qed.

Lemma boughtSkus_elem skus x :
  x ∈ boughtSkus skus <-> x ∈ skus /\ x <> EmptyString.
Proof.
  unfold boughtSkus. rewrite boughtSkus_from.
  split; [intros [H|H%not_elem_of_empty]; tauto|tauto].
Qed.

Lemma percentage_full (bought categoryMSL : gset string) :
  categoryMSL <> ∅ ->
  (Spec.percentage bought categoryMSL == 100 <-> categoryMSL ⊆ bought) /\
  (Spec.percentage bought categoryMSL == 0 <-> bought ∩ categoryMSL = ∅).
Proof.
  intros Hne. unfold Spec.percentage.
  assert (Hpos : (0 < size categoryMSL)%nat).
  { destruct (decide (size categoryMSL = 0%nat)) as [Hz|]; [|lia].
    apply size_empty_inv in Hz. exfalso. apply Hne. by apply leibniz_equiv. }
  assert (Hsub : bought ∩ categoryMSL ⊆ categoryMSL) by apply intersection_subseteq_r.
  set (a := size (bought ∩ categoryMSL)).
  set (b := size categoryMSL) in *.
  assert (Hb : ~ inject_Z (Z.of_nat b) == 0).
  { intros Hz. unfold Qeq in Hz. simpl in Hz. lia. }
  split.
  - split.
    + intros Heq.
      assert (Hab : a = b).
      { assert (Ha : inject_Z (Z.of_nat a)
                     == inject_Z (Z.of_nat a) / inject_Z (Z.of_nat b) * 100
                        * (inject_Z (Z.of_nat b) / 100)) by (field; exact Hb).
        rewrite Heq in Ha.
        assert (Hb' : 100 * (inject_Z (Z.of_nat b) / 100) == inject_Z (Z.of_nat b))
          by field.
        rewrite Hb' in Ha. unfold Qeq in Ha. simpl in Ha. lia. }
      intros x Hx.
      assert (Heqs : bought ∩ categoryMSL ≡ categoryMSL).
      { apply set_subseteq_size_equiv; [exact Hsub|]. fold a. fold b. lia. }
      apply Heqs in Hx. by apply elem_of_intersection in Hx as [Hx _].
    + intros Hall.
      assert (Hab : a = b).
      { subst a b. f_equal. apply leibniz_equiv. intros x.
        rewrite elem_of_intersection. split; [tauto|]. intros Hx. split; [|exact Hx].
        by apply Hall. }
      rewrite Hab. field. exact Hb.
  - split.
    + intros Heq.
      assert (Ha : a = 0%nat).
      { assert (Ha : inject_Z (Z.of_nat a)
                     == inject_Z (Z.of_nat a) / inject_Z (Z.of_nat b) * 100
                        * (inject_Z (Z.of_nat b) / 100)) by (field; exact Hb).
        rewrite Heq in Ha. rewrite Qmult_0_l in Ha.
        unfold Qeq in Ha. simpl in Ha. lia. }
      apply leibniz_equiv. by apply size_empty_inv.
    + intros Hempty. subst a. rewrite Hempty, size_empty. simpl.
      field. exact Hb.
Qed.

(** X16.  The achievement of a store against a non-empty MSL is 100
    exactly when every SKU of the MSL is a non-empty [sku_code] of one of
    its order lines, and 0 exactly when none is; it depends only on which
    SKUs of the MSL occur among the order lines, so that repeated lines
    and lines outside the MSL do not change it. *)
Theorem store_achievement_full_and_none
    (skus : list string) (categoryMSL : gset string) :
  categoryMSL <> ∅ ->
  let a := storeAchievement (num := Q) (boughtSkus skus) categoryMSL in
  (a == 100 <-> forall s, s ∈ categoryMSL -> s ∈ skus /\ s <> EmptyString) /\
  (a == 0 <-> forall s, s ∈ categoryMSL -> s ∈ skus -> s = EmptyString) /\
  forall skus',
    (forall s, s ∈ categoryMSL -> s <> EmptyString -> (s ∈ skus <-> s ∈ skus')) ->
    storeAchievement (num := Q) (boughtSkus skus') categoryMSL = a.
Proof.
  intros Hne a. subst a. rewrite storeAchievement_percentage.
  destruct (percentage_full (boughtSkus skus) categoryMSL Hne) as [Hfull Hnone].
  split; [|split].
  - rewrite Hfull. split.
    + intros Hsub s Hs. by apply boughtSkus_elem, Hsub.
    + intros Hall s Hs. by apply boughtSkus_elem, Hall.
  - rewrite Hnone. split.
    + intros Hempty s Hs Hin.
      destruct (decide (s = EmptyString)) as [|Hs0]; [assumption|].
      assert (Hboth : s ∈ boughtSkus skus ∩ categoryMSL).
      { apply elem_of_intersection. split; [by apply boughtSkus_elem|exact Hs]. }
      rewrite Hempty in Hboth. by apply not_elem_of_empty in Hboth.
    + intros Hall. apply leibniz_equiv. intros s. split; [|by intros ?%not_elem_of_empty].
      intros [Hb Hs]%elem_of_intersection. apply boughtSkus_elem in Hb as [Hin Hs0].
      exfalso. by apply Hs0, Hall.
  - intros skus' Hsame. rewrite storeAchievement_percentage. unfold Spec.percentage.
    assert (Heq : boughtSkus skus' ∩ categoryMSL = boughtSkus skus ∩ categoryMSL).
    { apply leibniz_equiv. intros s. rewrite !elem_of_intersection, !boughtSkus_elem.
      split; intros [[Hin Hs0] Hs]; (split; [split; [|exact Hs0]|exact Hs]);
        by apply (Hsame s Hs Hs0). }
    by rewrite Heq.
Qed.

End AchievementInputs.

(** ** The grouping of the visits of a day by store *)

Section VisitGroups.
Import Achievement.

Lemma visitsOf_snoc k done visit :
  Spec.visitsOf k (done ++ [visit])
  = Spec.visitsOf k done ++ (if String.eqb (Spec.visitKey visit) k then [visit] else []).
Proof. unfold Spec.visitsOf. by rewrite List.filter_app. Qed.

Lemma groupOf_other k done visit :
  Spec.visitKey visit <> k -> Spec.groupOf k (done ++ [visit]) = Spec.groupOf k done.
Proof.
  intros Hne. unfold Spec.groupOf. rewrite visitsOf_snoc.
  rewrite (proj2 (String.eqb_neq _ _) Hne). by rewrite app_nil_r.
Qed.

Lemma groupOf_more k done visit :
  Spec.visitsOf k done <> [] -> Spec.visitKey visit = k ->
  Spec.groupOf k (done ++ [visit])
  = mkStoreFacts (category (Spec.groupOf k done))
      (orderSkus (Spec.groupOf k done) ++ order_items visit).
Proof.
  intros Hsome Hk. unfold Spec.groupOf. rewrite visitsOf_snoc.
  rewrite (proj2 (String.eqb_eq _ _) Hk).
  destruct (Spec.visitsOf k done) as [|first rest]; [by destruct Hsome|].
  simpl. f_equal. rewrite map_app, concat_app. simpl.
  by rewrite app_nil_r, app_assoc.
Qed.

Lemma groupOf_first k done visit :
  Spec.visitsOf k done = [] -> Spec.visitKey visit = k ->
  Spec.groupOf k (done ++ [visit])
  = mkStoreFacts (store_category visit) (order_items visit).
Proof.
  intros Hnone Hk. unfold Spec.groupOf. rewrite visitsOf_snoc, Hnone.
  rewrite (proj2 (String.eqb_eq _ _) Hk). simpl. by rewrite app_nil_r.
Qed.

Lemma pushItems_entries visit done ks :
  NoDup ks ->
  (forall k, k ∈ ks -> Spec.visitsOf k done <> []) ->
  (Spec.visitKey visit ∉ ks -> Spec.visitsOf (Spec.visitKey visit) done = []) ->
  pushItems (Spec.visitKey visit) visit (map (fun k => (k, Spec.groupOf k done)) ks)
  = map (fun k => (k, Spec.groupOf k (done ++ [visit])))
      (if bool_decide (Spec.visitKey visit ∈ ks) then ks
       else ks ++ [Spec.visitKey visit]).
Proof.
  induction ks as [|k ks IH]; intros Hnd Hsome Hfresh.
  - simpl. rewrite groupOf_first; [reflexivity| |reflexivity].
    apply Hfresh, not_elem_of_nil.
  - apply NoDup_cons in Hnd as [Hk Hnd]. simpl.
    destruct (String.eqb_spec k (Spec.visitKey visit)) as [->|Hne].
    + rewrite (bool_decide_eq_true_2 (_ ∈ _ :: ks)) by (apply elem_of_cons; by left).
      simpl. rewrite groupOf_more;
        [|apply Hsome, elem_of_cons; by left|reflexivity].
      f_equal. apply map_ext_in. intros k' Hk'. f_equal. symmetry.
      apply groupOf_other. intros <-. by apply Hk, list_elem_of_In.
    + rewrite IH; [|exact Hnd| |].
      * assert (Hother : Spec.groupOf k (done ++ [visit]) = Spec.groupOf k done)
          by (apply groupOf_other; intros Heq; by apply Hne).
        destruct (bool_decide (Spec.visitKey visit ∈ ks)) eqn:Hin.
        -- apply bool_decide_eq_true in Hin.
           rewrite (bool_decide_eq_true_2 (_ ∈ k :: ks))
             by (apply elem_of_cons; by right).
           simpl. by rewrite Hother.
        -- apply bool_decide_eq_false in Hin.
           rewrite (bool_decide_eq_false_2 (_ ∈ k :: ks))
             by (intros [?|?]%elem_of_cons; [by apply Hne|by apply Hin]).
           simpl. by rewrite Hother.
      * intros k' Hk'. apply Hsome, elem_of_cons. by right.
      * intros Hnot. apply Hfresh.
        intros [?|?]%elem_of_cons; [by apply Hne|by apply Hnot].
Qed.

Lemma visitsOf_present k visits :
  k ∈ map Spec.visitKey visits <-> Spec.visitsOf k visits <> [].
Proof.
  unfold Spec.visitsOf. split.
  - intros Hin Hnone. apply list_elem_of_In, in_map_iff in Hin as (visit & Hk & Hin).
    assert (Hv : In visit (List.filter (fun v => String.eqb (Spec.visitKey v) k) visits)).
    { apply filter_In. split; [exact Hin|]. by apply String.eqb_eq. }
    rewrite Hnone in Hv. destruct Hv.
  - intros Hsome.
    destruct (List.filter _ visits) as [|visit rest] eqn:Hf; [by destruct Hsome|].
    assert (Hv : In visit (List.filter (fun v => String.eqb (Spec.visitKey v) k) visits))
      by (rewrite Hf; by left).
    apply filter_In in Hv as [Hin Hk]. apply String.eqb_eq in Hk. subst k.
    by apply list_elem_of_In, in_map.
Qed.

Lemma storeVisits_from done visits :
  fold_left
    (fun acc visit => pushItems (store_name visit +:+ "-" +:+ store_code visit) visit acc)
    visits
    (map (fun k => (k, Spec.groupOf k done)) (Js.uniq (map Spec.visitKey done)))
  = map (fun k => (k, Spec.groupOf k (done ++ visits)))
      (Js.uniq (map Spec.visitKey (done ++ visits))).
Proof.
  revert done. induction visits as [|visit visits IH]; intros done; simpl.
  - by rewrite app_nil_r.
  - change (store_name visit +:+ "-" +:+ store_code visit) with (Spec.visitKey visit).
    rewrite pushItems_entries.
    + replace (done ++ visit :: visits) with ((done ++ [visit]) ++ visits)
        by (by rewrite <- app_assoc).
      rewrite <- IH. f_equal. rewrite map_app. simpl. rewrite uniq_snoc.
      destruct (bool_decide (Spec.visitKey visit ∈ map Spec.visitKey done)) eqn:Hin.
      * apply bool_decide_eq_true in Hin.
        by rewrite bool_decide_eq_true_2 by (by apply uniq_elem).
      * apply bool_decide_eq_false in Hin.
        by rewrite bool_decide_eq_false_2 by (by rewrite uniq_elem).
    + apply uniq_NoDup.
    + intros k Hk. by apply visitsOf_present, uniq_elem.
    + intros Hnot. rewrite uniq_elem in Hnot.
      destruct (Spec.visitsOf (Spec.visitKey visit) done) eqn:Hv; [reflexivity|].
      exfalso. apply Hnot, visitsOf_present. by rewrite Hv.
Qed.

(** X17.  The daily recap groups the visits by the text
    [store_name-store_code]: there is one store per distinct text, in the
    order in which the texts first appear; the order lines of a store are
    those of all the visits with its text, in order, and its category is
    that of the first such visit.  Visits of different stores whose names
    and codes give the same text therefore count as one store. *)
Theorem daily_visits_are_grouped_by_key (visits : list Visit) :
  let groups := storeVisits visits in
  map fst groups = Js.uniq (map Spec.visitKey visits) /\
  NoDup (map fst groups) /\
  (length groups <= length visits)%nat /\
  forall k store,
    (k, store) ∈ groups ->
    orderSkus store = concat (map order_items (Spec.visitsOf k visits)) /\
    exists first rest,
      Spec.visitsOf k visits = first :: rest /\
      category store = store_category first.
Proof.
  intros groups.
  assert (Hclosed : groups
                    = map (fun k => (k, Spec.groupOf k visits))
                        (Js.uniq (map Spec.visitKey visits))).
  { subst groups. unfold storeVisits. apply (storeVisits_from [] visits). }
  assert (Hkeys : map fst groups = Js.uniq (map Spec.visitKey visits)).
  { rewrite Hclosed, map_map. simpl. apply map_id. }
  split; [exact Hkeys|]. split; [rewrite Hkeys; apply uniq_NoDup|]. split.
  - rewrite <- (length_map fst groups), Hkeys.
    rewrite <- (length_map Spec.visitKey visits).
    generalize (map Spec.visitKey visits). intros l.
    induction l as [|x l IH]; simpl; [lia|].
    pose proof (length_filter (fun y => y ≠ x) (Js.uniq l)). lia.
  - intros k store Hin. rewrite Hclosed in Hin.
    apply list_elem_of_In, in_map_iff in Hin as (k' & [= -> <-] & Hk).
    split; [reflexivity|].
    apply list_elem_of_In, uniq_elem, visitsOf_present in Hk.
    unfold Spec.groupOf.
    destruct (Spec.visitsOf k visits) as [|first rest]; [by destruct Hk|].
    by exists first, rest.
Qed.

End VisitGroups.

(** ** The range of the achievement and the order of the stores *)

Section AchievementRange.
Import Achievement.
Local Open Scope Q_scope.





(** X19.  In IEEE double arithmetic the achievement of the overview
    depends on the order in which the store query returns the stores:
    with an MSL of three SKUs and three stores that bought all of it, one
    SKU and two SKUs, one order of the stores gives a number strictly
    below the number that the reverse order gives. *)
Theorem achievement_depends_on_store_order :
  let storesData := [Sample.storeAll; Sample.storeThird; Sample.storeTwoThirds] in
  let storesData' := [Sample.storeTwoThirds; Sample.storeThird; Sample.storeAll] in
  storesData ≡ₚ storesData' /\
  exists r r' : PrimFloat.float,
    fetchDashboardStats Sample.mslThree storesData = Computed r /\
    fetchDashboardStats Sample.mslThree storesData' = Computed r' /\
    PrimFloat.ltb r r' = true.
Proof.
  intros storesData storesData'. split.
  - apply (Permutation_rev storesData).
  - eexists. eexists. split; [vm_compute; reflexivity|].
    split; [vm_compute; reflexivity|]. vm_compute. reflexivity.
Qed.

End AchievementRange.

(** ** The counts per category of the MSL page *)

Section CategoryStatsFacts.
Import CategoryStats.

Lemma countBy_from column c :
  forall acc : gmap string nat,
    default 0%nat
      (fold_left (fun acc c => <[c := S (default 0%nat (acc !! c))]> acc) column acc !! c)
    = (Spec.occurrences c column + default 0%nat (acc !! c))%nat /\
    (is_Some (fold_left (fun acc c => <[c := S (default 0%nat (acc !! c))]> acc)
                column acc !! c)
     <-> c ∈ column \/ is_Some (acc !! c)).
Proof.
  unfold Spec.occurrences.
  induction column as [|c0 column IH]; intros acc; simpl.
  - split; [reflexivity|]. rewrite elem_of_nil. tauto.
  - destruct (IH (<[c0 := S (default 0%nat (acc !! c0))]> acc)) as [Hn Hs].
    rewrite Hn, Hs, elem_of_cons.
    destruct (String.eqb_spec c c0) as [->|Hne].
    + rewrite !lookup_insert_eq. simpl. split; [lia|].
      split; [tauto|]. intros _. right. by eexists.
    + rewrite !lookup_insert_ne by (intros Heq; by apply Hne).
      split; [reflexivity|]. tauto.
Qed.

Lemma countBy_lookup column c :
  default 0%nat (countBy column !! c) = Spec.occurrences c column /\
  (is_Some (countBy column !! c) <-> c ∈ column).
Proof.
  unfold countBy. destruct (countBy_from column c ∅) as [Hn Hs].
  rewrite Hn, Hs, lookup_empty. simpl. split; [lia|].
  split; [|tauto]. intros [H|H]; [exact H|]. by destruct H.
Qed.

Lemma find_stat (f g : string -> nat) cs c :
  List.find (fun stat => String.eqb (category stat) c)
    (map (fun c => mkCategoryStats c (f c) (g c)) cs)
  = if bool_decide (c ∈ cs) then Some (mkCategoryStats c (f c) (g c)) else None.
Proof.
  induction cs as [|c0 cs IH]; simpl; [reflexivity|].
  destruct (String.eqb_spec c0 c) as [->|Hne].
  - by rewrite (bool_decide_eq_true_2 (c ∈ c :: cs)) by (apply elem_of_cons; by left).
  - rewrite IH. destruct (bool_decide (c ∈ cs)) eqn:Hin.
    + apply bool_decide_eq_true in Hin.
      by rewrite (bool_decide_eq_true_2 (c ∈ c0 :: cs)) by (apply elem_of_cons; by right).
    + apply bool_decide_eq_false in Hin.
      by rewrite (bool_decide_eq_false_2 (c ∈ c0 :: cs))
        by (intros [?|?]%elem_of_cons; [by apply Hne|by apply Hin]).
Qed.

(** X21.  In whatever order the engine lists the keys of an object, the
    statistics of the MSL page have exactly one entry for every category
    that occurs in [msl_items] or in [stores], and the entry found for a
    category holds the number of MSL items and the number of stores of
    that category; a category of neither table has no entry.  (For
    categories other than the names an object literal inherits.) *)
Theorem category_stats_count_items_and_stores
    (keys : gmap string nat -> list string) (mslData storeData : list string) :
  (forall m c, c ∈ keys m <-> is_Some (m !! c)) ->
  Forall (fun c => c ∉ Spec.inheritedKeys) mslData ->
  Forall (fun c => c ∉ Spec.inheritedKeys) storeData ->
  let stats := fetchCategoryStats keys mslData storeData in
  NoDup (map category stats) /\
  (forall c, c ∈ map category stats <-> c ∈ mslData \/ c ∈ storeData) /\
  forall c,
    getCategoryStats stats c
    = if bool_decide (c ∈ mslData \/ c ∈ storeData)
      then Some (mkCategoryStats c (Spec.occurrences c mslData)
                   (Spec.occurrences c storeData))
      else None.
Proof.
  intros Hkeys _ _ stats.
  set (all := Js.uniq (keys (countBy mslData) ++ keys (countBy storeData))).
  assert (Hall : forall c, c ∈ all <-> c ∈ mslData \/ c ∈ storeData).
  { intros c. subst all. rewrite uniq_elem, elem_of_app, !Hkeys.
    destruct (countBy_lookup mslData c) as [_ H1].
    destruct (countBy_lookup storeData c) as [_ H2]. by rewrite H1, H2. }
  assert (Hcats : map category stats = all).
  { subst stats. unfold fetchCategoryStats. rewrite map_map. simpl. apply map_id. }
  split; [rewrite Hcats; apply uniq_NoDup|].
  split; [intros c; by rewrite Hcats|].
  intros c. subst stats. unfold getCategoryStats, fetchCategoryStats. cbv zeta.
  fold all.
  rewrite (find_stat (fun c => default 0%nat (countBy mslData !! c))
             (fun c => default 0%nat (countBy storeData !! c))).
  destruct (countBy_lookup mslData c) as [-> _].
  destruct (countBy_lookup storeData c) as [-> _].
  destruct (bool_decide (c ∈ all)) eqn:Hin.
  - apply bool_decide_eq_true in Hin. by rewrite bool_decide_eq_true_2 by (by apply Hall).
  - apply bool_decide_eq_false in Hin.
    by rewrite bool_decide_eq_false_2 by (by rewrite <- Hall).
Qed.

End CategoryStatsFacts.

(** ** The pasted product list *)

Section ProductImportFacts.
Import Rest ProductImport.


Lemma importLoop_run products :
  forall acc w,
    let r := importLoop Table.World Table.send products acc w in
    (r.1.1 + r.1.2 = acc.1 + acc.2 + length products)%nat /\
    exists new,
      Table.rows r.2 = Table.rows w ++ new /\
      (acc.1 + length new = r.1.1)%nat /\
      Forall (fun row => exists product, product ∈ products /\ row = insertRow product) new.
Proof.
  induction products as [|product rest IH]; intros acc w; cbv zeta.
  - simpl. split; [lia|]. exists []. rewrite app_nil_r.
    split; [reflexivity|]. split; [simpl; lia|constructor].
  - assert (Hstep :
      exists acc' new0,
        importStep Table.World Table.send product acc w
        = (acc', (Table.send (Insert "products" (insertRow product)) w).2) /\
        Table.rows (Table.send (Insert "products" (insertRow product)) w).2
        = Table.rows w ++ new0 /\
        (acc'.1 + acc'.2 = S (acc.1 + acc.2))%nat /\
        (acc.1 + length new0 = acc'.1)%nat /\
        Forall (fun row => row = insertRow product) new0).
    { unfold importStep, Table.send.
      destruct (Table.faults w) as [|[] fs]; cbn [fst snd Table.rows Table.apply].
      - exists (S acc.1, acc.2), [insertRow product].
        split; [reflexivity|]. split; [reflexivity|]. simpl.
        split; [lia|]. split; [lia|]. by repeat constructor.
      - exists (acc.1, S acc.2), []. rewrite app_nil_r.
        split; [reflexivity|]. split; [reflexivity|]. simpl.
        split; [lia|]. split; [lia|]. constructor.
      - exists (S acc.1, acc.2), [insertRow product].
        split; [reflexivity|]. split; [reflexivity|]. simpl.
        split; [lia|]. split; [lia|]. by repeat constructor. }
    destruct Hstep as (acc' & new0 & Hstep & Hrows0 & Hsum & Hlen0 & Hall0).
    cbn [importLoop]. rewrite Hstep.
    destruct (IH acc' (Table.send (Insert "products" (insertRow product)) w).2)
      as (Hn & new & Hrows & Hlen & Hall).
    split; [simpl length; lia|]. exists (new0 ++ new).
    split; [by rewrite Hrows, Hrows0, <- app_assoc|].
    split; [rewrite length_app; lia|].
    apply Forall_app. split.
    + eapply Forall_impl; [exact Hall0|]. intros row ->.
      exists product. split; [apply elem_of_cons; by left|reflexivity].
    + eapply Forall_impl; [exact Hall|]. intros row (p & Hp & ->).
      exists p. split; [apply elem_of_cons; by right|reflexivity].
Qed.


(** X23.  The import of the pasted list sends one insert per valid
    product and nothing else: against a table that refuses some of them,
    the numbers of successes and failures add up to the number of valid
    products, the stored rows are all still there and unchanged, and the
    table has grown by one active row per success. *)
Theorem pasted_import_only_adds_rows
    (parsedProducts : list ParsedProduct) (w : Table.World) :
  let r := importProducts Table.World Table.send parsedProducts w in
  (r.1.1 + r.1.2 = length (List.filter isValid parsedProducts))%nat /\
  exists new,
    Table.rows r.2 = Table.rows w ++ new /\
    length new = r.1.1 /\
    Forall (fun row =>
              row !! "is_active" = Some (VBool true) /\
              exists product,
                product ∈ parsedProducts /\ isValid product = true /\
                row !! "sku_code" = Some (VStr (sku_code product)))
      new.
Proof.
  intros r. subst r. unfold importProducts.
  destruct (importLoop_run (List.filter isValid parsedProducts) (0%nat, 0%nat) w)
    as (Hn & new & Hrows & Hlen & Hall).
  simpl in *. split; [exact Hn|]. exists new.
  split; [exact Hrows|]. split; [exact Hlen|].
  eapply Forall_impl; [exact Hall|]. intros row (product & Hin & ->).
  apply list_elem_of_In, filter_In in Hin as [Hin Hv].
  split; [reflexivity|]. exists product.
  split; [by apply list_elem_of_In|]. split; [exact Hv|reflexivity].
Qed.

End ProductImportFacts.

(** ** Further instances *)

Section FurtherInstances.
Import Rest.

Lemma product_sample_preview :
  ProductCsvUpload.parseCsv Sample.parseDigits {["SKU001"]} Sample.productText
  = ProductCsvUpload.Preview Sample.productRows.
Proof. vm_compute. reflexivity. Defined.

(** The product sample has two rows, the first valid. *)
Lemma product_preview_rows_are_classified_witness :
  length Sample.productRows = 2%nat /\
  NoDup (map ProductCsvUpload.sku_code
           (List.filter ProductCsvUpload.isValid Sample.productRows)).
Proof.
  destruct (product_preview_rows_are_classified Sample.parseDigits {["SKU001"]}
              Sample.productText Sample.productRows eq_refl product_sample_preview)
    as (Hlen & Hnd & _).
  split; [|exact Hnd]. rewrite Hlen. vm_compute. reflexivity.
Defined.

Lemma store_sample_preview :
  StoreCsvUpload.parseCsv Sample.parseDigits ∅ Sample.storeText
  = StoreCsvUpload.Preview Sample.storeRows.
Proof. vm_compute. reflexivity. Defined.

(** The store sample has one row. *)
Lemma store_preview_rows_are_classified_witness :
  length Sample.storeRows = 1%nat /\
  NoDup (map StoreCsvUpload.kode_toko
           (List.filter StoreCsvUpload.isValid Sample.storeRows)).
Proof.
  destruct (store_preview_rows_are_classified Sample.parseDigits ∅
              Sample.storeText Sample.storeRows eq_refl store_sample_preview)
    as (Hlen & Hnd & _).
  split; [|exact Hnd]. rewrite Hlen. vm_compute. reflexivity.
Defined.

(** The two sample items exchange the priorities 1 and 2. *)
Lemma drop_exchanges_priorities_witness :
  let w :=
    Table.mkWorld (map Spec.rowOf [Sample.dragged; Sample.target]) [false; false] in
  let r :=
    MSLDragDrop.handleDrop Table.World Table.send (Some Sample.dragged) Sample.target w in
  r.1 = MSLDragDrop.Refreshed /\
  Table.rows r.2
  = map Spec.rowOf
      [Spec.withPriority 2 Sample.dragged; Spec.withPriority 1 Sample.target].
Proof.
  intros w r.
  destruct (drop_exchanges_priorities Sample.dragged Sample.target
              [Sample.dragged; Sample.target] w)
    as (Hout & Hrows & _).
  - discriminate.
  - reflexivity.
  - reflexivity.
  - reflexivity.
  - split; [exact Hout|]. subst r. rewrite Hrows. reflexivity.
Defined.

(** With the second update refused both sample items have priority 2. *)
Lemma drop_refused_midway_leaves_equal_priorities_witness :
  let w :=
    Table.mkWorld (map Spec.rowOf [Sample.dragged; Sample.target]) [false; true] in
  let r :=
    MSLDragDrop.handleDrop Table.World Table.send (Some Sample.dragged) Sample.target w in
  r.1 = MSLDragDrop.Failed /\
  Table.rows r.2
  = map Spec.rowOf [Spec.withPriority 2 Sample.dragged; Sample.target].
Proof.
  intros w r.
  destruct (drop_refused_midway_leaves_equal_priorities Sample.dragged Sample.target
              [Sample.dragged; Sample.target] w)
    as (Hout & Hrows & _).
  - discriminate.
  - reflexivity.
  - reflexivity.
  - reflexivity.
  - split; [exact Hout|]. subst r. rewrite Hrows. reflexivity.
Defined.

(** The store of user [u2] with the code of the imported row stays as it is. *)
Lemma store_commit_keeps_foreign_rows_witness :
  let w := Table.mkWorld [Sample.foreignStore] [] in
  let w' :=
    (StoreCsvUpload.uploadStores Sample.parseDigits Table.World Table.send "u1"
       [Sample.ownStoreRow] w).2 in
  Table.rows w' !! 0%nat = Some Sample.foreignStore.
Proof.
  intros w w'.
  destruct (store_commit_keeps_foreign_rows Sample.parseDigits "u1"
              [Sample.ownStoreRow] w) as [_ Hrows].
  destruct (Hrows 0%nat Sample.foreignStore eq_refl) as (row' & Hk & _ & _ & Hsame).
  rewrite Hsame in Hk; [exact Hk|].
  intros Heq. vm_compute in Heq. discriminate Heq.
Defined.

(** The stored product of another SKU stays as it is. *)
Lemma product_commit_keeps_other_rows_witness :
  let now := fun _ : Table.World => "2025-07-17T00:00:00.000Z" in
  let w := Table.mkWorld [Sample.otherProduct] [] in
  let w' :=
    (ProductCsvUpload.uploadProducts Table.World Table.send now [Sample.productRow] w).2 in
  Table.rows w' !! 0%nat = Some Sample.otherProduct.
Proof.
  intros now w w'.
  destruct (product_commit_keeps_other_rows now [Sample.productRow] w
              0%nat Sample.otherProduct eq_refl)
    as (row' & Hk & _ & _ & Hsame).
  rewrite Hsame in Hk; [exact Hk|].
  intros product Hin _ _ Heq.
  apply list_elem_of_singleton in Hin. subst product.
  vm_compute in Heq. discriminate Heq.
Defined.

(** GT PROV has the two SKUs of its rows. *)
Lemma msl_grouping_collects_skus_per_category_witness :
  Achievement.mslByCategory Sample.mslPairs !! "GT PROV"
  = Some (Spec.skusOf "GT PROV" Sample.mslPairs).
Proof.
  destruct (msl_grouping_collects_skus_per_category Sample.mslPairs "GT PROV")
    as [Hlookup _].
  - apply (bool_decide_unpack _). vm_compute. exact I.
  - apply (bool_decide_unpack _). vm_compute. exact I.
  - rewrite Hlookup. reflexivity.
Defined.

(** A store that ordered the only SKU of its MSL, twice, and another SKU. *)
Lemma store_achievement_full_and_none_witness :
  (Achievement.storeAchievement (num := Q)
     (Achievement.boughtSkus ["LOR001"; "LOR001"; "LOR777"]) {["LOR001"]}
   == 100)%Q.
Proof.
  destruct (store_achievement_full_and_none ["LOR001"; "LOR001"; "LOR777"] {["LOR001"]})
    as [Hfull _].
  - apply non_empty_singleton_L.
  - apply Hfull. intros s Hs. apply elem_of_singleton in Hs. subst s.
    split; [apply elem_of_cons; by left|discriminate].
Defined.

(** The three sample visits make two stores. *)
Lemma daily_visits_are_grouped_by_key_witness :
  map fst (Achievement.storeVisits Sample.visits) = ["Toko A-T1"; "Toko B-T2"].
Proof.
  destruct (daily_visits_are_grouped_by_key Sample.visits) as [Hkeys _].
  rewrite Hkeys. vm_compute. reflexivity.
Defined.


Lemma ownKeys_spec (m : gmap string nat) (c : string) :
  c ∈ Sample.ownKeys m <-> is_Some (m !! c).
Proof.
  unfold Sample.ownKeys. rewrite list_elem_of_fmap. split.
  - intros ([c' n] & -> & Hin). apply elem_of_map_to_list in Hin. by exists n.
  - intros [n Hn]. exists (c, n). split; [reflexivity|]. by apply elem_of_map_to_list.
Qed.

(** GT PROV has two MSL items and no store. *)
Lemma category_stats_count_items_and_stores_witness :
  CategoryStats.getCategoryStats
    (CategoryStats.fetchCategoryStats Sample.ownKeys ["GT PROV"; "GT PROV"; "MT"] ["MT"])
    "GT PROV"
  = Some (CategoryStats.mkCategoryStats "GT PROV" 2 0).
Proof.
  destruct (category_stats_count_items_and_stores Sample.ownKeys
              ["GT PROV"; "GT PROV"; "MT"] ["MT"])
    as (_ & _ & Hfind).
  - exact ownKeys_spec.
  - apply (bool_decide_unpack _). vm_compute. exact I.
  - apply (bool_decide_unpack _). vm_compute. exact I.
  - rewrite Hfind. vm_compute. reflexivity.
Defined.


End FurtherInstances.

(** ** What a commit without refusals stores *)

Section UpsertEffect.
Import Rest.

Lemma passes_other column c c' rest row :
  row !! column = Some (VStr c) -> c' <> c ->
  Table.passes ((column, VStr c') :: rest) row = false.
Proof.
  intros Hrow Hne. unfold Table.passes. simpl. rewrite Hrow. simpl.
  by rewrite (proj2 (String.eqb_neq c c')) by (intros Heq; by apply Hne).
Qed.

Lemma update_lookup name patch eqs table k row :
  table !! k = Some row ->
  Table.apply (Update name patch eqs) table !! k
  = Some (if Table.passes eqs row then patch ∪ row else row).
Proof. intros Hk. simpl. by rewrite list_lookup_fmap, Hk. Qed.

Lemma insert_lookup name new table k (row : Payload) :
  table !! k = Some row -> Table.apply (Insert name new) table !! k = Some row.
Proof. intros Hk. simpl. by apply lookup_app_l_Some. Qed.

Section Stores.
Import StoreCsvUpload.
Variable parseFloat : string -> Number.
Variable userId : string.

Lemma store_loop_quiet stores :
  forall acc w,
    Table.faults w = [] ->
    let r := uploadLoop parseFloat Table.World Table.send userId stores acc w in
    failed r.1 = failed acc /\
    r.2 = Table.mkWorld
            (fold_left (fun t store => Table.apply (requestFor parseFloat userId store) t)
               stores (Table.rows w)) [].
Proof.
  induction stores as [|store rest IH]; intros acc [t fs] Hq; simpl in Hq; subst fs.
  - by split.
  - assert (Hstep :
      exists acc',
        uploadStep parseFloat Table.World Table.send userId store acc
          (Table.mkWorld t [])
        = (acc', Table.mkWorld (Table.apply (requestFor parseFloat userId store) t) [])
        /\ failed acc' = failed acc).
    { unfold uploadStep, Table.send.
      destruct (action store) as [[]|]; eexists; split; reflexivity. }
    destruct Hstep as (acc' & Hstep & Hfailed).
    cbv zeta. cbn [uploadLoop fold_left]. rewrite Hstep.
    destruct (IH acc' (Table.mkWorld (Table.apply (requestFor parseFloat userId store) t) [])
                eq_refl) as [Hf Hw].
    cbv zeta in Hf, Hw. rewrite Hf, Hw. by split.
Qed.

Lemma store_row_untouched stores c :
  forall table k row,
    table !! k = Some row ->
    row !! "store_code" = Some (VStr c) ->
    (forall store, store ∈ stores -> kode_toko store <> c) ->
    fold_left (fun t store => Table.apply (requestFor parseFloat userId store) t)
      stores table !! k
    = Some row.
Proof.
  induction stores as [|store rest IH]; intros table k row Hk Hc Hothers;
    [exact Hk|].
  cbn [fold_left]. apply IH; [|exact Hc|].
  - unfold requestFor. destruct (action store) as [[]|];
      try (by apply insert_lookup).
    rewrite (update_lookup _ _ _ _ _ _ Hk).
    rewrite (passes_other "store_code" c (kode_toko store) _ row Hc); [reflexivity|].
    apply Hothers, elem_of_cons. by left.
  - intros s Hs. apply Hothers, elem_of_cons. by right.
Qed.

Lemma store_row_updated stores store :
  NoDup (map kode_toko stores) ->
  store ∈ stores ->
  action store = Some UPDATE ->
  forall table k row,
    table !! k = Some row ->
    row !! "store_code" = Some (VStr (kode_toko store)) ->
    row !! "created_by" = Some (VStr userId) ->
    fold_left (fun t store => Table.apply (requestFor parseFloat userId store) t)
      stores table !! k
    = Some (updatePatch parseFloat store ∪ row).
Proof.
  induction stores as [|s rest IH]; intros Hnd Hin Hact table k row Hk Hc Ho;
    [by apply elem_of_nil in Hin|].
  apply NoDup_cons in Hnd as [Hfresh Hnd]. cbn [fold_left].
  assert (Hrest : forall s', s' ∈ rest -> kode_toko s' <> kode_toko s).
  { intros s' Hs' Heq. apply Hfresh. rewrite <- Heq.
    by apply list_elem_of_In, in_map, list_elem_of_In. }
  apply elem_of_cons in Hin as [<-|Hin].
  - apply store_row_untouched with (c := kode_toko store).
    + unfold requestFor. rewrite Hact. rewrite (update_lookup _ _ _ _ _ _ Hk).
      unfold Table.passes. simpl. rewrite Hc, Ho. simpl.
      by rewrite !String.eqb_refl.
    + rewrite lookup_union_r; [exact Hc|reflexivity].
    + exact Hrest.
  - apply IH; try assumption.
    unfold requestFor. destruct (action s) as [[]|];
      try (by apply insert_lookup).
    rewrite (update_lookup _ _ _ _ _ _ Hk).
    rewrite (passes_other "store_code" (kode_toko store) (kode_toko s) _ row Hc);
      [reflexivity|].
    intros Heq. by apply (Hrest store Hin).
Qed.

End Stores.

(** X24.  When the table refuses nothing, a commit of a store preview
    whose valid rows have distinct codes counts no failure, and every
    stored row of the signed-in user whose code is that of a valid row
    with the action UPDATE ends as that row overlaid with the ten columns
    of the update: name, category, address, maps link, route, phone,
    average order value, order frequency, key contact and notes. *)
Theorem store_commit_updates_matching_rows
    (parseFloat : string -> Number) (userId : string)
    (parsedStores : list StoreCsvUpload.CsvStore) (w : Table.World)
    (store : StoreCsvUpload.CsvStore) (k : nat) (row : Payload) :
  Table.faults w = [] ->
  NoDup (map StoreCsvUpload.kode_toko (List.filter StoreCsvUpload.isValid parsedStores)) ->
  store ∈ parsedStores ->
  StoreCsvUpload.isValid store = true ->
  StoreCsvUpload.action store = Some UPDATE ->
  Table.rows w !! k = Some row ->
  row !! "store_code" = Some (VStr (StoreCsvUpload.kode_toko store)) ->
  row !! "created_by" = Some (VStr userId) ->
  let r :=
    StoreCsvUpload.uploadStores parseFloat Table.World Table.send userId parsedStores w in
  failed r.1 = 0%nat /\
  Table.rows r.2 !! k = Some (StoreCsvUpload.updatePatch parseFloat store ∪ row) /\
  forall row',
    Table.rows r.2 !! k = Some row' ->
    row' !! "store_name" = Some (VStr (StoreCsvUpload.nama_toko store)) /\
    row' !! "category" = Some (VStr (StoreCsvUpload.kategori store)) /\
    row' !! "store_code" = row !! "store_code" /\
    row' !! "created_by" = row !! "created_by".
Proof.
  intros Hq Hnd Hin Hv Hact Hk Hc Ho r. subst r. unfold StoreCsvUpload.uploadStores.
  destruct (store_loop_quiet parseFloat userId
              (List.filter StoreCsvUpload.isValid parsedStores)
              (mkUploadResult 0 0 0) w Hq) as [Hf Hw].
  cbv zeta in Hf, Hw. rewrite Hf, Hw. cbn [Table.rows failed].
  assert (Hrow : fold_left
                   (fun t store =>
                      Table.apply (StoreCsvUpload.requestFor parseFloat userId store) t)
                   (List.filter StoreCsvUpload.isValid parsedStores) (Table.rows w) !! k
                 = Some (StoreCsvUpload.updatePatch parseFloat store ∪ row)).
  { apply store_row_updated; try assumption.
    apply list_elem_of_In, filter_In. split; [by apply list_elem_of_In|exact Hv]. }
  split; [reflexivity|]. split; [exact Hrow|].
  intros row' Hrow'. rewrite Hrow in Hrow'. injection Hrow' as <-.
  split; [by apply lookup_union_Some_l|]. split; [by apply lookup_union_Some_l|].
  split; by apply lookup_union_r.
Qed.

Section Products.
Import ProductCsvUpload.
Variable now : Table.World -> string.

Lemma product_step_quiet product acc t :
  exists acc',
    uploadStep Table.World Table.send now product acc (Table.mkWorld t [])
    = (acc',
       Table.mkWorld
         (Table.apply (requestFor Table.World now product (Table.mkWorld t [])) t) [])
    /\ failed acc' = failed acc.
Proof.
  unfold uploadStep, Table.send.
  destruct (action product) as [[]|]; eexists; split; reflexivity.
Qed.

Lemma product_row_untouched products c :
  forall acc t k row,
    t !! k = Some row ->
    row !! "sku_code" = Some (VStr c) ->
    (forall product, product ∈ products -> sku_code product <> c) ->
    let r := uploadLoop Table.World Table.send now products acc (Table.mkWorld t []) in
    failed r.1 = failed acc /\ Table.rows r.2 !! k = Some row.
Proof.
  induction products as [|product rest IH]; intros acc t k row Hk Hc Hothers;
    [by split|].
  destruct (product_step_quiet product acc t) as (acc' & Hstep & Hfailed).
  cbv zeta. cbn [uploadLoop]. rewrite Hstep.
  destruct (IH acc'
              (Table.apply (requestFor Table.World now product (Table.mkWorld t [])) t)
              k row) as [Hf Hrow]; [|exact Hc| |].
  - unfold requestFor. destruct (action product) as [[]|];
      try (by apply insert_lookup).
    rewrite (update_lookup _ _ _ _ _ _ Hk).
    rewrite (passes_other "sku_code" c (sku_code product) _ row Hc); [reflexivity|].
    apply Hothers, elem_of_cons. by left.
  - intros p Hp. apply Hothers, elem_of_cons. by right.
  - split; [by rewrite Hf|exact Hrow].
Qed.

Lemma product_row_updated products product :
  NoDup (map sku_code products) ->
  product ∈ products ->
  action product = Some UPDATE ->
  forall acc t k row,
    t !! k = Some row ->
    row !! "sku_code" = Some (VStr (sku_code product)) ->
    let r := uploadLoop Table.World Table.send now products acc (Table.mkWorld t []) in
    failed r.1 = failed acc /\
    exists w0,
      Table.rows r.2 !! k = Some (updatePatch Table.World now product w0 ∪ row).
Proof.
  induction products as [|p rest IH]; intros Hnd Hin Hact acc t k row Hk Hc;
    [by apply elem_of_nil in Hin|].
  apply NoDup_cons in Hnd as [Hfresh Hnd].
  assert (Hrest : forall p', p' ∈ rest -> sku_code p' <> sku_code p).
  { intros p' Hp' Heq. apply Hfresh. rewrite <- Heq.
    by apply list_elem_of_In, in_map, list_elem_of_In. }
  destruct (product_step_quiet p acc t) as (acc' & Hstep & Hfailed).
  cbv zeta. cbn [uploadLoop]. rewrite Hstep.
  apply elem_of_cons in Hin as [<-|Hin].
  - destruct (product_row_untouched rest (sku_code product) acc'
                (Table.apply (requestFor Table.World now product (Table.mkWorld t [])) t)
                k (updatePatch Table.World now product (Table.mkWorld t []) ∪ row))
      as [Hf Hrow].
    + unfold requestFor. rewrite Hact. rewrite (update_lookup _ _ _ _ _ _ Hk).
      unfold Table.passes. simpl. rewrite Hc. simpl. by rewrite String.eqb_refl.
    + rewrite lookup_union_r; [exact Hc|reflexivity].
    + exact Hrest.
    + split; [by rewrite Hf|]. by exists (Table.mkWorld t []).
  - destruct (IH Hnd Hin Hact acc'
                (Table.apply (requestFor Table.World now p (Table.mkWorld t [])) t)
                k row) as [Hf Hrow]; [|exact Hc|].
    + unfold requestFor. destruct (action p) as [[]|];
        try (by apply insert_lookup).
      rewrite (update_lookup _ _ _ _ _ _ Hk).
      rewrite (passes_other "sku_code" (sku_code product) (sku_code p) _ row Hc);
        [reflexivity|].
      intros Heq. by apply (Hrest product Hin).
    + split; [by rewrite Hf|exact Hrow].
Qed.

End Products.

(** X25.  When the table refuses nothing, a commit of a product preview
    whose valid rows have distinct SKUs counts no failure, and every
    stored row whose [sku_code] is that of a valid row with the action
    UPDATE ends with the name, the category and the price of that row
    and a new [updated_at], every other column being as before. *)
Theorem product_commit_updates_matching_rows
    (now : Table.World -> string)
    (parsedProducts : list ProductCsvUpload.CsvProduct) (w : Table.World)
    (product : ProductCsvUpload.CsvProduct) (k : nat) (row : Payload) :
  Table.faults w = [] ->
  NoDup (map ProductCsvUpload.sku_code
           (List.filter ProductCsvUpload.isValid parsedProducts)) ->
  product ∈ parsedProducts ->
  ProductCsvUpload.isValid product = true ->
  ProductCsvUpload.action product = Some UPDATE ->
  Table.rows w !! k = Some row ->
  row !! "sku_code" = Some (VStr (ProductCsvUpload.sku_code product)) ->
  let r := ProductCsvUpload.uploadProducts Table.World Table.send now parsedProducts w in
  failed r.1 = 0%nat /\
  exists row',
    Table.rows r.2 !! k = Some row' /\
    row' !! "product_name" = Some (VStr (ProductCsvUpload.product_name product)) /\
    row' !! "category" = Some (VStr (ProductCsvUpload.category product)) /\
    row' !! "unit_price" = Some (VNum (ProductCsvUpload.price product)) /\
    (exists stamp, row' !! "updated_at" = Some (VStr stamp)) /\
    forall column,
      column ∉ ["product_name"; "category"; "unit_price"; "updated_at"] ->
      row' !! column = row !! column.
Proof.
  intros Hq Hnd Hin Hv Hact Hk Hc r. subst r. unfold ProductCsvUpload.uploadProducts.
  destruct w as [t fs]. simpl in Hq, Hk. subst fs.
  destruct (product_row_updated now
              (List.filter ProductCsvUpload.isValid parsedProducts) product Hnd)
    with (acc := mkUploadResult 0 0 0) (t := t) (k := k) (row := row)
    as (Hf & w0 & Hrow); try assumption.
  { apply list_elem_of_In, filter_In. split; [by apply list_elem_of_In|exact Hv]. }
  split; [exact Hf|].
  exists (ProductCsvUpload.updatePatch Table.World now product w0 ∪ row).
  split; [exact Hrow|].
  split; [by apply lookup_union_Some_l|]. split; [by apply lookup_union_Some_l|].
  split; [by apply lookup_union_Some_l|].
  split; [exists (now w0); by apply lookup_union_Some_l|].
  intros column Hcol. apply lookup_union_r.
  unfold ProductCsvUpload.updatePatch. cbn [list_to_map foldr].
  rewrite !not_elem_of_cons in Hcol. destruct Hcol as (H1 & H2 & H3 & H4 & _).
  rewrite !lookup_insert_ne by (intros Heq; by subst). apply lookup_empty.
Qed.

End UpsertEffect.

Section UpsertInstances.
Import Rest.

(** The stored store of [u1] takes the name of the imported row. *)
Lemma store_commit_updates_matching_rows_witness :
  let w := Table.mkWorld [Sample.ownStore] [] in
  let r :=
    StoreCsvUpload.uploadStores Sample.parseDigits Table.World Table.send "u1"
      [Sample.ownStoreRow] w in
  failed r.1 = 0%nat /\
  Table.rows r.2 !! 0%nat
  = Some (StoreCsvUpload.updatePatch Sample.parseDigits Sample.ownStoreRow
            ∪ Sample.ownStore).
Proof.
  intros w r.
  destruct (store_commit_updates_matching_rows Sample.parseDigits "u1"
              [Sample.ownStoreRow] w Sample.ownStoreRow 0%nat Sample.ownStore)
    as (Hfailed & Hrow & _).
  - reflexivity.
  - apply (bool_decide_unpack _). vm_compute. exact I.
  - apply elem_of_cons. left. reflexivity.
  - reflexivity.
  - reflexivity.
  - reflexivity.
  - reflexivity.
  - reflexivity.
  - split; [exact Hfailed|exact Hrow].
Defined.

(** The stored product takes the new name and stays inactive. *)
Lemma product_commit_updates_matching_rows_witness :
  let now := fun _ : Table.World => "2025-07-17T00:00:00.000Z" in
  let w := Table.mkWorld [Sample.sameProduct] [] in
  let r :=
    ProductCsvUpload.uploadProducts Table.World Table.send now [Sample.productRow] w in
  failed r.1 = 0%nat /\
  exists row',
    Table.rows r.2 !! 0%nat = Some row' /\
    row' !! "product_name" = Some (VStr "Mascara") /\
    row' !! "is_active" = Some (VBool false).
Proof.
  intros now w r.
  destruct (product_commit_updates_matching_rows now [Sample.productRow] w
              Sample.productRow 0%nat Sample.sameProduct)
    as (Hfailed & row' & Hrow & Hname & _ & _ & _ & Hother).
  - reflexivity.
  - apply (bool_decide_unpack _). vm_compute. exact I.
  - apply elem_of_cons. left. reflexivity.
  - reflexivity.
  - reflexivity.
  - reflexivity.
  - reflexivity.
  - split; [exact Hfailed|]. exists row'. split; [exact Hrow|]. split; [exact Hname|].
    rewrite Hother; [reflexivity|].
    apply (bool_decide_unpack _). vm_compute. exact I.
Defined.

End UpsertInstances.
